(** * FuContext: the shared system state of the firmware-update daemon

    A shallow embedding of [libfwupdplugin/fu-context.c].  The private
    structure [FuContextPrivate] becomes a record, the GLib containers become
    lists and finite maps, every function that mutates the context or talks to
    the outside (logging, property notifications, volume enumeration,
    mounting) becomes a computation in a small state monad whose state is the
    context together with the trace of observable events.

    What C checks at run time and the types settle here is left out: the
    [FU_IS_CONTEXT (self)] checks, the checks that a string argument is not
    NULL and that the [GError] handed in is not set yet.  So is the release
    of memory and of mounts at the end of a scope.  Constants, types and
    functions of other files of fwupd and of GLib are variables of the
    section, or fields of the volume and of the platform that answers. *)

From Stdlib Require Import ZArith Ascii String List Permutation Sorted Lia.
From Stdlib Require Import OrderedTypeEx.
From stdpp Require Import base option list gmap strings pretty.
From Equations Require Import Equations.

Local Open Scope string_scope.
Local Open Scope Z_scope.

(** ** GLib basics *)

(** [guint] is a 32-bit unsigned integer, [guint64] a 64-bit one; a C
    conversion to [guint] keeps the low 32 bits. *)
Definition G_MAXUINT : Z := 2 ^ 32 - 1.
Definition to_guint (z : Z) : Z := z mod 2 ^ 32.

(** The error codes of the [FWUPD_ERROR] domain that the context tells apart,
    and the errors of any other domain (GIO and the like). *)
Inductive FwupdError :=
| FWUPD_ERROR_INTERNAL
| FWUPD_ERROR_READ
| FWUPD_ERROR_WRITE
| FWUPD_ERROR_INVALID_FILE
| FWUPD_ERROR_NOT_FOUND
| FWUPD_ERROR_NOTHING_TO_DO
| FWUPD_ERROR_NOT_SUPPORTED
| FWUPD_ERROR_OTHER (code : Z).

Inductive GErrorCode :=
| FWUPD_ERROR (code : FwupdError)
| FOREIGN_ERROR (domain : string) (code : Z).

Record GError := { error_code : GErrorCode; error_message : string }.

#[global] Instance FwupdError_eq_dec : EqDecision FwupdError.
Proof. solve_decision. Defined.
#[global] Instance GErrorCode_eq_dec : EqDecision GErrorCode.
Proof. solve_decision. Defined.

(** [g_error_matches (e, FWUPD_ERROR, code)] *)
Definition g_error_matches (e : GError) (code : FwupdError) : bool :=
  bool_decide (error_code e = FWUPD_ERROR code).

(** [g_prefix_error] *)
Definition g_prefix_error (prefix : string) (e : GError) : GError :=
  {| error_code := error_code e; error_message := prefix +:+ error_message e |}.

(** A call that either gives a value or sets its [GError **error]. *)
Inductive result (A : Type) :=
| Ok (a : A)
| Err (e : GError).
Arguments Ok {A} a.
Arguments Err {A} e.

Definition is_ok {A} (r : result A) : bool :=
  match r with Ok _ => true | Err _ => false end.

(** What the outside can observe of a call. *)
Inductive GLogLevel := LOG_CRITICAL | LOG_WARNING | LOG_INFO | LOG_DEBUG.

Inductive Event :=
| EvLog (level : GLogLevel) (message : string)
| EvNotify (property : string)
| EvSignal (name : string)
| EvGetenv (variable : string)
| EvVolumeNewByKind (kind : string)
| EvGetBlockDevices
| EvVolumeLocker (volume_id : option string)
| EvHwidsSetupFunc (name : string)
| EvHwidsRegistry
| EvSmbiosRegistry
| EvQuirksLoad.

(** ** Strings and arrays *)

(** [g_strcmp0] on two non-NULL strings: the sign of the byte-wise
    comparison. *)
Definition g_strcmp0 (a b : string) : Z :=
  match String.compare a b with
  | Lt => -1
  | Eq => 0
  | Gt => 1
  end.

(** [g_strcmp0] when either side may be NULL: NULL sorts first and equals
    only itself. *)
Definition g_strcmp0_null (a b : option string) : Z :=
  match a, b with
  | None, None => 0
  | None, Some _ => -1
  | Some _, None => 1
  | Some a, Some b => g_strcmp0 a b
  end.

Definition g_str_has_prefix (str prefix : string) : bool :=
  String.prefix prefix str.

Definition g_str_has_suffix (str suffix : string) : bool :=
  let str_len := String.length str in
  let suffix_len := String.length suffix in
  if (str_len <? suffix_len)%nat then false
  else String.eqb (substring (str_len - suffix_len) suffix_len str) suffix.

(** [g_utf8_strdown] on ASCII text: the letters [A] to [Z] are lowered, every
    other byte is kept. *)
Definition ascii_tolower (c : ascii) : ascii :=
  let n := nat_of_ascii c in
  if ((65 <=? n) && (n <=? 90))%nat then ascii_of_nat (n + 32) else c.

Fixpoint g_utf8_strdown (s : string) : string :=
  match s with
  | EmptyString => EmptyString
  | String c s' => String (ascii_tolower c) (g_utf8_strdown s')
  end.

(** [g_path_get_basename]: the last component of the path, trailing
    separators dropped; [.] for the empty string and [/] for a path made of
    separators only. *)
Definition is_dir_separator (c : ascii) : bool := Ascii.eqb c "/"%char.

Fixpoint skip_separators (l : list ascii) : list ascii :=
  match l with
  | c :: l' => if is_dir_separator c then skip_separators l' else l
  | [] => []
  end.

Fixpoint take_component (l : list ascii) : list ascii :=
  match l with
  | c :: l' => if is_dir_separator c then [] else c :: take_component l'
  | [] => []
  end.

Definition g_path_get_basename (file_name : string) : string :=
  match file_name with
  | EmptyString => "."
  | _ =>
      match skip_separators (rev (list_ascii_of_string file_name)) with
      | [] => "/"
      | l => string_of_list_ascii (rev (take_component l))
      end
  end.

(** The piece of [s] before the first [delimiter] and the rest after it, if
    the delimiter occurs. *)
Fixpoint split_first (delimiter : ascii) (s : string) : option (string * string) :=
  match s with
  | EmptyString => None
  | String c s' =>
      if Ascii.eqb c delimiter then Some (EmptyString, s')
      else match split_first delimiter s' with
           | Some (before, after) => Some (String c before, after)
           | None => None
           end
  end.

(** [g_strsplit (s, delimiter, 2)]: at most two pieces; the empty string
    gives the empty vector. *)
Definition g_strsplit_2 (s : string) (delimiter : ascii) : list string :=
  match s with
  | EmptyString => []
  | _ => match split_first delimiter s with
         | Some (before, after) => [before; after]
         | None => [s]
         end
  end.

(** [g_strsplit (s, delimiter, -1)]: every piece; the empty string gives the
    empty vector. *)
Fixpoint split_all (delimiter : ascii) (s : string) : list string :=
  match s with
  | EmptyString => [EmptyString]
  | String c s' =>
      if Ascii.eqb c delimiter then EmptyString :: split_all delimiter s'
      else match split_all delimiter s' with
           | piece :: pieces => String c piece :: pieces
           | [] => [String c EmptyString]
           end
  end.

Definition g_strsplit (s : string) (delimiter : ascii) : list string :=
  match s with
  | EmptyString => []
  | _ => split_all delimiter s
  end.

(** [g_ptr_array_sort] and [g_ptr_array_sort_with_data] are stable: elements
    that compare equal keep their order.  For a comparison that is a total
    preorder the result of a stable sort is unique; it is computed here by
    insertion from the right. *)
Fixpoint sort_insert {A} (compare_func : A -> A -> Z) (x : A) (l : list A) : list A :=
  match l with
  | [] => [x]
  | y :: l' =>
      if compare_func x y <=? 0 then x :: l
      else y :: sort_insert compare_func x l'
  end.

Fixpoint g_ptr_array_sort {A} (compare_func : A -> A -> Z) (l : list A) : list A :=
  match l with
  | [] => []
  | x :: l' => sort_insert compare_func x (g_ptr_array_sort compare_func l')
  end.

(** [x] may stand before [y] in the sorted array. *)
Definition sorted_before {A} (compare_func : A -> A -> Z) (x y : A) : Prop :=
  compare_func x y <= 0.

(** [h] is the best element of [l] and the first of the best ones. *)
Definition first_best {A} (compare_func : A -> A -> Z) (l : list A) (h : A) : Prop :=
  exists l1 l2,
    l = (l1 ++ h :: l2)%list /\
    (forall u, In u l1 -> compare_func h u < 0) /\
    (forall u, In u l2 -> compare_func h u <= 0).

(** ** Volumes

    [FuVolume] is an external type; a volume is represented by what its
    accessors answer: the identity and partition data, whether
    [fu_volume_locker] can mount it, and what the mounted file system shows. *)
Record FuVolume := {
  volume_id : option string;              (* [fu_volume_get_id], may be NULL *)
  volume_partition_kind : string;
  volume_partition_uuid : string;
  volume_id_type : string;                (* file system type, [vfat] *)
  volume_is_internal : bool;
  volume_size : Z;                        (* [guint64], in bytes *)
  volume_locker : option GError;          (* [None]: the mount succeeds *)
  volume_mount_point : option string;     (* once mounted *)
  volume_dirs : list string;              (* directories at the mount point *)
  volume_files : result (list string);    (* [fu_path_get_files] *)
}.

#[global] Instance GError_eq_dec : EqDecision GError.
Proof. solve_decision. Defined.
#[global] Instance result_eq_dec {A} `{EqDecision A} : EqDecision (result A).
Proof. solve_decision. Defined.
#[global] Instance FuVolume_eq_dec : EqDecision FuVolume.
Proof. solve_decision. Defined.

Definition fu_volume_set_partition_kind (v : FuVolume) (kind : string) : FuVolume :=
  {| volume_id := volume_id v; volume_partition_kind := kind;
     volume_partition_uuid := volume_partition_uuid v;
     volume_id_type := volume_id_type v; volume_is_internal := volume_is_internal v;
     volume_size := volume_size v; volume_locker := volume_locker v;
     volume_mount_point := volume_mount_point v; volume_dirs := volume_dirs v;
     volume_files := volume_files v |}.

Definition fu_volume_set_partition_uuid (v : FuVolume) (uuid : string) : FuVolume :=
  {| volume_id := volume_id v; volume_partition_kind := volume_partition_kind v;
     volume_partition_uuid := uuid;
     volume_id_type := volume_id_type v; volume_is_internal := volume_is_internal v;
     volume_size := volume_size v; volume_locker := volume_locker v;
     volume_mount_point := volume_mount_point v; volume_dirs := volume_dirs v;
     volume_files := volume_files v |}.

(** A block device as UDisks shows it: the cached properties that the
    context reads. *)
Record BlockDevice := {
  block_id_type : option string;
  block_device : option string;
  block_id_label : option string;
}.

(** The answers of the platform at the time of a call. *)
Record World := {
  getenv_FWUPD_UEFI_ESP_PATH : option string;
  fu_volume_new_from_mount_path : string -> FuVolume;
  fu_volume_new_by_kind : string -> result (list FuVolume);
  fu_common_get_block_devices : result (list BlockDevice);
  fu_firmware_parse_file : string -> option GError;   (* as a PE image *)
}.

Section FuContext.
Set Default Proof Using "Type".

(** The helper objects owned by the context are external: their state is
    abstract. *)
Variables FuHwids FuConfig FuSmbios FuQuirks FuEfivars : Type.
Variables FuBackend FuBiosSettings FuFirmware : Type.

(** [FuContextPrivate], field by field. *)
Record FuContextPrivate := {
  flags : Z;
  hwids : FuHwids;
  config : FuConfig;
  smbios : FuSmbios;
  chassis_kind : Z;
  quirks : FuQuirks;
  efivars : FuEfivars;
  backends : list FuBackend;
  runtime_versions : gmap string string;
  compile_versions : gmap string string;
  udev_subsystems : gmap string (list string);
  esp_volumes : list FuVolume;
  firmware_gtypes : gmap string Z;
  hwid_flags : gset string;
  power_state : Z;
  lid_state : Z;
  display_state : Z;
  battery_level : Z;
  battery_threshold : Z;
  host_bios_settings : FuBiosSettings;
  fdt : option FuFirmware;
  esp_location : option string;
}.

(** Assignments to one field of the structure. *)
Definition with_flags (p : FuContextPrivate) (v : Z) :=
  {| flags := v; hwids := hwids p; config := config p; smbios := smbios p;
     chassis_kind := chassis_kind p; quirks := quirks p; efivars := efivars p;
     backends := backends p; runtime_versions := runtime_versions p;
     compile_versions := compile_versions p;
     udev_subsystems := udev_subsystems p; esp_volumes := esp_volumes p;
     firmware_gtypes := firmware_gtypes p; hwid_flags := hwid_flags p;
     power_state := power_state p; lid_state := lid_state p;
     display_state := display_state p; battery_level := battery_level p;
     battery_threshold := battery_threshold p;
     host_bios_settings := host_bios_settings p; fdt := fdt p;
     esp_location := esp_location p |}.

Definition with_hwids (p : FuContextPrivate) (v : FuHwids) :=
  {| flags := flags p; hwids := v; config := config p; smbios := smbios p;
     chassis_kind := chassis_kind p; quirks := quirks p; efivars := efivars p;
     backends := backends p; runtime_versions := runtime_versions p;
     compile_versions := compile_versions p;
     udev_subsystems := udev_subsystems p; esp_volumes := esp_volumes p;
     firmware_gtypes := firmware_gtypes p; hwid_flags := hwid_flags p;
     power_state := power_state p; lid_state := lid_state p;
     display_state := display_state p; battery_level := battery_level p;
     battery_threshold := battery_threshold p;
     host_bios_settings := host_bios_settings p; fdt := fdt p;
     esp_location := esp_location p |}.

Definition with_config (p : FuContextPrivate) (v : FuConfig) :=
  {| flags := flags p; hwids := hwids p; config := v; smbios := smbios p;
     chassis_kind := chassis_kind p; quirks := quirks p; efivars := efivars p;
     backends := backends p; runtime_versions := runtime_versions p;
     compile_versions := compile_versions p;
     udev_subsystems := udev_subsystems p; esp_volumes := esp_volumes p;
     firmware_gtypes := firmware_gtypes p; hwid_flags := hwid_flags p;
     power_state := power_state p; lid_state := lid_state p;
     display_state := display_state p; battery_level := battery_level p;
     battery_threshold := battery_threshold p;
     host_bios_settings := host_bios_settings p; fdt := fdt p;
     esp_location := esp_location p |}.

Definition with_chassis_kind (p : FuContextPrivate) (v : Z) :=
  {| flags := flags p; hwids := hwids p; config := config p;
     smbios := smbios p; chassis_kind := v; quirks := quirks p;
     efivars := efivars p; backends := backends p;
     runtime_versions := runtime_versions p;
     compile_versions := compile_versions p;
     udev_subsystems := udev_subsystems p; esp_volumes := esp_volumes p;
     firmware_gtypes := firmware_gtypes p; hwid_flags := hwid_flags p;
     power_state := power_state p; lid_state := lid_state p;
     display_state := display_state p; battery_level := battery_level p;
     battery_threshold := battery_threshold p;
     host_bios_settings := host_bios_settings p; fdt := fdt p;
     esp_location := esp_location p |}.

Definition with_quirks (p : FuContextPrivate) (v : FuQuirks) :=
  {| flags := flags p; hwids := hwids p; config := config p;
     smbios := smbios p; chassis_kind := chassis_kind p; quirks := v;
     efivars := efivars p; backends := backends p;
     runtime_versions := runtime_versions p;
     compile_versions := compile_versions p;
     udev_subsystems := udev_subsystems p; esp_volumes := esp_volumes p;
     firmware_gtypes := firmware_gtypes p; hwid_flags := hwid_flags p;
     power_state := power_state p; lid_state := lid_state p;
     display_state := display_state p; battery_level := battery_level p;
     battery_threshold := battery_threshold p;
     host_bios_settings := host_bios_settings p; fdt := fdt p;
     esp_location := esp_location p |}.

Definition with_udev_subsystems (p : FuContextPrivate) (v : gmap string (list string)) :=
  {| flags := flags p; hwids := hwids p; config := config p;
     smbios := smbios p; chassis_kind := chassis_kind p; quirks := quirks p;
     efivars := efivars p; backends := backends p;
     runtime_versions := runtime_versions p;
     compile_versions := compile_versions p; udev_subsystems := v;
     esp_volumes := esp_volumes p; firmware_gtypes := firmware_gtypes p;
     hwid_flags := hwid_flags p; power_state := power_state p;
     lid_state := lid_state p; display_state := display_state p;
     battery_level := battery_level p;
     battery_threshold := battery_threshold p;
     host_bios_settings := host_bios_settings p; fdt := fdt p;
     esp_location := esp_location p |}.

Definition with_esp_volumes (p : FuContextPrivate) (v : list FuVolume) :=
  {| flags := flags p; hwids := hwids p; config := config p;
     smbios := smbios p; chassis_kind := chassis_kind p; quirks := quirks p;
     efivars := efivars p; backends := backends p;
     runtime_versions := runtime_versions p;
     compile_versions := compile_versions p;
     udev_subsystems := udev_subsystems p; esp_volumes := v;
     firmware_gtypes := firmware_gtypes p; hwid_flags := hwid_flags p;
     power_state := power_state p; lid_state := lid_state p;
     display_state := display_state p; battery_level := battery_level p;
     battery_threshold := battery_threshold p;
     host_bios_settings := host_bios_settings p; fdt := fdt p;
     esp_location := esp_location p |}.

Definition with_hwid_flags (p : FuContextPrivate) (v : gset string) :=
  {| flags := flags p; hwids := hwids p; config := config p;
     smbios := smbios p; chassis_kind := chassis_kind p; quirks := quirks p;
     efivars := efivars p; backends := backends p;
     runtime_versions := runtime_versions p;
     compile_versions := compile_versions p;
     udev_subsystems := udev_subsystems p; esp_volumes := esp_volumes p;
     firmware_gtypes := firmware_gtypes p; hwid_flags := v;
     power_state := power_state p; lid_state := lid_state p;
     display_state := display_state p; battery_level := battery_level p;
     battery_threshold := battery_threshold p;
     host_bios_settings := host_bios_settings p; fdt := fdt p;
     esp_location := esp_location p |}.

Definition with_battery_level (p : FuContextPrivate) (v : Z) :=
  {| flags := flags p; hwids := hwids p; config := config p;
     smbios := smbios p; chassis_kind := chassis_kind p; quirks := quirks p;
     efivars := efivars p; backends := backends p;
     runtime_versions := runtime_versions p;
     compile_versions := compile_versions p;
     udev_subsystems := udev_subsystems p; esp_volumes := esp_volumes p;
     firmware_gtypes := firmware_gtypes p; hwid_flags := hwid_flags p;
     power_state := power_state p; lid_state := lid_state p;
     display_state := display_state p; battery_level := v;
     battery_threshold := battery_threshold p;
     host_bios_settings := host_bios_settings p; fdt := fdt p;
     esp_location := esp_location p |}.

Definition with_battery_threshold (p : FuContextPrivate) (v : Z) :=
  {| flags := flags p; hwids := hwids p; config := config p;
     smbios := smbios p; chassis_kind := chassis_kind p; quirks := quirks p;
     efivars := efivars p; backends := backends p;
     runtime_versions := runtime_versions p;
     compile_versions := compile_versions p;
     udev_subsystems := udev_subsystems p; esp_volumes := esp_volumes p;
     firmware_gtypes := firmware_gtypes p; hwid_flags := hwid_flags p;
     power_state := power_state p; lid_state := lid_state p;
     display_state := display_state p; battery_level := battery_level p;
     battery_threshold := v; host_bios_settings := host_bios_settings p;
     fdt := fdt p; esp_location := esp_location p |}.

Definition with_host_bios_settings (p : FuContextPrivate) (v : FuBiosSettings) :=
  {| flags := flags p; hwids := hwids p; config := config p;
     smbios := smbios p; chassis_kind := chassis_kind p; quirks := quirks p;
     efivars := efivars p; backends := backends p;
     runtime_versions := runtime_versions p;
     compile_versions := compile_versions p;
     udev_subsystems := udev_subsystems p; esp_volumes := esp_volumes p;
     firmware_gtypes := firmware_gtypes p; hwid_flags := hwid_flags p;
     power_state := power_state p; lid_state := lid_state p;
     display_state := display_state p; battery_level := battery_level p;
     battery_threshold := battery_threshold p; host_bios_settings := v;
     fdt := fdt p; esp_location := esp_location p |}.

Definition with_esp_location (p : FuContextPrivate) (v : option string) :=
  {| flags := flags p; hwids := hwids p; config := config p;
     smbios := smbios p; chassis_kind := chassis_kind p; quirks := quirks p;
     efivars := efivars p; backends := backends p;
     runtime_versions := runtime_versions p;
     compile_versions := compile_versions p;
     udev_subsystems := udev_subsystems p; esp_volumes := esp_volumes p;
     firmware_gtypes := firmware_gtypes p; hwid_flags := hwid_flags p;
     power_state := power_state p; lid_state := lid_state p;
     display_state := display_state p; battery_level := battery_level p;
     battery_threshold := battery_threshold p;
     host_bios_settings := host_bios_settings p; fdt := fdt p;
     esp_location := v |}.

(** ** The monad: a context and the trace of events so far *)

Record State := { st_priv : FuContextPrivate; st_trace : list Event }.

Definition M (A : Type) : Type := State -> A * State.

Definition ret {A} (a : A) : M A := fun s => (a, s).
Definition bind {A B} (k : A -> M B) (m : M A) : M B :=
  fun s => let '(a, s') := m s in k a s'.

#[local] Instance M_ret : MRet M := @ret.
#[local] Instance M_bind : MBind M := @bind.

Definition GET_PRIVATE : M FuContextPrivate := fun s => (st_priv s, s).
Definition SET_PRIVATE (p : FuContextPrivate) : M unit :=
  fun s => (tt, {| st_priv := p; st_trace := st_trace s |}).
Definition emit (e : Event) : M unit :=
  fun s => (tt, {| st_priv := st_priv s; st_trace := st_trace s ++ [e] |}).

Definition g_critical (msg : string) : M unit := emit (EvLog LOG_CRITICAL msg).
Definition g_warning (msg : string) : M unit := emit (EvLog LOG_WARNING msg).
Definition g_info (msg : string) : M unit := emit (EvLog LOG_INFO msg).
Definition g_debug (msg : string) : M unit := emit (EvLog LOG_DEBUG msg).
Definition g_object_notify (property : string) : M unit := emit (EvNotify property).

(** [g_return_if_fail] and [g_return_val_if_fail] report the failed check as a
    critical message; the caller then returns. *)
Definition g_return_if_fail_warning (expr : string) : M unit :=
  g_critical ("assertion '" +:+ expr +:+ "' failed").

(** ** Flags *)

Definition fu_context_add_flag (flag : Z) : M unit :=
  priv ← GET_PRIVATE;
  if negb (Z.land (flags priv) flag =? 0) then ret tt
  else
    SET_PRIVATE (with_flags priv (Z.lor (flags priv) flag));;
    g_object_notify "flags".

Definition fu_context_remove_flag (flag : Z) : M unit :=
  priv ← GET_PRIVATE;
  if Z.land (flags priv) flag =? 0 then ret tt
  else
    SET_PRIVATE (with_flags priv (Z.land (flags priv) (Z.lnot flag)));;
    g_object_notify "flags".

Definition has_flag (priv : FuContextPrivate) (flag : Z) : bool :=
  0 <? Z.land (flags priv) flag.

Definition fu_context_has_flag (flag : Z) : M bool :=
  priv ← GET_PRIVATE;
  ret (has_flag priv flag).

(** ** Battery level and threshold *)

Variable FWUPD_BATTERY_LEVEL_INVALID : Z.

Definition fu_context_get_battery_level : M Z :=
  priv ← GET_PRIVATE;
  ret (battery_level priv).

Definition fu_context_set_battery_level (level : Z) : M unit :=
  priv ← GET_PRIVATE;
  if negb (level <=? FWUPD_BATTERY_LEVEL_INVALID) then
    g_return_if_fail_warning "battery_level <= FWUPD_BATTERY_LEVEL_INVALID"
  else if battery_level priv =? level then ret tt
  else
    SET_PRIVATE (with_battery_level priv level);;
    g_info ("battery level now " +:+ pretty level);;
    g_object_notify "battery-level".

Definition fu_context_get_battery_threshold : M Z :=
  priv ← GET_PRIVATE;
  ret (battery_threshold priv).

Definition fu_context_set_battery_threshold (threshold : Z) : M unit :=
  priv ← GET_PRIVATE;
  if negb (threshold <=? FWUPD_BATTERY_LEVEL_INVALID) then
    g_return_if_fail_warning "battery_threshold <= FWUPD_BATTERY_LEVEL_INVALID"
  else if battery_threshold priv =? threshold then ret tt
  else
    SET_PRIVATE (with_battery_threshold priv threshold);;
    g_info ("battery threshold now " +:+ pretty threshold);;
    g_object_notify "battery-threshold".

(** ** HWIDs and SMBIOS behind the loaded flag

    The registries are external; each read of one is recorded in the trace. *)

Variable FU_CONTEXT_FLAG_LOADED_HWINFO : Z.
Variable GBytes : Type.

Variable fu_hwids_has_guid : FuHwids -> string -> bool.
Variable fu_hwids_get_guids : FuHwids -> list string.
Variable fu_hwids_get_value : FuHwids -> string -> option string.
Variable fu_hwids_get_replace_values : FuHwids -> string -> result string.
Variable fu_smbios_get_string : FuSmbios -> Z -> Z -> Z -> option string * option GError.
Variable fu_smbios_get_data : FuSmbios -> Z -> Z -> result (list GBytes).
Variable fu_smbios_get_integer : FuSmbios -> Z -> Z -> Z -> Z * option GError.

Definition fu_context_get_smbios_string (type length offset : Z)
  : M (option string * option GError) :=
  priv ← GET_PRIVATE;
  loaded ← fu_context_has_flag FU_CONTEXT_FLAG_LOADED_HWINFO;
  if negb loaded then
    g_critical "cannot use SMBIOS before calling ->load_hwinfo()";;
    mret (None, None)
  else
    emit EvSmbiosRegistry;;
    mret (fu_smbios_get_string (smbios priv) type length offset).

Definition fu_context_get_smbios_data (type length : Z) : M (result (list GBytes)) :=
  priv ← GET_PRIVATE;
  loaded ← fu_context_has_flag FU_CONTEXT_FLAG_LOADED_HWINFO;
  if negb loaded then
    g_critical "cannot use SMBIOS before calling ->load_hwinfo()";;
    mret (Err {| error_code := FWUPD_ERROR FWUPD_ERROR_INTERNAL;
                 error_message := "no data" |})
  else
    emit EvSmbiosRegistry;;
    mret (fu_smbios_get_data (smbios priv) type length).

Definition fu_context_get_smbios_integer (type length offset : Z)
  : M (Z * option GError) :=
  priv ← GET_PRIVATE;
  loaded ← fu_context_has_flag FU_CONTEXT_FLAG_LOADED_HWINFO;
  if negb loaded then
    g_critical "cannot use SMBIOS before calling ->load_hwinfo()";;
    mret (G_MAXUINT, None)
  else
    emit EvSmbiosRegistry;;
    mret (fu_smbios_get_integer (smbios priv) type length offset).

Definition fu_context_has_hwid_guid (guid : string) : M bool :=
  priv ← GET_PRIVATE;
  loaded ← fu_context_has_flag FU_CONTEXT_FLAG_LOADED_HWINFO;
  if negb loaded then
    g_critical "cannot use HWIDs before calling ->load_hwinfo()";;
    mret false
  else
    emit EvHwidsRegistry;;
    mret (fu_hwids_has_guid (hwids priv) guid).

Definition fu_context_get_hwid_guids : M (option (list string)) :=
  priv ← GET_PRIVATE;
  loaded ← fu_context_has_flag FU_CONTEXT_FLAG_LOADED_HWINFO;
  if negb loaded then
    g_critical "cannot use HWIDs before calling ->load_hwinfo()";;
    mret None
  else
    emit EvHwidsRegistry;;
    mret (Some (fu_hwids_get_guids (hwids priv))).

Definition fu_context_get_hwid_value (key : string) : M (option string) :=
  priv ← GET_PRIVATE;
  loaded ← fu_context_has_flag FU_CONTEXT_FLAG_LOADED_HWINFO;
  if negb loaded then
    g_critical "cannot use HWIDs before calling ->load_hwinfo()";;
    mret None
  else
    emit EvHwidsRegistry;;
    mret (fu_hwids_get_value (hwids priv) key).

Definition fu_context_get_hwid_replace_value (keys : string) : M (result string) :=
  priv ← GET_PRIVATE;
  loaded ← fu_context_has_flag FU_CONTEXT_FLAG_LOADED_HWINFO;
  if negb loaded then
    g_critical "cannot use HWIDs before calling ->load_hwinfo()";;
    mret (Err {| error_code := FWUPD_ERROR FWUPD_ERROR_INTERNAL;
                 error_message := "no data" |})
  else
    emit EvHwidsRegistry;;
    mret (fu_hwids_get_replace_values (hwids priv) keys).

(** ** udev subsystems *)

Definition fu_context_udev_plugin_names_sort_cb (a b : string) : Z :=
  g_strcmp0 a b.

(** The part of [fu_context_add_udev_subsystem] after the base subsystem has
    been watched. *)
Definition add_udev_subsystem_exact (subsystem : string) (plugin_name : option string)
  : M unit :=
  priv ← GET_PRIVATE;
  match udev_subsystems priv !! subsystem with
  | Some plugin_names =>
      match plugin_name with
      | Some name =>
          if existsb (fun tmp => g_strcmp0 tmp name =? 0) plugin_names then mret tt
          else
            SET_PRIVATE
              (with_udev_subsystems priv
                 (<[subsystem :=
                      g_ptr_array_sort fu_context_udev_plugin_names_sort_cb
                        (plugin_names ++ [name])]>
                    (udev_subsystems priv)))
      | None => mret tt
      end
  | None =>
      let plugin_names := match plugin_name with Some name => [name] | None => [] end in
      SET_PRIVATE
        (with_udev_subsystems priv (<[subsystem := plugin_names]> (udev_subsystems priv)));;
      match plugin_name with
      | Some name =>
          g_info ("added udev subsystem watch of " +:+ subsystem
                  +:+ " for plugin " +:+ name)
      | None => g_info ("added udev subsystem watch of " +:+ subsystem)
      end
  end.

(** A value together with the equation that names it, for the termination
    argument below. *)
Definition inspect {A} (a : A) : {b : A | a = b} := exist _ a eq_refl.

Equations? fu_context_add_udev_subsystem (subsystem : string) (plugin_name : option string)
  : M unit by wf (String.length subsystem) lt :=
  fu_context_add_udev_subsystem subsystem plugin_name
    with inspect (g_strsplit_2 subsystem ":"%char) => {
    | exist _ (base :: _ :: _) Hsplit =>
        (* add the base subsystem watch if passed a subsystem:devtype *)
        fu_context_add_udev_subsystem base None;;
        add_udev_subsystem_exact subsystem plugin_name
    | exist _ _ _ => add_udev_subsystem_exact subsystem plugin_name }.
Proof.
  (* the base is a proper prefix of subsystem:devtype *)
  clear fu_context_add_udev_subsystem plugin_name.
  unfold g_strsplit_2 in Hsplit.
  destruct subsystem as [|c subsystem]; [discriminate|].
  destruct (split_first ":" (String c subsystem)) as [[before after]|] eqn:E;
    [|discriminate].
  injection Hsplit as <- _ _.
  revert E. generalize (String c subsystem). clear.
  intros s. revert before after.
  induction s as [|c s IH]; intros before after; simpl; [discriminate|].
  destruct (Ascii.eqb c ":").
  - intros [= <- <-]. simpl. lia.
  - destruct (split_first ":" s) as [[b a]|]; [|discriminate].
    intros [= <- <-]. simpl. specialize (IH _ _ eq_refl). lia.
Qed.

Definition not_found_error (message : string) : GError :=
  {| error_code := FWUPD_ERROR FWUPD_ERROR_NOT_FOUND; error_message := message |}.

Definition not_supported_error (message : string) : GError :=
  {| error_code := FWUPD_ERROR FWUPD_ERROR_NOT_SUPPORTED; error_message := message |}.

Definition fu_context_get_plugin_names_for_udev_subsystem (subsystem : string)
  : M (result (list string)) :=
  priv ← GET_PRIVATE;
  let subsystem_devtype := g_strsplit_2 subsystem ":"%char in
  let plugin_names : list string := [] in
  (* add the base subsystem first *)
  let plugin_names :=
    match subsystem_devtype with
    | base :: _ :: _ =>
        match udev_subsystems priv !! base with
        | Some plugin_names_tmp => (plugin_names ++ plugin_names_tmp)%list
        | None => plugin_names
        end
    | _ => plugin_names
    end in
  (* add the exact match *)
  let plugin_names :=
    match udev_subsystems priv !! subsystem with
    | Some plugin_names_tmp => (plugin_names ++ plugin_names_tmp)%list
    | None => plugin_names
    end in
  if (length plugin_names =? 0)%nat then
    mret (Err (not_found_error ("no plugins registered for " +:+ subsystem)))
  else mret (Ok plugin_names).

(** ** ESP volumes *)

Variable FU_VOLUME_KIND_ESP : string.
Variable FU_VOLUME_KIND_BDP : string.
Variable FU_CONTEXT_FLAG_INHIBIT_VOLUME_MOUNT : Z.

Definition null_to_string (s : option string) : string := default "(null)" s.

(** A loop over an array whose body cannot leave the function. *)
Fixpoint for_each {A} (l : list A) (body : A -> M unit) : M unit :=
  match l with
  | [] => mret tt
  | x :: l' => body x;; for_each l' body
  end.

Definition fu_context_add_esp_volume (volume : FuVolume) : M unit :=
  priv ← GET_PRIVATE;
  (* check for dupes *)
  if existsb (fun volume_tmp =>
                g_strcmp0_null (volume_id volume_tmp) (volume_id volume) =? 0)
       (esp_volumes priv)
  then g_debug ("not adding duplicate volume " +:+ null_to_string (volume_id volume))
  else SET_PRIVATE (with_esp_volumes priv (esp_volumes priv ++ [volume])%list).

Definition fu_context_set_esp_location (location : string) : M unit :=
  priv ← GET_PRIVATE;
  SET_PRIVATE (with_esp_location priv (Some location)).

Definition fu_context_get_esp_location : M (option string) :=
  priv ← GET_PRIVATE;
  mret (esp_location priv).

(** The result is the cached array itself, not a copy. *)
Definition fu_context_get_esp_volumes (w : World) : M (result (list FuVolume)) :=
  priv ← GET_PRIVATE;
  (* cached result *)
  if (0 <? length (esp_volumes priv))%nat then mret (Ok (esp_volumes priv))
  else
    (* for the test suite use local directory for ESP *)
    emit (EvGetenv "FWUPD_UEFI_ESP_PATH");;
    match getenv_FWUPD_UEFI_ESP_PATH w with
    | Some path_tmp =>
        let vol := fu_volume_new_from_mount_path w path_tmp in
        let vol := fu_volume_set_partition_kind vol FU_VOLUME_KIND_ESP in
        let vol := fu_volume_set_partition_uuid vol "00000000-0000-0000-0000-000000000000" in
        fu_context_add_esp_volume vol;;
        priv ← GET_PRIVATE;
        mret (Ok (esp_volumes priv))
    | None =>
        (* ESP *)
        emit (EvVolumeNewByKind FU_VOLUME_KIND_ESP);;
        match fu_volume_new_by_kind w FU_VOLUME_KIND_ESP with
        | Err error_esp => g_debug (error_message error_esp)
        | Ok volumes_esp =>
            for_each volumes_esp (fun vol =>
              if negb (g_strcmp0 (volume_id_type vol) "vfat" =? 0) then mret tt
              else fu_context_add_esp_volume vol)
        end;;
        (* BDP *)
        emit (EvVolumeNewByKind FU_VOLUME_KIND_BDP);;
        match fu_volume_new_by_kind w FU_VOLUME_KIND_BDP with
        | Err error_bdp => g_debug (error_message error_bdp)
        | Ok volumes_bdp =>
            for_each volumes_bdp (fun vol =>
              if negb (g_strcmp0 (volume_id_type vol) "vfat" =? 0) then mret tt
              else if negb (volume_is_internal vol) then mret tt
              else fu_context_add_esp_volume vol)
        end;;
        priv ← GET_PRIVATE;
        (* nothing found *)
        if (length (esp_volumes priv) =? 0)%nat then
          (* check if udisks2 is working *)
          emit EvGetBlockDevices;;
          match fu_common_get_block_devices w with
          | Err e => mret (Err e)
          | Ok _ => mret (Err (not_found_error "No ESP or BDP found"))
          end
        else mret (Ok (esp_volumes priv))
    end.

Definition g_file_test_is_dir (esp : FuVolume) (name : string) : bool :=
  bool_decide (name ∈ volume_dirs esp).

Definition fu_context_is_esp (esp : FuVolume) : bool :=
  match volume_mount_point esp with
  | None => false
  | Some _ => g_file_test_is_dir esp "EFI" || g_file_test_is_dir esp "efi"
  end.

Definition esp_linux_prefixes : list string :=
  ["grub"; "shim"; "systemd-boot"; "zfsbootmenu"].

(** The test on one file of [fu_context_is_esp_linux]. *)
Definition is_linux_loader (fn : string) : bool :=
  let basename := g_path_get_basename fn in
  let basename_lower := g_utf8_strdown basename in
  existsb (fun prefix =>
             g_str_has_prefix basename_lower prefix
             && g_str_has_suffix basename_lower ".efi")
    esp_linux_prefixes.

Definition fu_context_is_esp_linux (esp : FuVolume) : M (result unit) :=
  match volume_mount_point esp with
  | None => mret (Err (not_supported_error "no mountpoint for ESP"))
  | Some mount_point =>
      match volume_files esp with
      | Err e => mret (Err e)
      | Ok files =>
          match List.find is_linux_loader files with
          | Some fn =>
              g_info ("found " +:+ fn +:+ " which indicates a Linux ESP, using "
                      +:+ mount_point);;
              mret (Ok tt)
          | None =>
              mret (Err (not_found_error
                           ("did not any files with prefix "
                            +:+ "grub|shim|systemd-boot|zfsbootmenu"
                            +:+ " in " +:+ mount_point)))
          end
      end
  end.

(** The table from volume to score.  The source keys it by the address of the
    volume object; the score or the absence of one is decided by what the
    volume answers, so a table keyed by the volume itself holds the same
    entries. *)
Definition GHashTable := list (FuVolume * Z).

Definition g_hash_table_lookup (table : GHashTable) (key : FuVolume) : option Z :=
  snd <$> List.find (fun entry => bool_decide (fst entry = key)) table.

Definition g_hash_table_insert (table : GHashTable) (key : FuVolume) (value : Z)
  : GHashTable :=
  (key, value) :: List.filter (fun entry => negb (bool_decide (fst entry = key))) table.

Definition g_hash_table_size (table : GHashTable) : nat := length table.

(** A missing key is looked up as NULL, which reads as 0. *)
Definition GPOINTER_TO_UINT (p : option Z) : Z := default 0 p.

Definition fu_context_sort_esp_score_cb (esp_scores : GHashTable) (a b : FuVolume) : Z :=
  let esp1_score := GPOINTER_TO_UINT (g_hash_table_lookup esp_scores a) in
  let esp2_score := GPOINTER_TO_UINT (g_hash_table_lookup esp_scores b) in
  if esp1_score <? esp2_score then 1
  else if esp2_score <? esp1_score then -1
  else 0.

Definition fu_volume_locker (esp : FuVolume) : M (result unit) :=
  emit (EvVolumeLocker (volume_id esp));;
  mret (match volume_locker esp with
        | None => Ok tt
        | Some e => Err e
        end).

(** One round of the scoring loop of [fu_context_get_default_esp]: the table
    after the volume has been looked at. *)
Definition esp_score_volume (user_esp_location : option string) (esp_scores : GHashTable)
    (esp : FuVolume) : M GHashTable :=
  let score := 0 in
  (* ignore the volume completely if we cannot mount it *)
  locker ← fu_volume_locker esp;
  match locker with
  | Err error_local =>
      g_warning ("failed to mount ESP: " +:+ error_message error_local);;
      mret esp_scores
  | Ok _ =>
      (* if user specified, make sure that it matches *)
      if match user_esp_location with
         | Some location =>
             negb (g_strcmp0_null (volume_mount_point esp) (Some location) =? 0)
         | None => false
         end
      then
        g_debug ("skipping " +:+ null_to_string (volume_mount_point esp)
                 +:+ " as it's not the user specified ESP");;
        mret esp_scores
      else if negb (fu_context_is_esp esp) then
        g_debug ("not an ESP: " +:+ null_to_string (volume_id esp));;
        mret esp_scores
      else
        (* big partitions are better than small partitions *)
        let score := to_guint (score + volume_size esp / (1024 * 1024)) in
        (* prefer partitions with the ESP flag set over msftdata *)
        let score :=
          if g_strcmp0 (volume_partition_kind esp) FU_VOLUME_KIND_ESP =? 0
          then to_guint (score + 0x20000) else score in
        (* prefer linux ESP *)
        linux ← fu_context_is_esp_linux esp;
        match linux with
        | Err error_local =>
            g_debug ("not a Linux ESP: " +:+ error_message error_local);;
            mret (g_hash_table_insert esp_scores esp score)
        | Ok _ =>
            let score := to_guint (score + 0x10000) in
            mret (g_hash_table_insert esp_scores esp score)
        end
  end.

Fixpoint esp_score_volumes (user_esp_location : option string) (esp_volumes : list FuVolume)
    (esp_scores : GHashTable) : M GHashTable :=
  match esp_volumes with
  | [] => mret esp_scores
  | esp :: rest =>
      esp_scores ← esp_score_volume user_esp_location esp_scores esp;
      esp_score_volumes user_esp_location rest esp_scores
  end.

Definition fu_context_get_default_esp (w : World) : M (result FuVolume) :=
  user_esp_location ← fu_context_get_esp_location;
  (* show which volumes we're choosing from *)
  found ← fu_context_get_esp_volumes w;
  match found with
  | Err e => mret (Err e)
  | Ok esp_volumes =>
      priv ← GET_PRIVATE;
      (* no mounting *)
      if negb (Z.land (flags priv) FU_CONTEXT_FLAG_INHIBIT_VOLUME_MOUNT =? 0) then
        mret (Err (not_supported_error "cannot mount volume by policy"))
      else
        (* we found more than one: lets look for the best one *)
        best ←
          (if (1 <? length esp_volumes)%nat then
             esp_scores ← esp_score_volumes user_esp_location esp_volumes [];
             if (g_hash_table_size esp_scores =? 0)%nat then
               mret (Err (not_supported_error "no EFI system partition found"))
             else
               (* the array that is sorted in place is the cached one *)
               let sorted :=
                 g_ptr_array_sort (fu_context_sort_esp_score_cb esp_scores) esp_volumes in
               priv ← GET_PRIVATE;
               SET_PRIVATE (with_esp_volumes priv sorted);;
               g_debug
                 (fold_left
                    (fun str esp =>
                       str +:+ " - "
                       +:+ pretty (GPOINTER_TO_UINT (g_hash_table_lookup esp_scores esp))
                       +:+ ": " +:+ null_to_string (volume_id esp))
                    sorted "more than one ESP possible:");;
               mret (Ok sorted)
           else mret (Ok esp_volumes));
        match best with
        | Err e => mret (Err e)
        | Ok esp_volumes =>
            checked ←
              (match esp_volumes with
               | [esp] =>
                   (* ensure it can be mounted *)
                   locker ← fu_volume_locker esp;
                   match locker with
                   | Err e => mret (Err e)
                   | Ok _ =>
                       (* if user specified, does it match mountpoints ? *)
                       match user_esp_location with
                       | Some location =>
                           if negb (g_strcmp0_null (volume_mount_point esp)
                                      (Some location) =? 0)
                           then mret (Err (not_supported_error
                                             ("user specified ESP " +:+ location
                                              +:+ " not found")))
                           else mret (Ok tt)
                       | None => mret (Ok tt)
                       end
                   end
               | _ => mret (Ok tt)
               end);
            match checked with
            | Err e => mret (Err e)
            | Ok _ =>
                (* "success": the first element; the array is never empty here *)
                match esp_volumes with
                | esp :: _ => mret (Ok esp)
                | [] => mret (Err (not_found_error "No ESP or BDP found"))
                end
            end
        end
  end.

(** ** Loading the hardware information and the quirks *)

(** A HWID setup function works on the context and its HWID store and may
    fail. *)
Definition FuContextHwidsSetupFunc : Type :=
  FuContextPrivate -> FuContextPrivate * option GError.

Variable fu_config_load : FuConfig -> FuConfig * option GError.
Variables fu_hwids_config_setup fu_hwids_smbios_setup fu_hwids_fdt_setup
  fu_hwids_kenv_setup fu_hwids_dmi_setup fu_hwids_darwin_setup : FuContextHwidsSetupFunc.
Variables FU_CONTEXT_HWID_FLAG_LOAD_CONFIG FU_CONTEXT_HWID_FLAG_LOAD_SMBIOS
  FU_CONTEXT_HWID_FLAG_LOAD_FDT FU_CONTEXT_HWID_FLAG_LOAD_KENV
  FU_CONTEXT_HWID_FLAG_LOAD_DMI FU_CONTEXT_HWID_FLAG_LOAD_DARWIN : Z.
Variable fu_hwids_setup : FuHwids -> FuHwids * option GError.
Variable fu_quirks_lookup_by_id_iter :
  FuQuirks -> string -> option string -> list (string * option string * Z) * bool.
Variable fu_quirks_load : FuQuirks -> Z -> FuQuirks * option GError.
Variable FU_QUIRKS_FLAGS : string.
Variables FU_CONTEXT_FLAG_FDE_BITLOCKER FU_CONTEXT_FLAG_FDE_SNAPD : Z.
Variable fu_bios_settings_setup : FuBiosSettings -> FuBiosSettings * option GError.

Definition fu_context_lookup_quirk_by_id_iter (guid : string) (key : option string)
    (iter_cb : string -> option string -> Z -> M unit) : M bool :=
  priv ← GET_PRIVATE;
  let '(entries, found) := fu_quirks_lookup_by_id_iter (quirks priv) guid key in
  for_each entries (fun '(key, value, source) => iter_cb key value source);;
  mret found.

Definition fu_context_reload_bios_settings : M (result unit) :=
  priv ← GET_PRIVATE;
  let '(settings, error) := fu_bios_settings_setup (host_bios_settings priv) in
  SET_PRIVATE (with_host_bios_settings priv settings);;
  mret (match error with Some e => Err e | None => Ok tt end).

Definition is_Some_eq (value : option string) (expected : string) : bool :=
  match value with
  | Some v => g_strcmp0 v expected =? 0
  | None => false
  end.

Definition fu_context_detect_full_disk_encryption (w : World) : M unit :=
  emit EvGetBlockDevices;;
  match fu_common_get_block_devices w with
  | Err error_local =>
      g_info ("Failed to get block devices: " +:+ error_message error_local)
  | Ok devices =>
      for_each devices (fun proxy =>
        let id_type := block_id_type proxy in
        let device := block_device proxy in
        let id_label := block_id_label proxy in
        (if bool_decide (id_type <> None) && bool_decide (device <> None)
            && is_Some_eq id_type "BitLocker"
         then
           priv ← GET_PRIVATE;
           SET_PRIVATE (with_flags priv (Z.lor (flags priv) FU_CONTEXT_FLAG_FDE_BITLOCKER))
         else mret tt);;
        (if bool_decide (id_type <> None) && bool_decide (id_label <> None)
            && is_Some_eq id_label "ubuntu-data-enc"
            && is_Some_eq id_type "crypto_LUKS"
         then
           priv ← GET_PRIVATE;
           SET_PRIVATE (with_flags priv (Z.lor (flags priv) FU_CONTEXT_FLAG_FDE_SNAPD))
         else mret tt))
  end.

Definition fu_context_hwid_quirk_cb (key : string) (value : option string) (source : Z)
  : M unit :=
  match value with
  | Some value =>
      for_each (g_strsplit value ","%char) (fun flag =>
        priv ← GET_PRIVATE;
        SET_PRIVATE (with_hwid_flags priv ({[flag]} ∪ hwid_flags priv)))
  | None => mret tt
  end.

Definition hwids_setup_map : list (string * Z * FuContextHwidsSetupFunc) :=
  [("config", FU_CONTEXT_HWID_FLAG_LOAD_CONFIG, fu_hwids_config_setup);
   ("smbios", FU_CONTEXT_HWID_FLAG_LOAD_SMBIOS, fu_hwids_smbios_setup);
   ("fdt", FU_CONTEXT_HWID_FLAG_LOAD_FDT, fu_hwids_fdt_setup);
   ("kenv", FU_CONTEXT_HWID_FLAG_LOAD_KENV, fu_hwids_kenv_setup);
   ("dmi", FU_CONTEXT_HWID_FLAG_LOAD_DMI, fu_hwids_dmi_setup);
   ("darwin", FU_CONTEXT_HWID_FLAG_LOAD_DARWIN, fu_hwids_darwin_setup)].

(** One round of the loop over [hwids_setup_map]. *)
Definition run_hwids_setup_func (flags : Z) (entry : string * Z * FuContextHwidsSetupFunc)
  : M unit :=
  let '(name, flag, func) := entry in
  if 0 <? Z.land flags flag then
    emit (EvHwidsSetupFunc name);;
    priv ← GET_PRIVATE;
    let '(priv, error_local) := func priv in
    SET_PRIVATE priv;;
    match error_local with
    | Some error_local =>
        g_info ("failed to load " +:+ name +:+ ": " +:+ error_message error_local)
    | None => mret tt
    end
  else mret tt.

(** The calls on the [FuProgress] argument act on that object only and are
    left out. *)
Definition fu_context_load_hwinfo (w : World) (flags : Z) : M (result unit) :=
  priv ← GET_PRIVATE;
  (* required always *)
  let '(config, error) := fu_config_load (config priv) in
  SET_PRIVATE (with_config priv config);;
  match error with
  | Some e => mret (Err e)
  | None =>
      (* run all the HWID setup funcs *)
      for_each hwids_setup_map (run_hwids_setup_func flags);;
      fu_context_add_flag FU_CONTEXT_FLAG_LOADED_HWINFO;;
      priv ← GET_PRIVATE;
      let '(hwids, error_hwids) := fu_hwids_setup (hwids priv) in
      SET_PRIVATE (with_hwids priv hwids);;
      match error_hwids with
      | Some error_hwids => g_warning ("Failed to load HWIDs: " +:+ error_message error_hwids)
      | None => mret tt
      end;;
      (* set the hwid flags; the array is not NULL as the flag has been added *)
      guids ← fu_context_get_hwid_guids;
      for_each (default [] guids) (fun guid =>
        fu_context_lookup_quirk_by_id_iter guid (Some FU_QUIRKS_FLAGS)
          fu_context_hwid_quirk_cb;;
        mret tt);;
      fu_context_detect_full_disk_encryption w;;
      fu_context_add_udev_subsystem "firmware-attributes" None;;
      reloaded ← fu_context_reload_bios_settings;
      match reloaded with
      | Err error_bios_settings => g_debug (error_message error_bios_settings)
      | Ok _ => mret tt
      end;;
      (* always *)
      mret (Ok tt)
  end.

Definition fu_context_load_quirks (flags : Z) : M (result unit) :=
  priv ← GET_PRIVATE;
  (* rebuild silo if required *)
  emit EvQuirksLoad;;
  let '(quirks, error_local) := fu_quirks_load (quirks priv) flags in
  SET_PRIVATE (with_quirks priv quirks);;
  match error_local with
  | Some error_local => g_warning ("Failed to load quirks: " +:+ error_message error_local)
  | None => mret tt
  end;;
  (* always *)
  mret (Ok tt).

(** ** Boot assets on the ESP *)

Variable FuEfiHardDriveDevicePath : Type.
Variable fu_efi_hard_drive_device_path_new_from_volume :
  FuVolume -> result FuEfiHardDriveDevicePath.
Variable fu_efi_hard_drive_device_path_compare :
  FuEfiHardDriveDevicePath -> FuEfiHardDriveDevicePath -> bool.

Record FuEfiFilePathDevicePath := {
  fu_efi_file_path_device_path_get_name : result string;
}.

Record FuEfiDevicePathList := {
  device_path_list_hard_drive : option FuEfiHardDriveDevicePath;
  device_path_list_file_path : option FuEfiFilePathDevicePath;
}.

Record FuEfiLoadOption := {
  load_option_id : option string;
  load_option_idx : Z;
  load_option_device_path_list : option FuEfiDevicePathList;
  load_option_metadata_path : option string;
}.

Record FuPefileFirmware := { pefile_filename : string; pefile_idx : Z }.

Variable fu_efivars_get_boot_entries : FuEfivars -> result (list FuEfiLoadOption).
Variable g_build_filename : option string -> string -> string.
(* [g_string_replace (string, find, replace, 1)] *)
Variable g_string_replace : string -> string -> string -> string.
Variables FU_CONTEXT_ESP_FILE_FLAG_INCLUDE_FIRST_STAGE
  FU_CONTEXT_ESP_FILE_FLAG_INCLUDE_SECOND_STAGE
  FU_CONTEXT_ESP_FILE_FLAG_INCLUDE_REVOCATIONS : Z.

(** The architecture the library is compiled for. *)
Inductive Arch := X86_64 | AARCH64 | LOONGARCH_LP64 | RISCV64 | I386 | ARM | ARCH_OTHER.
Variable arch : Arch.

(** The loop of [fu_context_get_esp_volume_by_hard_drive_device_path] over
    the volumes. *)
Fixpoint esp_volume_matching (dp : FuEfiHardDriveDevicePath) (volumes : list FuVolume)
  : M (result FuVolume) :=
  match volumes with
  | [] => mret (Err (not_found_error "could not find EFI DP"))
  | volume :: rest =>
      match fu_efi_hard_drive_device_path_new_from_volume volume with
      | Err error_local =>
          g_debug (error_message error_local);;
          esp_volume_matching dp rest
      | Ok dp_tmp =>
          if negb (fu_efi_hard_drive_device_path_compare dp dp_tmp)
          then esp_volume_matching dp rest
          else mret (Ok volume)
      end
  end.

Definition fu_context_get_esp_volume_by_hard_drive_device_path (w : World)
    (dp : FuEfiHardDriveDevicePath) : M (result FuVolume) :=
  found ← fu_context_get_esp_volumes w;
  match found with
  | Err e => mret (Err e)
  | Ok volumes => esp_volume_matching dp volumes
  end.

Definition fu_context_esp_load_pe_file (w : World) (filename : string)
  : result FuPefileFirmware :=
  let firmware := {| pefile_filename := filename; pefile_idx := 0 |} in
  match fu_firmware_parse_file w filename with
  | Some e => Err (g_prefix_error ("failed to load " +:+ filename +:+ ": ") e)
  | None => Ok firmware
  end.

Definition fu_context_build_uefi_basename_for_arch (app_name : string) : option string :=
  match arch with
  | X86_64 => Some (app_name +:+ "x64.efi")
  | AARCH64 => Some (app_name +:+ "aa64.efi")
  | LOONGARCH_LP64 => Some (app_name +:+ "loongarch64.efi")
  | RISCV64 => Some (app_name +:+ "riscv64.efi")
  | I386 => Some (app_name +:+ "ia32.efi")
  | ARM => Some (app_name +:+ "arm.efi")
  | ARCH_OTHER => None
  end.

(** The block that [fu_context_get_esp_files_for_entry] repeats for each of
    the three files: load the file as a PE image and add it; a file that is
    not supported or not valid is passed over, any other failure is the
    failure of the entry. *)
Definition esp_add_pe_file (w : World) (entry : FuEfiLoadOption) (filename : string)
    (files : list FuPefileFirmware) : M (result (list FuPefileFirmware)) :=
  match fu_context_esp_load_pe_file w filename with
  | Err error_local =>
      if g_error_matches error_local FWUPD_ERROR_NOT_SUPPORTED
         || g_error_matches error_local FWUPD_ERROR_INVALID_FILE
      then g_debug ("ignoring: " +:+ error_message error_local);; mret (Ok files)
      else mret (Err error_local)
  | Ok firmware =>
      let firmware := {| pefile_filename := pefile_filename firmware;
                         pefile_idx := load_option_idx entry |} in
      mret (Ok (files ++ [firmware])%list)
  end.

(** [g_str_has_suffix] refuses a NULL suffix. *)
Definition has_suffix_null (str : string) (suffix : option string) : bool :=
  match suffix with
  | Some suffix => g_str_has_suffix str suffix
  | None => false
  end.

(** The array [files] is passed in and handed back with what the entry has
    added, also when the entry fails. *)
Definition fu_context_get_esp_files_for_entry (w : World) (entry : FuEfiLoadOption)
    (files : list FuPefileFirmware) (flags_ : Z)
  : M (list FuPefileFirmware * result unit) :=
  let shim_name := fu_context_build_uefi_basename_for_arch "shim" in
  (* all entries should have a list *)
  match load_option_device_path_list entry with
  | None => mret (files, Ok tt)
  | Some dp_list =>
  (* HDD *)
  match device_path_list_hard_drive dp_list with
  | None => mret (files, Ok tt)
  | Some dp_hdd =>
  (* FILE *)
  match device_path_list_file_path dp_list with
  | None => mret (files, Ok tt)
  | Some dp_path =>
  (* can we match the volume? *)
  found ← fu_context_get_esp_volume_by_hard_drive_device_path w dp_hdd;
  match found with
  | Err e => mret (files, Err e)
  | Ok volume =>
  priv ← GET_PRIVATE;
  if negb (Z.land (flags priv) FU_CONTEXT_FLAG_INHIBIT_VOLUME_MOUNT =? 0) then
    mret (files, Err (not_supported_error "cannot mount volume by policy"))
  else
  volume_locker ← fu_volume_locker volume;
  match volume_locker with
  | Err e => mret (files, Err e)
  | Ok _ =>
  match fu_efi_file_path_device_path_get_name dp_path with
  | Err e => mret (files, Err e)
  | Ok dp_filename =>
  (* the file itself *)
  let mount_point := volume_mount_point volume in
  let filename := g_build_filename mount_point dp_filename in
  g_debug ("check for 1st stage bootloader: " +:+ filename);;
  first ←
    (if negb (Z.land flags_ FU_CONTEXT_ESP_FILE_FLAG_INCLUDE_FIRST_STAGE =? 0)
     then esp_add_pe_file w entry filename files
     else mret (Ok files));
  match first with
  | Err e => mret (files, Err e)
  | Ok files =>
  (* the 2nd stage bootloader, typically grub *)
  second ←
    (if negb (Z.land flags_ FU_CONTEXT_ESP_FILE_FLAG_INCLUDE_SECOND_STAGE =? 0)
        && has_suffix_null filename shim_name
     then
       let filename2 :=
         match load_option_metadata_path entry with
         | Some path => g_string_replace filename (null_to_string shim_name) path
         | None =>
             g_string_replace filename (null_to_string shim_name)
               (null_to_string (fu_context_build_uefi_basename_for_arch "grub"))
         end in
       g_debug ("check for 2nd stage bootloader: " +:+ filename2);;
       esp_add_pe_file w entry filename2 files
     else mret (Ok files));
  match second with
  | Err e => mret (files, Err e)
  | Ok files =>
  (* revocations, typically for SBAT *)
  third ←
    (if negb (Z.land flags_ FU_CONTEXT_ESP_FILE_FLAG_INCLUDE_REVOCATIONS =? 0)
        && has_suffix_null filename shim_name
     then
       let filename2 :=
         g_string_replace filename (null_to_string shim_name) "revocations.efi" in
       g_debug ("check for revocation: " +:+ filename2);;
       esp_add_pe_file w entry filename2 files
     else mret (Ok files));
  match third with
  | Err e => mret (files, Err e)
  | Ok files => mret (files, Ok tt)
  end end end end end end end end end.

(** The loop of [fu_context_get_esp_files] over the boot entries. *)
Fixpoint esp_files_for_entries (w : World) (entries : list FuEfiLoadOption)
    (files : list FuPefileFirmware) (flags_ : Z) : M (result (list FuPefileFirmware)) :=
  match entries with
  | [] => mret (Ok files)
  | entry :: rest =>
      '(files, done) ← fu_context_get_esp_files_for_entry w entry files flags_;
      match done with
      | Err error_local =>
          if g_error_matches error_local FWUPD_ERROR_NOT_FOUND
             || g_error_matches error_local FWUPD_ERROR_INVALID_FILE
          then
            g_debug ("ignoring " +:+ null_to_string (load_option_id entry) +:+ ": "
                     +:+ error_message error_local);;
            esp_files_for_entries w rest files flags_
          else mret (Err error_local)
      | Ok _ => esp_files_for_entries w rest files flags_
      end
  end.

Definition fu_context_get_esp_files (w : World) (flags_ : Z)
  : M (result (list FuPefileFirmware)) :=
  priv ← GET_PRIVATE;
  match fu_efivars_get_boot_entries (efivars priv) with
  | Err e => mret (Err e)
  | Ok entries => esp_files_for_entries w entries [] flags_
  end.

(** ** The remaining fields of the structure *)

Definition with_backends (p : FuContextPrivate) (v : list FuBackend) :=
  {| flags := flags p; hwids := hwids p; config := config p;
     smbios := smbios p; chassis_kind := chassis_kind p; quirks := quirks p;
     efivars := efivars p; backends := v;
     runtime_versions := runtime_versions p;
     compile_versions := compile_versions p;
     udev_subsystems := udev_subsystems p; esp_volumes := esp_volumes p;
     firmware_gtypes := firmware_gtypes p; hwid_flags := hwid_flags p;
     power_state := power_state p; lid_state := lid_state p;
     display_state := display_state p; battery_level := battery_level p;
     battery_threshold := battery_threshold p;
     host_bios_settings := host_bios_settings p; fdt := fdt p;
     esp_location := esp_location p |}.

Definition with_runtime_versions (p : FuContextPrivate) (v : gmap string string) :=
  {| flags := flags p; hwids := hwids p; config := config p;
     smbios := smbios p; chassis_kind := chassis_kind p; quirks := quirks p;
     efivars := efivars p; backends := backends p; runtime_versions := v;
     compile_versions := compile_versions p;
     udev_subsystems := udev_subsystems p; esp_volumes := esp_volumes p;
     firmware_gtypes := firmware_gtypes p; hwid_flags := hwid_flags p;
     power_state := power_state p; lid_state := lid_state p;
     display_state := display_state p; battery_level := battery_level p;
     battery_threshold := battery_threshold p;
     host_bios_settings := host_bios_settings p; fdt := fdt p;
     esp_location := esp_location p |}.

Definition with_compile_versions (p : FuContextPrivate) (v : gmap string string) :=
  {| flags := flags p; hwids := hwids p; config := config p;
     smbios := smbios p; chassis_kind := chassis_kind p; quirks := quirks p;
     efivars := efivars p; backends := backends p;
     runtime_versions := runtime_versions p; compile_versions := v;
     udev_subsystems := udev_subsystems p; esp_volumes := esp_volumes p;
     firmware_gtypes := firmware_gtypes p; hwid_flags := hwid_flags p;
     power_state := power_state p; lid_state := lid_state p;
     display_state := display_state p; battery_level := battery_level p;
     battery_threshold := battery_threshold p;
     host_bios_settings := host_bios_settings p; fdt := fdt p;
     esp_location := esp_location p |}.

Definition with_firmware_gtypes (p : FuContextPrivate) (v : gmap string Z) :=
  {| flags := flags p; hwids := hwids p; config := config p;
     smbios := smbios p; chassis_kind := chassis_kind p; quirks := quirks p;
     efivars := efivars p; backends := backends p;
     runtime_versions := runtime_versions p;
     compile_versions := compile_versions p;
     udev_subsystems := udev_subsystems p; esp_volumes := esp_volumes p;
     firmware_gtypes := v; hwid_flags := hwid_flags p;
     power_state := power_state p; lid_state := lid_state p;
     display_state := display_state p; battery_level := battery_level p;
     battery_threshold := battery_threshold p;
     host_bios_settings := host_bios_settings p; fdt := fdt p;
     esp_location := esp_location p |}.

Definition with_power_state (p : FuContextPrivate) (v : Z) :=
  {| flags := flags p; hwids := hwids p; config := config p;
     smbios := smbios p; chassis_kind := chassis_kind p; quirks := quirks p;
     efivars := efivars p; backends := backends p;
     runtime_versions := runtime_versions p;
     compile_versions := compile_versions p;
     udev_subsystems := udev_subsystems p; esp_volumes := esp_volumes p;
     firmware_gtypes := firmware_gtypes p; hwid_flags := hwid_flags p;
     power_state := v; lid_state := lid_state p;
     display_state := display_state p; battery_level := battery_level p;
     battery_threshold := battery_threshold p;
     host_bios_settings := host_bios_settings p; fdt := fdt p;
     esp_location := esp_location p |}.

Definition with_lid_state (p : FuContextPrivate) (v : Z) :=
  {| flags := flags p; hwids := hwids p; config := config p;
     smbios := smbios p; chassis_kind := chassis_kind p; quirks := quirks p;
     efivars := efivars p; backends := backends p;
     runtime_versions := runtime_versions p;
     compile_versions := compile_versions p;
     udev_subsystems := udev_subsystems p; esp_volumes := esp_volumes p;
     firmware_gtypes := firmware_gtypes p; hwid_flags := hwid_flags p;
     power_state := power_state p; lid_state := v;
     display_state := display_state p; battery_level := battery_level p;
     battery_threshold := battery_threshold p;
     host_bios_settings := host_bios_settings p; fdt := fdt p;
     esp_location := esp_location p |}.

Definition with_display_state (p : FuContextPrivate) (v : Z) :=
  {| flags := flags p; hwids := hwids p; config := config p;
     smbios := smbios p; chassis_kind := chassis_kind p; quirks := quirks p;
     efivars := efivars p; backends := backends p;
     runtime_versions := runtime_versions p;
     compile_versions := compile_versions p;
     udev_subsystems := udev_subsystems p; esp_volumes := esp_volumes p;
     firmware_gtypes := firmware_gtypes p; hwid_flags := hwid_flags p;
     power_state := power_state p; lid_state := lid_state p;
     display_state := v; battery_level := battery_level p;
     battery_threshold := battery_threshold p;
     host_bios_settings := host_bios_settings p; fdt := fdt p;
     esp_location := esp_location p |}.

Definition with_fdt (p : FuContextPrivate) (v : option FuFirmware) :=
  {| flags := flags p; hwids := hwids p; config := config p;
     smbios := smbios p; chassis_kind := chassis_kind p; quirks := quirks p;
     efivars := efivars p; backends := backends p;
     runtime_versions := runtime_versions p;
     compile_versions := compile_versions p;
     udev_subsystems := udev_subsystems p; esp_volumes := esp_volumes p;
     firmware_gtypes := firmware_gtypes p; hwid_flags := hwid_flags p;
     power_state := power_state p; lid_state := lid_state p;
     display_state := display_state p; battery_level := battery_level p;
     battery_threshold := battery_threshold p;
     host_bios_settings := host_bios_settings p; fdt := v;
     esp_location := esp_location p |}.

(** ** Power, lid and display state; the chassis kind

    The three states are enumerations held as unsigned integers; their names
    are given by functions outside this file, which answer NULL for a value
    they do not know. *)

Variables fu_power_state_to_string fu_lid_state_to_string
  fu_display_state_to_string : Z -> option string.

Definition fu_context_get_power_state : M Z :=
  priv ← GET_PRIVATE;
  mret (power_state priv).

Definition fu_context_set_power_state (state : Z) : M unit :=
  priv ← GET_PRIVATE;
  if power_state priv =? state then mret tt
  else
    SET_PRIVATE (with_power_state priv state);;
    g_info ("power state now " +:+ null_to_string (fu_power_state_to_string state));;
    g_object_notify "power-state".

Definition fu_context_get_lid_state : M Z :=
  priv ← GET_PRIVATE;
  mret (lid_state priv).

Definition fu_context_set_lid_state (state : Z) : M unit :=
  priv ← GET_PRIVATE;
  if lid_state priv =? state then mret tt
  else
    SET_PRIVATE (with_lid_state priv state);;
    g_info ("lid state now " +:+ null_to_string (fu_lid_state_to_string state));;
    g_object_notify "lid-state".

Definition fu_context_get_display_state : M Z :=
  priv ← GET_PRIVATE;
  mret (display_state priv).

Definition fu_context_set_display_state (state : Z) : M unit :=
  priv ← GET_PRIVATE;
  if display_state priv =? state then mret tt
  else
    SET_PRIVATE (with_display_state priv state);;
    g_info ("display-state now "
            +:+ null_to_string (fu_display_state_to_string state));;
    g_object_notify "display-state".

Definition fu_context_get_chassis_kind : M Z :=
  priv ← GET_PRIVATE;
  mret (chassis_kind priv).

Definition fu_context_set_chassis_kind (kind : Z) : M unit :=
  priv ← GET_PRIVATE;
  SET_PRIVATE (with_chassis_kind priv kind).

(** ** Versions of the dependencies

    The two tables are made by [fu_context_init] and freed by the finalizer
    only, so the test for a NULL table never succeeds on a live context. *)

Definition fu_context_add_runtime_version (component_id version : string) : M unit :=
  priv ← GET_PRIVATE;
  SET_PRIVATE
    (with_runtime_versions priv (<[component_id := version]> (runtime_versions priv))).

Definition fu_context_get_runtime_version (component_id : string) : M (option string) :=
  priv ← GET_PRIVATE;
  mret (runtime_versions priv !! component_id).

Definition fu_context_get_runtime_versions : M (gmap string string) :=
  priv ← GET_PRIVATE;
  mret (runtime_versions priv).

Definition fu_context_add_compile_version (component_id version : string) : M unit :=
  priv ← GET_PRIVATE;
  SET_PRIVATE
    (with_compile_versions priv (<[component_id := version]> (compile_versions priv))).

Definition fu_context_get_compile_versions : M (gmap string string) :=
  priv ← GET_PRIVATE;
  mret (compile_versions priv).

(** ** The subsystems that are watched

    [g_hash_table_get_keys] gives the keys in an order that GLib leaves
    open; the order of the association list stands for it, and nothing below
    depends on which one it is. *)

Definition g_hash_table_get_keys {V} (table : gmap string V) : list string :=
  (map_to_list table).*1.

Definition g_hash_table_get_values {V} (table : gmap string V) : list V :=
  (map_to_list table).*2.

Definition fu_context_get_udev_subsystems : M (list string) :=
  priv ← GET_PRIVATE;
  let keys := g_hash_table_get_keys (udev_subsystems priv) in
  let subsystems : list string := [] in
  mret (fold_left (fun subsystems subsystem => (subsystems ++ [subsystem])%list)
          keys subsystems).

(** ** Firmware types

    A [GType] is a number, [G_TYPE_INVALID] is 0, which is also what a NULL
    pointer reads as.  The id may be NULL here, as the documentation of
    [fu_context_add_firmware_gtype] calls it optional while the function
    checks for it. *)

Definition G_TYPE_INVALID : Z := 0.

Definition GPOINTER_TO_SIZE (p : option Z) : Z := default 0 p.

Definition fu_context_add_firmware_gtype (id : option string) (gtype : Z) : M unit :=
  priv ← GET_PRIVATE;
  match id with
  | None => g_return_if_fail_warning "id != NULL"
  | Some id =>
      if gtype =? G_TYPE_INVALID then
        g_return_if_fail_warning "gtype != G_TYPE_INVALID"
      else
        SET_PRIVATE (with_firmware_gtypes priv (<[id := gtype]> (firmware_gtypes priv)))
  end.

Definition fu_context_get_firmware_gtype_by_id (id : string) : M Z :=
  priv ← GET_PRIVATE;
  mret (GPOINTER_TO_SIZE (firmware_gtypes priv !! id)).

Definition fu_context_gtypes_sort_cb (a b : string) : Z := g_strcmp0 a b.

Definition fu_context_get_firmware_gtype_ids : M (list string) :=
  priv ← GET_PRIVATE;
  let keys := g_hash_table_get_keys (firmware_gtypes priv) in
  let firmware_gtypes : list string :=
    fold_left (fun ids id => (ids ++ [id])%list) keys [] in
  mret (g_ptr_array_sort fu_context_gtypes_sort_cb firmware_gtypes).

Definition fu_context_get_firmware_gtypes : M (list Z) :=
  priv ← GET_PRIVATE;
  let values := g_hash_table_get_values (firmware_gtypes priv) in
  mret (fold_left (fun gtypes gtype => (gtypes ++ [GPOINTER_TO_SIZE (Some gtype)])%list)
          values []).

(** ** HWID flags *)

Definition fu_context_has_hwid_flag (flag : string) : M bool :=
  priv ← GET_PRIVATE;
  mret (bool_decide (flag ∈ hwid_flags priv)).

(** ** Signals *)

Definition g_signal_emit (name : string) : M unit := emit (EvSignal name).

Definition fu_context_security_changed : M unit := g_signal_emit "security-changed".

Definition fu_context_housekeeping : M unit := g_signal_emit "housekeeping".

(** ** Backends *)

Variable fu_backend_get_name : FuBackend -> option string.

Definition fu_context_get_backends : M (list FuBackend) :=
  priv ← GET_PRIVATE;
  mret (backends priv).

Definition fu_context_add_backend (backend : FuBackend) : M unit :=
  priv ← GET_PRIVATE;
  SET_PRIVATE (with_backends priv (backends priv ++ [backend])%list).

Definition fu_context_get_backend_by_name (name : string) : M (result FuBackend) :=
  priv ← GET_PRIVATE;
  match List.find (fun backend =>
                     g_strcmp0_null (fu_backend_get_name backend) (Some name) =? 0)
          (backends priv) with
  | Some backend => mret (Ok backend)
  | None => mret (Err (not_found_error ("no backend with name " +:+ name)))
  end.

Definition fu_context_has_backend (name : string) : M bool :=
  priv ← GET_PRIVATE;
  mret (existsb (fun backend =>
                   g_strcmp0_null (fu_backend_get_name backend) (Some name) =? 0)
          (backends priv)).

(** ** The flat device tree *)

Variable fu_path_from_kind : Z -> option string.
Variables FU_PATH_KIND_LOCALSTATEDIR_PKG FU_PATH_KIND_SYSFSDIR_FW : Z.

(** What the file system answers while the device tree is looked for: which
    paths exist, and what parsing a file as a device tree gives. *)
Record FdtFiles := {
  g_file_test_exists : string -> bool;
  fu_fdt_firmware_parse_file : string -> result FuFirmware;
}.

Definition fu_context_get_fdt_file (fs : FdtFiles) : result string :=
  let localstatedir_pkg := fu_path_from_kind FU_PATH_KIND_LOCALSTATEDIR_PKG in
  (* look for override first, fall back to system value *)
  let fdtfn_local := g_build_filename localstatedir_pkg "system.dtb" in
  if g_file_test_exists fs fdtfn_local then Ok fdtfn_local
  else
    (* actual hardware value *)
    let sysfsdir := fu_path_from_kind FU_PATH_KIND_SYSFSDIR_FW in
    let fdtfn_sys := g_build_filename sysfsdir "fdt" in
    if g_file_test_exists fs fdtfn_sys then Ok fdtfn_sys
    else
      Err (not_supported_error
             ("cannot find " +:+ fdtfn_sys +:+ " or override " +:+ fdtfn_local)).

Definition fu_context_get_fdt (fs : FdtFiles) : M (result FuFirmware) :=
  priv ← GET_PRIVATE;
  (* load if not already parsed *)
  match fdt priv with
  | Some fdt => mret (Ok fdt)
  | None =>
      match fu_context_get_fdt_file fs with
      | Err e => mret (Err e)
      | Ok file =>
          match fu_fdt_firmware_parse_file fs file with
          | Err e => mret (Err (g_prefix_error "failed to parse FDT: " e))
          | Ok fdt_tmp =>
              SET_PRIVATE (with_fdt priv (Some fdt_tmp));;
              mret (Ok fdt_tmp)
          end
      end
  end.

(** ** Free space of the EFI variable store *)

Definition G_MAXUINT64 : Z := 2 ^ 64 - 1.

Variable FU_CONTEXT_FLAG_IGNORE_EFIVARS_FREE_SPACE : Z.
Variable FWUPD_ERROR_BROKEN_SYSTEM : FwupdError.
(* the bytes that are free, [G_MAXUINT64] and the error when they are unknown *)
Variable fu_efivars_space_free : FuEfivars -> Z * option GError.
Variable g_format_size : Z -> string.

Definition fu_context_get_efivars : M FuEfivars :=
  priv ← GET_PRIVATE;
  mret (efivars priv).

(** The result and what is left in [error]. *)
Definition fu_context_efivars_check_free_space (count : Z) : M (bool * option GError) :=
  priv ← GET_PRIVATE;
  (* escape hatch *)
  ignored ← fu_context_has_flag FU_CONTEXT_FLAG_IGNORE_EFIVARS_FREE_SPACE;
  if ignored : bool then mret (true, None)
  else
    let '(total, error) := fu_efivars_space_free (efivars priv) in
    if total =? G_MAXUINT64 then mret (false, error)
    else if total <? count then
      let countstr := g_format_size count in
      let totalstr := g_format_size total in
      mret (false,
            Some {| error_code := FWUPD_ERROR FWUPD_ERROR_BROKEN_SYSTEM;
                    error_message := "Not enough efivarfs space, requested "
                                     +:+ countstr +:+ " and got " +:+ totalstr |})
    else mret (true, error).

(** ** A new context

    The structure is zero-filled when the object is made; [fu_context_init]
    then sets the fields below.  The helper objects are made by constructors
    outside this file. *)

Variable FU_SMBIOS_CHASSIS_KIND_UNKNOWN : Z.
Variable fu_smbios_new : FuSmbios.
Variable fu_hwids_new : FuHwids.
Variable fu_config_new : FuConfig.
Variables fu_efivars_new fu_dummy_efivars_new : FuEfivars.
Variable fu_quirks_new : FuQuirks.
Variable fu_bios_settings_new : FuBiosSettings.

Definition fu_context_init (getenv_FWUPD_EFIVARS : option string) : FuContextPrivate :=
  {| flags := 0;
     hwids := fu_hwids_new;
     config := fu_config_new;
     smbios := fu_smbios_new;
     chassis_kind := FU_SMBIOS_CHASSIS_KIND_UNKNOWN;
     quirks := fu_quirks_new;
     efivars := if g_strcmp0_null getenv_FWUPD_EFIVARS (Some "dummy") =? 0
                then fu_dummy_efivars_new else fu_efivars_new;
     backends := [];
     runtime_versions := ∅;
     compile_versions := ∅;
     udev_subsystems := ∅;
     esp_volumes := [];
     firmware_gtypes := ∅;
     hwid_flags := ∅;
     power_state := 0;
     lid_state := 0;
     display_state := 0;
     battery_level := FWUPD_BATTERY_LEVEL_INVALID;
     battery_threshold := FWUPD_BATTERY_LEVEL_INVALID;
     host_bios_settings := fu_bios_settings_new;
     fdt := None;
     esp_location := None |}.

Definition fu_context_new (getenv_FWUPD_EFIVARS : option string) : State :=
  {| st_priv := fu_context_init getenv_FWUPD_EFIVARS; st_trace := [] |}.

(** * What the properties speak of *)

(** The events that a call has added to the trace. *)
Definition events_since (s s' : State) (events : list Event) : Prop :=
  st_trace s' = (st_trace s ++ events)%list.

(** A property notification of GObject. *)
Definition is_notification (e : Event) : bool :=
  match e with EvNotify _ => true | _ => false end.

(** The names of one subsystem are in [strcmp] order, each once. *)
Definition plugin_names_sorted (l : list string) : Prop :=
  Sorted (sorted_before fu_context_udev_plugin_names_sort_cb) l /\ NoDup l.

(** Every list of the registry is. *)
Definition udev_subsystems_sorted (m : gmap string (list string)) : Prop :=
  forall subsystem l, m !! subsystem = Some l -> plugin_names_sorted l.

(** The names that a read of [subsystem] puts together: those of the base
    subsystem, then those of the exact match. *)
Definition registered_plugin_names (m : gmap string (list string)) (subsystem : string)
  : list string :=
  (match g_strsplit_2 subsystem ":" with
   | base :: _ :: _ => default [] (m !! base)
   | _ => []
   end ++ default [] (m !! subsystem))%list.

(** The list that a write leaves for a subsystem whose stored list was
    [stored]: a name that is not yet in the list is appended and the list is
    sorted again; a name that is there, or no name, leaves the list as it
    was; a subsystem that was not watched starts with the name alone. *)
Definition written_plugin_names (stored : option (list string))
    (plugin_name : option string) : list string :=
  match stored, plugin_name with
  | Some plugin_names, Some name =>
      if bool_decide (name ∈ plugin_names) then plugin_names
      else g_ptr_array_sort fu_context_udev_plugin_names_sort_cb
             (plugin_names ++ [name])%list
  | Some plugin_names, None => plugin_names
  | None, Some name => [name]
  | None, None => []
  end.

(** The state with one more event, the context untouched. *)
Definition log_event (s : State) (e : Event) : State :=
  {| st_priv := st_priv s; st_trace := (st_trace s ++ [e])%list |}.

(** The two critical messages of the accessors and the error they set. *)
Definition hwids_misuse : Event :=
  EvLog LOG_CRITICAL "cannot use HWIDs before calling ->load_hwinfo()".

Definition smbios_misuse : Event :=
  EvLog LOG_CRITICAL "cannot use SMBIOS before calling ->load_hwinfo()".

Definition no_data : GError :=
  {| error_code := FWUPD_ERROR FWUPD_ERROR_INTERNAL; error_message := "no data" |}.







(** A mount. *)
Definition is_volume_locker (e : Event) : bool :=
  match e with EvVolumeLocker _ => true | _ => false end.

(** A step that mounts nothing and leaves the flags as they are. *)
Definition mount_free (s s' : State) : Prop :=
  flags (st_priv s') = flags (st_priv s) /\
  exists events, events_since s s' events /\ existsb is_volume_locker events = false.

(** The error of the policy, and the flag of the policy being set. *)
Definition cannot_mount_by_policy : GError :=
  not_supported_error "cannot mount volume by policy".

Definition inhibited (s : State) : Prop :=
  Z.land (flags (st_priv s)) FU_CONTEXT_FLAG_INHIBIT_VOLUME_MOUNT <> 0.

(** The two failures of a boot entry that [fu_context_get_esp_files] passes
    over, and the message it leaves then. *)
Definition entry_failure_ignored (e : GError) : bool :=
  g_error_matches e FWUPD_ERROR_NOT_FOUND || g_error_matches e FWUPD_ERROR_INVALID_FILE.

Definition ignoring_entry (entry : FuEfiLoadOption) (e : GError) : Event :=
  EvLog LOG_DEBUG ("ignoring " +:+ null_to_string (load_option_id entry) +:+ ": "
                   +:+ error_message e).

(** The files that an entry has added to [files]: they come after those
    that were there, and each carries the index of the entry. *)
Definition files_added (entry : FuEfiLoadOption) (files files' : list FuPefileFirmware)
  : Prop :=
  exists added,
    files' = (files ++ added)%list /\
    Forall (fun firmware => pefile_idx firmware = load_option_idx entry) added.

(** The candidate gets a score: it mounts, it is the volume the user asked
    for if one was asked for, and it has an [EFI] or [efi] directory. *)
Definition survives (user_esp_location : option string) (esp : FuVolume) : bool :=
  bool_decide (volume_locker esp = None)
  && match user_esp_location with
     | Some location => g_strcmp0_null (volume_mount_point esp) (Some location) =? 0
     | None => true
     end
  && fu_context_is_esp esp.

(** Some file of the volume has a name that, in lower case, starts with one
    of the four loader names and ends with [.efi]. *)
Definition has_linux_loader (esp : FuVolume) : bool :=
  match volume_files esp with
  | Ok files => existsb is_linux_loader files
  | Err _ => false
  end.

(** The same in the words of the specification: the name of some listed
    file starts, case put aside, with [grub], [shim], [systemd-boot] or
    [zfsbootmenu] and ends with [.efi]. *)
Definition looks_like_linux_esp (esp : FuVolume) : Prop :=
  exists files fn prefix,
    volume_files esp = Ok files /\ In fn files /\
    In prefix ["grub"; "shim"; "systemd-boot"; "zfsbootmenu"] /\
    g_str_has_prefix (g_utf8_strdown (g_path_get_basename fn)) prefix = true /\
    g_str_has_suffix (g_utf8_strdown (g_path_get_basename fn)) ".efi" = true.

(** The score as the loop computes it, in [guint] arithmetic. *)
Definition esp_score (esp : FuVolume) : Z :=
  let score := to_guint (0 + volume_size esp / (1024 * 1024)) in
  let score :=
    if g_strcmp0 (volume_partition_kind esp) FU_VOLUME_KIND_ESP =? 0
    then to_guint (score + 0x20000) else score in
  if has_linux_loader esp then to_guint (score + 0x10000) else score.

(** The score in the words of the specification: the size in MiB, plus
    0x20000 for the ESP partition kind, plus 0x10000 for a Linux loader. *)
Definition claimed_score (esp : FuVolume) : Z :=
  volume_size esp / 2 ^ 20
  + (if bool_decide (volume_partition_kind esp = FU_VOLUME_KIND_ESP) then 0x20000 else 0)
  + (if has_linux_loader esp then 0x10000 else 0).

(** The score that the sort reads from the table. *)
Definition table_score (table : GHashTable) (esp : FuVolume) : Z :=
  GPOINTER_TO_UINT (g_hash_table_lookup table esp).

(** The two percentages are in their range: at most the value that stands
    for an unknown level. *)
Definition battery_in_range (p : FuContextPrivate) : Prop :=
  battery_level p <= FWUPD_BATTERY_LEVEL_INVALID /\
  battery_threshold p <= FWUPD_BATTERY_LEVEL_INVALID.

(** The backend has the given name. *)
Definition backend_named (name : string) (backend : FuBackend) : bool :=
  g_strcmp0_null (fu_backend_get_name backend) (Some name) =? 0.

(** The block device is a BitLocker volume, or the encrypted data partition
    of Ubuntu Core, as [fu_context_detect_full_disk_encryption] tells. *)
Definition is_bitlocker (proxy : BlockDevice) : bool :=
  bool_decide (block_id_type proxy <> None) && bool_decide (block_device proxy <> None)
  && is_Some_eq (block_id_type proxy) "BitLocker".

Definition is_snapd_fde (proxy : BlockDevice) : bool :=
  bool_decide (block_id_type proxy <> None)
  && bool_decide (block_id_label proxy <> None)
  && is_Some_eq (block_id_label proxy) "ubuntu-data-enc"
  && is_Some_eq (block_id_type proxy) "crypto_LUKS".

(** The flags that the block devices stand for. *)
Definition fde_flags (devices : list BlockDevice) : Z :=
  Z.lor (if existsb is_bitlocker devices then FU_CONTEXT_FLAG_FDE_BITLOCKER else 0)
        (if existsb is_snapd_fde devices then FU_CONTEXT_FLAG_FDE_SNAPD else 0).

(** No two volumes of the array have the same id. *)
Definition volume_ids_distinct (volumes : list FuVolume) : Prop :=
  NoDup (volume_id <$> volumes).

(** A step that only adds volumes at the end of the cached array, each of
    them with the property [P], and keeps the ids apart. *)
Definition cache_grows (P : FuVolume -> Prop) (s s' : State) : Prop :=
  (volume_ids_distinct (esp_volumes (st_priv s)) ->
   volume_ids_distinct (esp_volumes (st_priv s'))) /\
  exists added,
    esp_volumes (st_priv s') = (esp_volumes (st_priv s) ++ added)%list /\
    Forall P added.

(** What the discovery may put into the cache.  With the override of the
    test suite it is the volume of that path, made an ESP with the zero
    UUID; otherwise it is a [vfat] volume that UDisks gave for the ESP kind,
    or an internal one that it gave for the BDP kind. *)
Definition discovered (w : World) (volume : FuVolume) : Prop :=
  match getenv_FWUPD_UEFI_ESP_PATH w with
  | Some path_tmp =>
      volume
      = fu_volume_set_partition_uuid
          (fu_volume_set_partition_kind (fu_volume_new_from_mount_path w path_tmp)
             FU_VOLUME_KIND_ESP)
          "00000000-0000-0000-0000-000000000000"
  | None =>
      volume_id_type volume = "vfat" /\
      ((exists volumes_esp,
          fu_volume_new_by_kind w FU_VOLUME_KIND_ESP = Ok volumes_esp /\
          In volume volumes_esp) \/
       (exists volumes_bdp,
          fu_volume_new_by_kind w FU_VOLUME_KIND_BDP = Ok volumes_bdp /\
          In volume volumes_bdp /\ volume_is_internal volume = true))
  end.

(** The hard-drive device path of the volume can be built and compares
    equal to [dp]. *)
Definition matches_device_path (dp : FuEfiHardDriveDevicePath) (volume : FuVolume)
  : bool :=
  match fu_efi_hard_drive_device_path_new_from_volume volume with
  | Ok dp_tmp => fu_efi_hard_drive_device_path_compare dp dp_tmp
  | Err _ => false
  end.

(** * Properties *)

(** ** Running a computation *)

Ltac run :=
  unfold mbind, M_bind, bind, mret, M_ret, ret, GET_PRIVATE, SET_PRIVATE,
    g_return_if_fail_warning, g_critical, g_warning, g_info, g_debug,
    g_object_notify, emit;
  simpl.

Lemma with_battery_level_same p : with_battery_level p (battery_level p) = p.
Proof. destruct p; reflexivity. Qed.

Lemma with_battery_threshold_same p :
  with_battery_threshold p (battery_threshold p) = p.
Proof. destruct p; reflexivity. Qed.

Lemma state_eta s : {| st_priv := st_priv s; st_trace := st_trace s |} = s.
Proof. destruct s; reflexivity. Qed.

Lemma bind_run {A B} (m : M A) (k : A -> M B) s :
  (m ≫= k) s = k (fst (m s)) (snd (m s)).
Proof. run. by destruct (m s). Qed.

(** ** The stable sort *)

Section SortFacts.
Context {A : Type} (compare_func : A -> A -> Z).

Lemma sort_insert_perm x l : Permutation (sort_insert compare_func x l) (x :: l).
Proof.
  induction l as [|y l IH]; simpl; [reflexivity|].
  destruct (compare_func x y <=? 0); [reflexivity|].
  rewrite IH. apply perm_swap.
Qed.

Lemma g_ptr_array_sort_perm l : Permutation (g_ptr_array_sort compare_func l) l.
Proof.
  induction l as [|x l IH]; simpl; [reflexivity|].
  rewrite sort_insert_perm. by constructor.
Qed.

Lemma g_ptr_array_sort_nil l : g_ptr_array_sort compare_func l = [] -> l = [].
Proof.
  intros H. apply Permutation_nil. rewrite <- H.
  apply g_ptr_array_sort_perm.
Qed.

Hypothesis compare_swap : forall x y, 0 < compare_func x y -> compare_func y x < 0.
Hypothesis compare_trans :
  forall x y z, compare_func x y <= 0 -> compare_func y z <= 0 -> compare_func x z <= 0.

Lemma compare_refl x : compare_func x x <= 0.
Proof using compare_swap.
  destruct (Z_lt_le_dec 0 (compare_func x x)) as [H|H]; [|exact H].
  pose proof (compare_swap _ _ H). lia.
Qed.

Lemma sort_insert_sorted x l :
  Sorted (sorted_before compare_func) l ->
Sorted (sorted_before compare_func) (sort_insert compare_func x l).
Proof using compare_swap.
  induction l as [|y l IH]; simpl; intros Hs.
  - repeat constructor.
  - destruct (Z.leb_spec (compare_func x y) 0) as [Hle|Hgt].
    + constructor; [exact Hs|]. constructor. exact Hle.
    + apply Sorted_inv in Hs as [Hs Hhd].
      constructor; [by apply IH|].
      destruct l as [|z l]; simpl.
      * constructor. unfold sorted_before. pose proof (compare_swap _ _ Hgt). lia.
      * destruct (compare_func x z <=? 0); constructor.
        -- unfold sorted_before. pose proof (compare_swap _ _ Hgt). lia.
        -- by apply HdRel_inv in Hhd.
Qed.

Lemma g_ptr_array_sort_sorted l :
  Sorted (sorted_before compare_func) (g_ptr_array_sort compare_func l).
Proof using compare_swap.
  induction l as [|x l IH]; simpl; [constructor|]. by apply sort_insert_sorted.
Qed.

(** Stability, as far as the first element goes: the head of the sorted
    array is the first of the best elements of the array. *)
Lemma g_ptr_array_sort_head l h t :
  g_ptr_array_sort compare_func l = h :: t -> first_best compare_func l h.
Proof using compare_trans compare_swap.
  revert h t. induction l as [|x l IH]; simpl; intros h t Hsort; [discriminate|].
  destruct (g_ptr_array_sort compare_func l) as [|h' t'] eqn:Hl.
  - apply g_ptr_array_sort_nil in Hl. subst l. simpl in Hsort.
    injection Hsort as <- <-. exists [], []. repeat split; intros u [].
  - specialize (IH _ _ eq_refl) as (l1 & l2 & -> & Hbefore & Hafter).
    simpl in Hsort.
    destruct (Z.leb_spec (compare_func x h') 0) as [Hle|Hgt].
    + injection Hsort as <- <-. exists [], (l1 ++ h' :: l2)%list.
      repeat split; [intros u []|].
      intros u Hu. apply in_app_or in Hu as [Hu|[<-|Hu]].
      * apply compare_trans with h'; [exact Hle|]. specialize (Hbefore _ Hu). lia.
      * exact Hle.
      * apply compare_trans with h'; [exact Hle|]. by apply Hafter.
    + injection Hsort as <- <-. exists (x :: l1), l2.
      repeat split; [|exact Hafter].
      intros u [<-|Hu]; [by apply compare_swap|by apply Hbefore].
Qed.
End SortFacts.

(** ** Battery level and threshold *)

(** C8: the two battery setters reject a value above
    [FWUPD_BATTERY_LEVEL_INVALID] and leave the context as it is; a value
    equal to the stored one changes nothing and notifies nobody; and whatever
    the value, the context after the call differs from the one before in the
    targeted battery field at most. *)
Theorem battery_setters_reject_idempotent_frame (s : State) (v : Z) :
  let s_level := snd (fu_context_set_battery_level v s) in
  let s_threshold := snd (fu_context_set_battery_threshold v s) in
  (FWUPD_BATTERY_LEVEL_INVALID < v ->
     st_priv s_level = st_priv s /\ st_priv s_threshold = st_priv s /\
     (exists ev, events_since s s_level [ev] /\ is_notification ev = false) /\
     (exists ev, events_since s s_threshold [ev] /\ is_notification ev = false)) /\
  (v = battery_level (st_priv s) ->
     st_priv s_level = st_priv s /\
     exists events, events_since s s_level events /\
                    forallb (fun ev => negb (is_notification ev)) events = true) /\
  (v = battery_threshold (st_priv s) ->
     st_priv s_threshold = st_priv s /\
     exists events, events_since s s_threshold events /\
                    forallb (fun ev => negb (is_notification ev)) events = true) /\
  (v <= FWUPD_BATTERY_LEVEL_INVALID -> v = battery_level (st_priv s) -> s_level = s) /\
  (v <= FWUPD_BATTERY_LEVEL_INVALID -> v = battery_threshold (st_priv s) ->
     s_threshold = s) /\
  st_priv s_level = with_battery_level (st_priv s) (battery_level (st_priv s_level)) /\
  st_priv s_threshold
  = with_battery_threshold (st_priv s) (battery_threshold (st_priv s_threshold)).
Proof.
  unfold fu_context_set_battery_level, fu_context_set_battery_threshold, events_since.
  run.
  destruct (Z.leb_spec v FWUPD_BATTERY_LEVEL_INVALID) as [Hle|Hgt]; simpl.
  - destruct (Z.eqb_spec (battery_level (st_priv s)) v) as [Hl|Hl];
      destruct (Z.eqb_spec (battery_threshold (st_priv s)) v) as [Ht|Ht]; simpl;
      repeat split; intros; subst; try lia; try congruence;
      rewrite ?with_battery_level_same, ?with_battery_threshold_same;
      try (destruct s; reflexivity);
      try (exists []; rewrite app_nil_r; split; reflexivity).
  - repeat split; intros; try lia;
      rewrite ?with_battery_level_same, ?with_battery_threshold_same;
      try reflexivity;
      try (eexists; split; reflexivity);
      try (eexists; split; [reflexivity|reflexivity]).
Qed.

(** ** udev subsystems *)

Lemma g_strcmp0_eq a b : g_strcmp0 a b = 0 <-> a = b.
Proof.
  pose proof (String_as_OT.cmp_eq a b) as Heq.
  unfold g_strcmp0, String_as_OT.cmp in *.
  destruct (String.compare a b); split; intros H; try lia; try reflexivity.
  - by apply Heq.
  - apply (proj2 Heq) in H. discriminate.
  - apply (proj2 Heq) in H. discriminate.
Qed.

Lemma g_strcmp0_swap a b : 0 < g_strcmp0 a b -> g_strcmp0 b a < 0.
Proof.
  unfold g_strcmp0. rewrite (String.compare_antisym a b).
  destruct (String.compare b a); simpl; lia.
Qed.

Lemma g_strcmp0_lt a b : g_strcmp0 a b < 0 <-> String_as_OT.lt a b.
Proof.
  rewrite <- String_as_OT.cmp_lt. unfold g_strcmp0, String_as_OT.cmp.
  destruct (String.compare a b); split; intros H;
    first [reflexivity | lia | discriminate].
Qed.

Lemma g_strcmp0_le a b :
  g_strcmp0 a b <= 0 <-> a = b \/ String_as_OT.lt a b.
Proof.
  rewrite <- g_strcmp0_eq, <- g_strcmp0_lt. lia.
Qed.

Lemma g_strcmp0_trans a b c :
  g_strcmp0 a b <= 0 -> g_strcmp0 b c <= 0 -> g_strcmp0 a c <= 0.
Proof.
  rewrite !g_strcmp0_le. intros [->|Hab] [->|Hbc]; auto.
  right. eapply String_as_OT.lt_trans; eauto.
Qed.

Lemma add_udev_subsystem_unfold subsystem plugin_name :
  fu_context_add_udev_subsystem subsystem plugin_name =
  match g_strsplit_2 subsystem ":" with
  | base :: _ :: _ =>
      fu_context_add_udev_subsystem base None;;
      add_udev_subsystem_exact subsystem plugin_name
  | _ => add_udev_subsystem_exact subsystem plugin_name
  end.
Proof.
  funelim (fu_context_add_udev_subsystem subsystem plugin_name);
    match goal with E : g_strsplit_2 _ _ = _ |- _ => rewrite E end; reflexivity.
Qed.

Lemma existsb_strcmp_false name l :
  existsb (fun tmp => g_strcmp0 tmp name =? 0) l = false -> name ∉ l.
Proof.
  intros Hex Hin. apply list_elem_of_In in Hin.
  assert (existsb (fun tmp => g_strcmp0 tmp name =? 0) l = true) as Htrue.
  { apply existsb_exists. exists name. split; [exact Hin|].
    apply Z.eqb_eq. by apply g_strcmp0_eq. }
  congruence.
Qed.

Lemma add_udev_subsystem_exact_sorted subsystem plugin_name s :
  udev_subsystems_sorted (udev_subsystems (st_priv s)) ->
  udev_subsystems_sorted
    (udev_subsystems (st_priv (snd (add_udev_subsystem_exact subsystem plugin_name s)))).
Proof.
  intros Hwf. unfold add_udev_subsystem_exact. run.
  destruct (udev_subsystems (st_priv s) !! subsystem) as [names|] eqn:Hlook.
  - destruct plugin_name as [name|]; simpl; [|exact Hwf].
    destruct (existsb _ names) eqn:Hex; simpl; [exact Hwf|].
    intros k l. destruct (decide (subsystem = k)) as [<-|Hne].
    + rewrite lookup_insert_eq. intros [= <-]. split.
      * apply g_ptr_array_sort_sorted, g_strcmp0_swap.
      * rewrite g_ptr_array_sort_perm. apply NoDup_app. split_and!.
        -- by apply (Hwf subsystem).
        -- intros x Hx Hx'. apply list_elem_of_singleton in Hx' as ->.
           by apply existsb_strcmp_false in Hex.
        -- apply NoDup_singleton.
    + rewrite lookup_insert_ne by done. apply Hwf.
  - assert (forall l, plugin_names_sorted
                        match l with Some name => [name] | None => [] end) as Hnew.
    { intros [name|]; split; repeat constructor. set_solver. }
    destruct plugin_name as [name|]; simpl; intros k l;
      (destruct (decide (subsystem = k)) as [<-|Hne];
       [rewrite lookup_insert_eq; intros [= <-]
       |rewrite lookup_insert_ne by done; apply Hwf]).
    + apply (Hnew (Some name)).
    + apply (Hnew None).
Qed.

Lemma split_first_before delimiter s before after :
  split_first delimiter s = Some (before, after) ->
  split_first delimiter before = None.
Proof.
  revert before after. induction s as [|c s IH]; simpl; intros before after.
  - discriminate.
  - destruct (Ascii.eqb c delimiter) eqn:Hc.
    + intros [= <- <-]. reflexivity.
    + destruct (split_first delimiter s) as [[b a]|]; [|discriminate].
      intros [= <- <-]. simpl. rewrite Hc. by rewrite (IH b a).
Qed.

(** The base of [subsystem:devtype] has no devtype of its own: the
    recursion of [fu_context_add_udev_subsystem] is one call deep. *)
Lemma add_udev_subsystem_base subsystem base devtype rest plugin_name :
  g_strsplit_2 subsystem ":" = base :: devtype :: rest ->
  fu_context_add_udev_subsystem base plugin_name
  = add_udev_subsystem_exact base plugin_name.
Proof.
  intros Hsplit. rewrite add_udev_subsystem_unfold.
  unfold g_strsplit_2 in *. destruct subsystem as [|c subsystem]; [discriminate|].
  destruct (split_first ":" (String c subsystem)) as [[b a]|] eqn:E; [|discriminate].
  injection Hsplit as <- _ _. apply split_first_before in E.
  destruct b; [reflexivity|]. by rewrite E.
Qed.

Lemma add_udev_subsystem_sorted subsystem plugin_name s :
  udev_subsystems_sorted (udev_subsystems (st_priv s)) ->
  udev_subsystems_sorted
    (udev_subsystems (st_priv (snd (fu_context_add_udev_subsystem subsystem plugin_name s)))).
Proof.
  intros Hwf. rewrite add_udev_subsystem_unfold.
  destruct (g_strsplit_2 subsystem ":") as [|base [|devtype rest]] eqn:Hsplit;
    try by apply add_udev_subsystem_exact_sorted.
  rewrite (add_udev_subsystem_base _ _ _ _ _ Hsplit). run.
  pose proof (add_udev_subsystem_exact_sorted base None s Hwf) as Hbase.
  destruct (add_udev_subsystem_exact base None s) as [[] s1].
  by apply add_udev_subsystem_exact_sorted.
Qed.

Lemma add_udev_subsystem_exact_registers subsystem name s :
  exists l,
    udev_subsystems (st_priv (snd (add_udev_subsystem_exact subsystem (Some name) s)))
    !! subsystem = Some l /\ name ∈ l.
Proof.
  unfold add_udev_subsystem_exact. run.
  destruct (udev_subsystems (st_priv s) !! subsystem) as [names|] eqn:Hlook; simpl.
  - destruct (existsb _ names) eqn:Hex; simpl.
    + exists names. split; [exact Hlook|].
      apply existsb_exists in Hex as (x & Hin & Hx).
      apply Z.eqb_eq, g_strcmp0_eq in Hx as ->. by apply list_elem_of_In.
    + eexists. rewrite lookup_insert_eq. split; [reflexivity|].
      rewrite g_ptr_array_sort_perm. apply elem_of_app. right. by left.
  - eexists. rewrite lookup_insert_eq. split; [reflexivity|]. by left.
Qed.

Lemma existsb_strcmp_elem_of name (l : list string) :
  existsb (fun tmp => g_strcmp0 tmp name =? 0) l = bool_decide (name ∈ l).
Proof.
  destruct (existsb _ l) eqn:Hex; symmetry.
  - apply bool_decide_eq_true. apply existsb_exists in Hex as (x & Hin & Hx).
    apply Z.eqb_eq, g_strcmp0_eq in Hx as ->. by apply list_elem_of_In.
  - apply bool_decide_eq_false. by apply existsb_strcmp_false.
Qed.

Lemma add_udev_subsystem_exact_written subsystem plugin_name s :
  udev_subsystems (st_priv (snd (add_udev_subsystem_exact subsystem plugin_name s)))
  = <[subsystem := written_plugin_names (udev_subsystems (st_priv s) !! subsystem)
                     plugin_name]> (udev_subsystems (st_priv s)).
Proof.
  unfold add_udev_subsystem_exact, written_plugin_names. run.
  destruct (udev_subsystems (st_priv s) !! subsystem) as [names|] eqn:Hlook; simpl.
  - destruct plugin_name as [name|]; simpl.
    + rewrite existsb_strcmp_elem_of.
      destruct (bool_decide (name ∈ names)); simpl; [|reflexivity].
      symmetry. by apply insert_id.
    + symmetry. by apply insert_id.
  - destruct plugin_name as [name|]; reflexivity.
Qed.

Lemma g_strsplit_2_base_differs subsystem base devtype rest :
  g_strsplit_2 subsystem ":" = base :: devtype :: rest -> base <> subsystem.
Proof.
  unfold g_strsplit_2. intros Hsplit ->.
  destruct subsystem as [|c subsystem]; [discriminate|].
  destruct (split_first ":" (String c subsystem)) as [[before after]|] eqn:E;
    [|discriminate].
  injection Hsplit as Hbefore _ _. subst before.
  apply split_first_before in E as Hnone. rewrite E in Hnone. discriminate.
Qed.

(** The registry after a write: the list of the subsystem is the written
    one, the list of its base subsystem, if it has one, is there, and
    nothing else has changed. *)
Lemma add_udev_subsystem_written subsystem plugin_name s :
  let m := udev_subsystems (st_priv s) in
  let m' := udev_subsystems
              (st_priv (snd (fu_context_add_udev_subsystem subsystem plugin_name s))) in
  m' !! subsystem = Some (written_plugin_names (m !! subsystem) plugin_name) /\
  (forall other l, other <> subsystem -> m !! other = Some l -> m' !! other = Some l) /\
  (forall other, other <> subsystem ->
     (forall devtype rest, g_strsplit_2 subsystem ":" <> other :: devtype :: rest) ->
     m' !! other = m !! other).
Proof.
  cbv zeta. rewrite add_udev_subsystem_unfold.
  destruct (g_strsplit_2 subsystem ":") as [|base [|devtype rest]] eqn:Hsplit;
    try (rewrite add_udev_subsystem_exact_written; split_and!;
         [by rewrite lookup_insert_eq
         |intros other l Hne Hl; by rewrite lookup_insert_ne
         |intros other Hne _; by rewrite lookup_insert_ne]).
  rewrite bind_run, add_udev_subsystem_exact_written.
  rewrite (add_udev_subsystem_base _ _ _ _ None Hsplit).
  rewrite add_udev_subsystem_exact_written.
  pose proof (g_strsplit_2_base_differs _ _ _ _ Hsplit) as Hbase.
  split_and!.
  - rewrite lookup_insert_eq. by rewrite lookup_insert_ne.
  - intros other l Hne Hl. rewrite lookup_insert_ne by done.
    destruct (decide (other = base)) as [->|Hother].
    + rewrite lookup_insert_eq, Hl. reflexivity.
    + by rewrite lookup_insert_ne.
  - intros other Hne Hnot. rewrite lookup_insert_ne by done.
    rewrite lookup_insert_ne; [reflexivity|].
    intros <-. by apply (Hnot devtype rest).
Qed.

(** C9, as the code has it: the lists are sorted when they are written, not
    when they are read.  [fu_context_add_udev_subsystem] keeps every list of
    the registry in [strcmp] order and free of duplicates, and the name it is
    given is in the list of the subsystem afterwards;
    [fu_context_get_plugin_names_for_udev_subsystem] changes nothing and
    gives the names of the base subsystem followed by those of the exact
    match, as stored, so that for a subsystem without a devtype the names
    come out sorted.  The list that the write leaves for the subsystem is
    the written one: for a name that is not yet in the stored list it is the
    stored list with the name appended, sorted again, which holds the names
    that were stored and the new one and no other; the lists of all other
    subsystems stay as they were, and apart from the base subsystem of
    [subsystem:devtype] no subsystem is added. *)
Theorem udev_plugin_names_sorted_on_write
    (s : State) (subsystem : string) (plugin_name : option string) :
  let s' := snd (fu_context_add_udev_subsystem subsystem plugin_name s) in
  let m := udev_subsystems (st_priv s) in
  (udev_subsystems_sorted m -> udev_subsystems_sorted (udev_subsystems (st_priv s'))) /\
  (forall name, plugin_name = Some name ->
     exists l, udev_subsystems (st_priv s') !! subsystem = Some l /\ name ∈ l) /\
  fu_context_get_plugin_names_for_udev_subsystem subsystem s
  = (match registered_plugin_names m subsystem with
     | [] => Err (not_found_error ("no plugins registered for " +:+ subsystem))
     | names => Ok names
     end, s) /\
  (udev_subsystems_sorted m ->
   (length (g_strsplit_2 subsystem ":") <= 1)%nat ->
   forall names,
     fst (fu_context_get_plugin_names_for_udev_subsystem subsystem s) = Ok names ->
     plugin_names_sorted names) /\
  udev_subsystems (st_priv s') !! subsystem
  = Some (written_plugin_names (m !! subsystem) plugin_name) /\
  (forall name plugin_names,
     plugin_name = Some name ->
     m !! subsystem = Some plugin_names ->
     name ∉ plugin_names ->
     udev_subsystems (st_priv s') !! subsystem
     = Some (g_ptr_array_sort fu_context_udev_plugin_names_sort_cb
               (plugin_names ++ [name])%list) /\
     Permutation
       (g_ptr_array_sort fu_context_udev_plugin_names_sort_cb
          (plugin_names ++ [name])%list)
       (plugin_names ++ [name])%list) /\
  (forall other l,
     other <> subsystem -> m !! other = Some l ->
     udev_subsystems (st_priv s') !! other = Some l) /\
  (forall other,
     other <> subsystem ->
     (forall devtype rest, g_strsplit_2 subsystem ":" <> other :: devtype :: rest) ->
     udev_subsystems (st_priv s') !! other = m !! other).
Proof.
  pose proof (add_udev_subsystem_written subsystem plugin_name s)
    as (Hwritten & Hkept & Hother).
  simpl. split_and!; [| | | |exact Hwritten| |exact Hkept|exact Hother].
  5: { intros name plugin_names -> Hstored Hnew.
       rewrite Hwritten, Hstored. unfold written_plugin_names.
       rewrite bool_decide_eq_false_2 by exact Hnew.
       split; [reflexivity|apply g_ptr_array_sort_perm]. }
  - apply add_udev_subsystem_sorted.
  - intros name ->. rewrite add_udev_subsystem_unfold.
    destruct (g_strsplit_2 subsystem ":") as [|base [|devtype rest]];
      try apply add_udev_subsystem_exact_registers.
    run. destruct (fu_context_add_udev_subsystem base None s) as [[] s1].
    apply add_udev_subsystem_exact_registers.
  - unfold fu_context_get_plugin_names_for_udev_subsystem, registered_plugin_names.
    run.
    destruct (g_strsplit_2 subsystem ":") as [|base [|devtype rest]]; simpl;
      try (destruct (udev_subsystems (st_priv s) !! base) as [[|b lb]|]; simpl);
      (destruct (udev_subsystems (st_priv s) !! subsystem) as [[|x l]|]; simpl);
      rewrite ?app_nil_r; reflexivity.
  - intros Hwf Hlen names.
    unfold fu_context_get_plugin_names_for_udev_subsystem. run.
    destruct (g_strsplit_2 subsystem ":") as [|base [|devtype rest]];
      simpl in Hlen; try lia;
      destruct (udev_subsystems (st_priv s) !! subsystem) as [l|] eqn:Hl; simpl;
      try discriminate;
      (destruct l; simpl; [discriminate|]); intros [= <-]; by apply (Hwf subsystem).
Qed.

(** ** The cache of ESP volumes *)

Lemma get_esp_volumes_cached w s :
  esp_volumes (st_priv s) <> [] ->
  fu_context_get_esp_volumes w s = (Ok (esp_volumes (st_priv s)), s).
Proof.
  intros Hne. unfold fu_context_get_esp_volumes. run.
  destruct (esp_volumes (st_priv s)); [congruence|reflexivity].
Qed.

(** A successful discovery leaves what it returns in the cache, and that is
    not empty. *)
Lemma get_esp_volumes_ok w s volumes s1 :
  fu_context_get_esp_volumes w s = (Ok volumes, s1) ->
  volumes <> [] /\ esp_volumes (st_priv s1) = volumes.
Proof.
  unfold fu_context_get_esp_volumes. run.
  destruct (esp_volumes (st_priv s)) as [|v vs] eqn:Hcache; simpl.
  - destruct (getenv_FWUPD_UEFI_ESP_PATH w) as [path_tmp|].
    + unfold fu_context_add_esp_volume. run. rewrite Hcache. simpl.
      intros H; inversion H; subst; clear H; simpl.
      split; [done|reflexivity].
    + repeat match goal with
             | |- (let '(_, s') := ?m in _) = _ -> _ => destruct m as [[] ?]
             end.
      match goal with
      | |- context [length (esp_volumes (st_priv ?s2))] =>
          destruct (esp_volumes (st_priv s2)) as [|v vs] eqn:Hs2; simpl
      end.
      * destruct (fu_common_get_block_devices w); discriminate.
      * intros H; inversion H; subst; clear H.
        rewrite Hs2. split; [done|reflexivity].
  - intros H; inversion H; subst; clear H.
    rewrite Hcache. split; [done|reflexivity].
Qed.

(** C3: once the stored set of ESP volumes is not empty,
    [fu_context_get_esp_volumes] returns that set and does nothing else: no
    environment lookup, no enumeration, no event at all, whatever the
    platform would answer; and after a successful call, a second call
    returns the same collection, also when the platform has changed
    in between. *)
Theorem esp_volumes_cached_for_lifetime (w1 w2 : World) (s : State) :
  (esp_volumes (st_priv s) <> [] ->
     fu_context_get_esp_volumes w1 s = (Ok (esp_volumes (st_priv s)), s) /\
     fu_context_get_esp_volumes w2 s = (Ok (esp_volumes (st_priv s)), s)) /\
  (forall volumes s1,
     fu_context_get_esp_volumes w1 s = (Ok volumes, s1) ->
     volumes <> [] /\
     esp_volumes (st_priv s1) = volumes /\
     fu_context_get_esp_volumes w2 s1 = (Ok volumes, s1)).
Proof.
  split.
  - intros Hne. split; by apply get_esp_volumes_cached.
  - intros volumes s1 Hcall.
    apply get_esp_volumes_ok in Hcall as [Hne <-].
    split_and!; [exact Hne|reflexivity|by apply get_esp_volumes_cached].
Qed.

(** ** Loading the hardware information *)

Section LoadHwinfo.
(** The loaded flag is a flag: some bit of it is set. *)
Hypothesis loaded_hwinfo_is_flag : 0 < FU_CONTEXT_FLAG_LOADED_HWINFO.









Lemma add_flag_sets flag s :
  0 < flag -> has_flag (st_priv (snd (fu_context_add_flag flag s))) flag = true.
Proof.
  intros Hflag. unfold fu_context_add_flag, has_flag. run.
  destruct (Z.eqb_spec (Z.land (flags (st_priv s)) flag) 0) as [E|E]; simpl;
    apply Z.ltb_lt.
  - rewrite Z.land_lor_distr_l, E, Z.land_diag. simpl. exact Hflag.
  - assert (0 <= Z.land (flags (st_priv s)) flag) by (apply Z.land_nonneg; lia).
    lia.
Qed.









End LoadHwinfo.

(** ** HWID and SMBIOS accessors *)

(** C4: while the loaded flag is not set, each of the seven read accessors
    reports the misuse as a critical message and gives its sentinel (FALSE,
    NULL, [G_MAXUINT] or the error [no data]), the registries not being
    read; once the flag is set the guard is not taken: no critical message,
    and the answer is the one of the registry. *)
Theorem hwid_smbios_accessors_guard
    (s : State) (guid key keys : string) (type length offset : Z) :
  (has_flag (st_priv s) FU_CONTEXT_FLAG_LOADED_HWINFO = false ->
     fu_context_has_hwid_guid guid s = (false, log_event s hwids_misuse) /\
     fu_context_get_hwid_guids s = (None, log_event s hwids_misuse) /\
     fu_context_get_hwid_value key s = (None, log_event s hwids_misuse) /\
     fu_context_get_hwid_replace_value keys s = (Err no_data, log_event s hwids_misuse) /\
     fu_context_get_smbios_string type length offset s
     = ((None, None), log_event s smbios_misuse) /\
     fu_context_get_smbios_data type length s = (Err no_data, log_event s smbios_misuse) /\
     fu_context_get_smbios_integer type length offset s
     = ((G_MAXUINT, None), log_event s smbios_misuse)) /\
  (has_flag (st_priv s) FU_CONTEXT_FLAG_LOADED_HWINFO = true ->
     fu_context_has_hwid_guid guid s
     = (fu_hwids_has_guid (hwids (st_priv s)) guid, log_event s EvHwidsRegistry) /\
     fu_context_get_hwid_guids s
     = (Some (fu_hwids_get_guids (hwids (st_priv s))), log_event s EvHwidsRegistry) /\
     fu_context_get_hwid_value key s
     = (fu_hwids_get_value (hwids (st_priv s)) key, log_event s EvHwidsRegistry) /\
     fu_context_get_hwid_replace_value keys s
     = (fu_hwids_get_replace_values (hwids (st_priv s)) keys,
        log_event s EvHwidsRegistry) /\
     fu_context_get_smbios_string type length offset s
     = (fu_smbios_get_string (smbios (st_priv s)) type length offset,
        log_event s EvSmbiosRegistry) /\
     fu_context_get_smbios_data type length s
     = (fu_smbios_get_data (smbios (st_priv s)) type length,
        log_event s EvSmbiosRegistry) /\
     fu_context_get_smbios_integer type length offset s
     = (fu_smbios_get_integer (smbios (st_priv s)) type length offset,
        log_event s EvSmbiosRegistry)).
Proof.
  unfold fu_context_has_hwid_guid, fu_context_get_hwid_guids,
    fu_context_get_hwid_value, fu_context_get_hwid_replace_value,
    fu_context_get_smbios_string, fu_context_get_smbios_data,
    fu_context_get_smbios_integer, fu_context_has_flag, log_event.
  split; intros Hflag; run; rewrite Hflag; simpl; repeat split.
Qed.

(** ** Quirks *)

(** C6: [fu_context_load_quirks] gives success for every flags value; when
    the quirk store fails to load, the failure is written as a warning and
    goes no further; the context keeps every field but the quirk store
    itself, in whatever state the failed load left it. *)
Theorem load_quirks_always_succeeds (s : State) (load_flags : Z) :
  let '(loaded, s') := fu_context_load_quirks load_flags s in
  let '(store, failure) := fu_quirks_load (quirks (st_priv s)) load_flags in
  loaded = Ok tt /\
  st_priv s' = with_quirks (st_priv s) store /\
  events_since s s'
    (EvQuirksLoad ::
     match failure with
     | Some e => [EvLog LOG_WARNING ("Failed to load quirks: " +:+ error_message e)]
     | None => []
     end).
Proof.
  unfold fu_context_load_quirks, events_since. run.
  destruct (fu_quirks_load (quirks (st_priv s)) load_flags) as [store [e|]];
    simpl; repeat split; rewrite <- ?app_assoc; reflexivity.
Qed.

(** ** Mounting inhibited by policy *)

Lemma mount_free_refl s : mount_free s s.
Proof.
  split; [reflexivity|]. exists []. split; [|reflexivity].
  unfold events_since. by rewrite app_nil_r.
Qed.

Lemma mount_free_trans s1 s2 s3 : mount_free s1 s2 -> mount_free s2 s3 -> mount_free s1 s3.
Proof.
  intros [Hf1 (e1 & H1 & Hc1)] [Hf2 (e2 & H2 & Hc2)]. split; [congruence|].
  exists (e1 ++ e2)%list. unfold events_since in *.
  rewrite H2, H1, <- app_assoc, existsb_app, Hc1, Hc2. done.
Qed.

Lemma mount_free_emit e s : is_volume_locker e = false -> mount_free s (snd (emit e s)).
Proof.
  intros He. split; [reflexivity|]. exists [e]. split; [reflexivity|].
  simpl. by rewrite He.
Qed.

Lemma mount_free_set_private p s :
  flags p = flags (st_priv s) -> mount_free s (snd (SET_PRIVATE p s)).
Proof.
  intros Hp. split; [exact Hp|]. exists []. split; [|reflexivity].
  unfold events_since. simpl. by rewrite app_nil_r.
Qed.

Lemma mount_free_bind_run {A B} (m : M A) (k : A -> M B) s :
  mount_free s (snd (m s)) ->
  mount_free (snd (m s)) (snd (k (fst (m s)) (snd (m s)))) ->
  mount_free s (snd ((m ≫= k) s)).
Proof.
  intros Hm Hk. run. destruct (m s) as [a s'] eqn:E. simpl in *.
  eapply mount_free_trans; [exact Hm|apply Hk].
Qed.

Lemma mount_free_bind {A B} (m : M A) (k : A -> M B) s :
  mount_free s (snd (m s)) ->
  (forall a s', mount_free s' (snd (k a s'))) ->
  mount_free s (snd ((m ≫= k) s)).
Proof. intros Hm Hk. apply mount_free_bind_run; [exact Hm|apply Hk]. Qed.

Lemma mount_free_for_each {A} (l : list A) (body : A -> M unit) s :
  (forall x s', mount_free s' (snd (body x s'))) ->
  mount_free s (snd (for_each l body s)).
Proof.
  intros Hbody. revert s. induction l as [|x l IH]; intros s; simpl.
  - apply mount_free_refl.
  - apply mount_free_bind; [apply Hbody|]. intros _ s'. apply IH.
Qed.

Lemma mount_free_add_esp_volume volume s :
  mount_free s (snd (fu_context_add_esp_volume volume s)).
Proof.
  unfold fu_context_add_esp_volume. run.
  destruct (existsb _ (esp_volumes (st_priv s))).
  - by apply mount_free_emit.
  - by apply mount_free_set_private.
Qed.

Lemma mount_free_get_esp_volumes w s :
  mount_free s (snd (fu_context_get_esp_volumes w s)).
Proof.
  unfold fu_context_get_esp_volumes.
  apply mount_free_bind_run; [apply mount_free_refl|]. simpl.
  destruct (0 <? length (esp_volumes (st_priv s)))%nat; [apply mount_free_refl|].
  apply mount_free_bind; [by apply mount_free_emit|]. intros _ s1.
  destruct (getenv_FWUPD_UEFI_ESP_PATH w) as [path_tmp|].
  - apply mount_free_bind; [apply mount_free_add_esp_volume|]. intros _ s2.
    apply mount_free_refl.
  - apply mount_free_bind; [by apply mount_free_emit|]. intros _ s2.
    apply mount_free_bind.
    { destruct (fu_volume_new_by_kind w FU_VOLUME_KIND_ESP) as [volumes|e].
      - apply mount_free_for_each. intros vol s3.
        destruct (negb _); [apply mount_free_refl|apply mount_free_add_esp_volume].
      - by apply mount_free_emit. }
    intros _ s3. apply mount_free_bind; [by apply mount_free_emit|]. intros _ s4.
    apply mount_free_bind.
    { destruct (fu_volume_new_by_kind w FU_VOLUME_KIND_BDP) as [volumes|e].
      - apply mount_free_for_each. intros vol s5.
        destruct (negb _); [apply mount_free_refl|].
        destruct (negb _); [apply mount_free_refl|apply mount_free_add_esp_volume].
      - by apply mount_free_emit. }
    intros _ s5. apply mount_free_bind_run; [apply mount_free_refl|]. simpl.
    destruct (length (esp_volumes (st_priv s5)) =? 0)%nat; [|apply mount_free_refl].
    apply mount_free_bind; [by apply mount_free_emit|]. intros _ s6.
    destruct (fu_common_get_block_devices w); apply mount_free_refl.
Qed.

Lemma mount_free_esp_volume_matching dp volumes s :
  mount_free s (snd (esp_volume_matching dp volumes s)).
Proof.
  revert s. induction volumes as [|volume rest IH]; intros s; simpl.
  - apply mount_free_refl.
  - destruct (fu_efi_hard_drive_device_path_new_from_volume volume) as [dp_tmp|e].
    + destruct (negb _); [apply IH|apply mount_free_refl].
    + apply mount_free_bind; [by apply mount_free_emit|]. intros _ s'. apply IH.
Qed.

Lemma mount_free_get_esp_volume_by_hard_drive_device_path w dp s :
  mount_free s (snd (fu_context_get_esp_volume_by_hard_drive_device_path w dp s)).
Proof.
  unfold fu_context_get_esp_volume_by_hard_drive_device_path.
  apply mount_free_bind; [apply mount_free_get_esp_volumes|]. intros [volumes|e] s'.
  - apply mount_free_esp_volume_matching.
  - apply mount_free_refl.
Qed.

(** With mounting inhibited, the lookup of the files of one boot entry
    mounts nothing, whatever the entry; and if the entry has a hard-drive
    and a file device path and a volume matches, it fails by policy. *)
Lemma get_esp_files_for_entry_inhibited w entry files flags_ s :
  inhibited s ->
  let res := fu_context_get_esp_files_for_entry w entry files flags_ s in
  mount_free s (snd res) /\
  (forall dp_list dp_hdd dp_path volume,
     load_option_device_path_list entry = Some dp_list ->
     device_path_list_hard_drive dp_list = Some dp_hdd ->
     device_path_list_file_path dp_list = Some dp_path ->
     fst (fu_context_get_esp_volume_by_hard_drive_device_path w dp_hdd s) = Ok volume ->
     fst res = (files, Err cannot_mount_by_policy)).
Proof.
  intros Hflag. unfold fu_context_get_esp_files_for_entry. simpl.
  destruct (load_option_device_path_list entry) as [dp_list|] eqn:Hlist;
    [|split; [apply mount_free_refl|intros; congruence]].
  destruct (device_path_list_hard_drive dp_list) as [dp_hdd|] eqn:Hhdd;
    [|split; [apply mount_free_refl|intros; congruence]].
  destruct (device_path_list_file_path dp_list) as [dp_path|] eqn:Hpath;
    [|split; [apply mount_free_refl|intros; congruence]].
  rewrite bind_run.
  pose proof (mount_free_get_esp_volume_by_hard_drive_device_path w dp_hdd s) as Hfree.
  destruct (fu_context_get_esp_volume_by_hard_drive_device_path w dp_hdd s)
    as [[volume|e] s1] eqn:Hfound; simpl in *.
  - assert ((Z.land (flags (st_priv s1)) FU_CONTEXT_FLAG_INHIBIT_VOLUME_MOUNT =? 0) = false)
      as Hset.
    { destruct Hfree as [-> _]. by apply Z.eqb_neq. }
    run. rewrite Hset. simpl. split; [exact Hfree|]. reflexivity.
  - split; [exact Hfree|]. intros ? ? ? ? [= <-] Hhdd' _.
    rewrite Hhdd in Hhdd'. injection Hhdd' as <-. by rewrite Hfound.
Qed.

(** C10, as the code has it: with the inhibit flag set and the ESP volumes
    found, [fu_context_get_default_esp] fails with the error that mounting is
    not allowed by policy, whatever the candidates and the location asked for
    by the user, and has mounted nothing; the lookup of the files of a boot
    entry mounts nothing either, and fails with the same error when the entry
    carries a hard-drive and a file device path and the hard-drive path
    matches a volume. *)
Theorem inhibit_volume_mount_by_policy
    (w : World) (s : State) (entry : FuEfiLoadOption)
    (files : list FuPefileFirmware) (flags_ : Z)
    (Hinhibit : inhibited s) :
  (forall volumes s1,
     fu_context_get_esp_volumes w s = (Ok volumes, s1) ->
     fu_context_get_default_esp w s = (Err cannot_mount_by_policy, s1) /\
     mount_free s s1) /\
  mount_free s (snd (fu_context_get_esp_files_for_entry w entry files flags_ s)) /\
  (forall dp_list dp_hdd dp_path volume,
     load_option_device_path_list entry = Some dp_list ->
     device_path_list_hard_drive dp_list = Some dp_hdd ->
     device_path_list_file_path dp_list = Some dp_path ->
     fst (fu_context_get_esp_volume_by_hard_drive_device_path w dp_hdd s) = Ok volume ->
     fst (fu_context_get_esp_files_for_entry w entry files flags_ s)
     = (files, Err cannot_mount_by_policy)).
Proof.
  split_and!.
  - intros volumes s1 Hfound.
    pose proof (mount_free_get_esp_volumes w s) as Hfree.
    rewrite Hfound in Hfree. simpl in Hfree. split; [|exact Hfree].
    unfold fu_context_get_default_esp, fu_context_get_esp_location. run.
    rewrite Hfound.
    assert ((Z.land (flags (st_priv s1)) FU_CONTEXT_FLAG_INHIBIT_VOLUME_MOUNT =? 0) = false)
      as Hset.
    { destruct Hfree as [-> _]. by apply Z.eqb_neq. }
    by rewrite Hset.
  - by apply get_esp_files_for_entry_inhibited.
  - by apply get_esp_files_for_entry_inhibited.
Qed.

(** ** Boot assets: which failures end the collection *)

(** One round of the loop of [fu_context_get_esp_files]. *)
Lemma esp_files_for_entries_step w entry rest files flags_ s :
  let res := fu_context_get_esp_files_for_entry w entry files flags_ s in
  esp_files_for_entries w (entry :: rest) files flags_ s
  = match snd (fst res) with
    | Ok _ => esp_files_for_entries w rest (fst (fst res)) flags_ (snd res)
    | Err e =>
        if entry_failure_ignored e
        then esp_files_for_entries w rest (fst (fst res)) flags_
               (log_event (snd res) (ignoring_entry entry e))
        else (Err e, snd res)
    end.
Proof.
  cbn [esp_files_for_entries]. rewrite bind_run. simpl.
  destruct (fu_context_get_esp_files_for_entry w entry files flags_ s)
    as [[files' [[]|e]] s1]; simpl; [reflexivity|].
  unfold entry_failure_ignored. destruct (_ || _); [|reflexivity].
  by rewrite bind_run.
Qed.

(** An error of the whole collection is the error of one of the entries,
    and is never one of the two that are passed over. *)
Lemma esp_files_for_entries_error w entries files flags_ s e :
  fst (esp_files_for_entries w entries files flags_ s) = Err e ->
  entry_failure_ignored e = false /\
  exists entry files0 s0,
    In entry entries /\
    snd (fst (fu_context_get_esp_files_for_entry w entry files0 flags_ s0)) = Err e.
Proof.
  revert files s. induction entries as [|entry rest IH]; intros files s.
  - simpl. discriminate.
  - rewrite esp_files_for_entries_step. cbv zeta.
    destruct (fu_context_get_esp_files_for_entry w entry files flags_ s)
      as [[files' [[]|e']] s1] eqn:Hentry; simpl.
    + intros H. apply IH in H as (Hno & entry' & files0 & s0 & Hin & Herr).
      split; [exact Hno|]. exists entry', files0, s0. split; [by right|exact Herr].
    + destruct (entry_failure_ignored e') eqn:Hign.
      * intros H. apply IH in H as (Hno & entry' & files0 & s0 & Hin & Herr).
        split; [exact Hno|]. exists entry', files0, s0. split; [by right|exact Herr].
      * simpl. intros [= <-]. split; [exact Hign|].
        exists entry, files, s. split; [by left|]. by rewrite Hentry.
Qed.

Lemma files_added_refl entry files : files_added entry files files.
Proof. exists []. split; [by rewrite app_nil_r|constructor]. Qed.

Lemma files_added_trans entry files1 files2 files3 :
  files_added entry files1 files2 -> files_added entry files2 files3 ->
  files_added entry files1 files3.
Proof.
  intros (a1 & -> & H1) (a2 & -> & H2). exists (a1 ++ a2)%list.
  split; [by rewrite app_assoc|by apply Forall_app].
Qed.

(** One file: it is added with the index of the entry, or passed over, or
    its error is that of the entry. *)
Lemma esp_add_pe_file_result w entry filename files s :
  match fu_firmware_parse_file w filename with
  | None =>
      fst (esp_add_pe_file w entry filename files s)
      = Ok (files ++ [{| pefile_filename := filename;
                         pefile_idx := load_option_idx entry |}])%list
  | Some e =>
      fst (esp_add_pe_file w entry filename files s)
      = if g_error_matches e FWUPD_ERROR_NOT_SUPPORTED
           || g_error_matches e FWUPD_ERROR_INVALID_FILE
        then Ok files
        else Err (g_prefix_error ("failed to load " +:+ filename +:+ ": ") e)
  end.
Proof.
  unfold esp_add_pe_file, fu_context_esp_load_pe_file.
  destruct (fu_firmware_parse_file w filename) as [e|]; [|reflexivity].
  unfold g_error_matches, g_prefix_error. simpl.
  by destruct (_ || _).
Qed.

Lemma esp_add_pe_file_added w entry filename files s files' :
  fst (esp_add_pe_file w entry filename files s) = Ok files' ->
  files_added entry files files'.
Proof.
  pose proof (esp_add_pe_file_result w entry filename files s) as Hres.
  destruct (fu_firmware_parse_file w filename) as [e|]; rewrite Hres.
  - destruct (_ || _); [|discriminate]. intros [= <-]. apply files_added_refl.
  - intros [= <-]. eexists. split; [reflexivity|]. by repeat constructor.
Qed.

Lemma get_esp_files_for_entry_added w entry files flags_ s :
  files_added entry files
    (fst (fst (fu_context_get_esp_files_for_entry w entry files flags_ s))).
Proof.
  unfold fu_context_get_esp_files_for_entry. cbv zeta.
  destruct (load_option_device_path_list entry) as [dp_list|];
    [|apply files_added_refl].
  destruct (device_path_list_hard_drive dp_list) as [dp_hdd|];
    [|apply files_added_refl].
  destruct (device_path_list_file_path dp_list) as [dp_path|];
    [|apply files_added_refl].
  rewrite bind_run.
  destruct (fu_context_get_esp_volume_by_hard_drive_device_path w dp_hdd s)
    as [[volume|e] s1]; cbn [fst snd]; [|apply files_added_refl].
  rewrite bind_run. change (GET_PRIVATE s1) with (st_priv s1, s1). cbn [fst snd].
  destruct (negb _); [apply files_added_refl|].
  rewrite bind_run.
  destruct (fu_volume_locker volume s1) as [[[]|e] s2]; cbn [fst snd];
    [|apply files_added_refl].
  destruct (fu_efi_file_path_device_path_get_name dp_path) as [dp_filename|e];
    [|apply files_added_refl].
  rewrite bind_run. rewrite bind_run.
  match goal with |- context [g_debug ?msg s2] => generalize (snd (g_debug msg s2)) end.
  intros s3.
  match goal with
  | |- context [fst (?m s3)] =>
      assert (match fst (m s3) with
              | Ok files1 => files_added entry files files1
              | Err _ => True
              end) as Hfirst;
      [|destruct (m s3) as [[files1|e] s4]; cbn [fst snd] in *;
        [|apply files_added_refl]]
  end.
  { destruct (negb _); [|apply files_added_refl].
    destruct (fst (esp_add_pe_file _ _ _ _ _)) eqn:E; [|exact I].
    by apply esp_add_pe_file_added in E. }
  rewrite bind_run.
  match goal with
  | |- context [fst (?m s4)] =>
      assert (match fst (m s4) with
              | Ok files2 => files_added entry files1 files2
              | Err _ => True
              end) as Hsecond;
      [|destruct (m s4) as [[files2|e] s5]; cbn [fst snd] in *; [|exact Hfirst]]
  end.
  { destruct (_ && _); [|apply files_added_refl].
    rewrite bind_run.
    destruct (fst (esp_add_pe_file _ _ _ _ _)) eqn:E; [|exact I].
    by apply esp_add_pe_file_added in E. }
  rewrite bind_run.
  match goal with
  | |- context [fst (?m s5)] =>
      assert (match fst (m s5) with
              | Ok files3 => files_added entry files2 files3
              | Err _ => True
              end) as Hthird;
      [|destruct (m s5) as [[files3|e] s6]; cbn [fst snd] in *;
        [|by eapply files_added_trans]]
  end.
  { destruct (_ && _); [|apply files_added_refl].
    rewrite bind_run.
    destruct (fst (esp_add_pe_file _ _ _ _ _)) eqn:E; [|exact I].
    by apply esp_add_pe_file_added in E. }
  eapply files_added_trans; [|exact Hthird]. by eapply files_added_trans.
Qed.


(** The collection keeps what it was given and what every entry has added,
    also of the entries that it passes over. *)
Lemma esp_files_for_entries_added w entries files flags_ s collected :
  fst (esp_files_for_entries w entries files flags_ s) = Ok collected ->
  exists added,
    collected = (files ++ added)%list /\
    Forall (fun firmware =>
              exists entry, In entry entries /\
                            pefile_idx firmware = load_option_idx entry) added.
Proof.
  revert files s. induction entries as [|entry rest IH]; intros files s.
  - simpl. intros [= <-]. exists []. split; [by rewrite app_nil_r|constructor].
  - rewrite esp_files_for_entries_step. cbv zeta.
    pose proof (get_esp_files_for_entry_added w entry files flags_ s)
      as (added1 & Hfiles & Hidx).
    assert (forall s',
              fst (esp_files_for_entries w rest
                     (fst (fst (fu_context_get_esp_files_for_entry w entry files
                                  flags_ s))) flags_ s') = Ok collected ->
              exists added,
                collected = (files ++ added)%list /\
                Forall (fun firmware =>
                          exists entry', In entry' (entry :: rest) /\
                                         pefile_idx firmware = load_option_idx entry')
                  added) as Hrest.
    { intros s' Hok. apply IH in Hok as (added2 & -> & Hidx2).
      exists (added1 ++ added2)%list. rewrite Hfiles, app_assoc.
      split; [reflexivity|]. apply Forall_app. split.
      - eapply Forall_impl; [exact Hidx|]. intros firmware Hfw.
        exists entry. split; [by left|exact Hfw].
      - eapply Forall_impl; [exact Hidx2|]. intros firmware (entry' & Hin & Hfw).
        exists entry'. split; [by right|exact Hfw]. }
    destruct (snd (fst (fu_context_get_esp_files_for_entry w entry files flags_ s)))
      as [[]|e]; [apply Hrest|].
    destruct (entry_failure_ignored e); [apply Hrest|discriminate].
Qed.


(** ** Scoring the ESP candidates *)

Lemma esp_score_claimed esp :
  0 <= volume_size esp -> claimed_score esp < 2 ^ 32 -> esp_score esp = claimed_score esp.
Proof.
  unfold esp_score, claimed_score, to_guint. intros Hsize Hbound.
  change (1024 * 1024) with (2 ^ 20) in *.
  assert (0 <= volume_size esp / 2 ^ 20) as Hmib by (apply Z.div_pos; lia).
  revert Hbound. generalize dependent (volume_size esp / 2 ^ 20). intros mib Hmib.
  assert (bool_decide (volume_partition_kind esp = FU_VOLUME_KIND_ESP)
          = (g_strcmp0 (volume_partition_kind esp) FU_VOLUME_KIND_ESP =? 0)) as ->.
  { destruct (Z.eqb_spec (g_strcmp0 (volume_partition_kind esp) FU_VOLUME_KIND_ESP) 0)
      as [Hkind|Hkind].
    - apply bool_decide_eq_true_2. by apply g_strcmp0_eq.
    - apply bool_decide_eq_false_2. by rewrite <- g_strcmp0_eq. }
  change (2 ^ 32) with 4294967296.
  destruct (g_strcmp0 (volume_partition_kind esp) FU_VOLUME_KIND_ESP =? 0);
    destruct (has_linux_loader esp); intros Hbound;
    rewrite (Z.mod_small (0 + mib)) by lia;
    try rewrite (Z.mod_small (0 + mib + 131072)) by lia;
    try rewrite (Z.mod_small (0 + mib + 65536)) by lia;
    try rewrite (Z.mod_small (0 + mib + 131072 + 65536)) by lia; lia.
Qed.

Lemma has_linux_loader_spec esp :
  has_linux_loader esp = true <-> looks_like_linux_esp esp.
Proof.
  unfold has_linux_loader, looks_like_linux_esp, is_linux_loader.
  destruct (volume_files esp) as [files|e].
  - rewrite existsb_exists. split.
    + intros (fn & Hin & (prefix & Hp & Hmatch)%existsb_exists).
      apply andb_prop in Hmatch as [Hpre Hsuf].
      exists files, fn, prefix. by repeat split.
    + intros (files' & fn & prefix & [= <-] & Hin & Hp & Hpre & Hsuf).
      exists fn. split; [exact Hin|]. apply existsb_exists.
      exists prefix. split; [exact Hp|]. by rewrite Hpre, Hsuf.
  - split; [discriminate|]. by intros (? & ? & ? & [=] & _).
Qed.

Lemma g_hash_table_lookup_insert table key value key' :
  g_hash_table_lookup (g_hash_table_insert table key value) key'
  = if bool_decide (key = key') then Some value else g_hash_table_lookup table key'.
Proof.
  unfold g_hash_table_lookup, g_hash_table_insert. simpl.
  destruct (bool_decide_reflect (key = key')) as [->|Hne]; [reflexivity|].
  f_equal. induction table as [|[k v] table IH]; simpl; [reflexivity|].
  destruct (bool_decide_reflect (k = key)) as [->|Hk]; simpl.
  - rewrite IH. by rewrite bool_decide_eq_false_2.
  - by rewrite IH.
Qed.

Lemma is_esp_linux_result esp s :
  fu_context_is_esp esp = true ->
  is_ok (fst (fu_context_is_esp_linux esp s)) = has_linux_loader esp.
Proof.
  unfold fu_context_is_esp, fu_context_is_esp_linux, has_linux_loader.
  destruct (volume_mount_point esp) as [mount_point|]; [intros _|discriminate].
  destruct (volume_files esp) as [files|e]; [|reflexivity].
  destruct (List.find is_linux_loader files) as [fn|] eqn:Hfind; run.
  - apply find_some in Hfind as [Hin Hfn]. symmetry. apply existsb_exists. eauto.
  - symmetry. apply not_true_is_false. intros (fn & Hin & Hfn)%existsb_exists.
    by rewrite (find_none _ _ Hfind _ Hin) in Hfn.
Qed.

(** One round of the scoring loop: a candidate that survives is entered
    with its score, any other leaves the table as it is. *)
Lemma esp_score_volume_table location table esp s :
  fst (esp_score_volume location table esp s)
  = if survives location esp
    then g_hash_table_insert table esp (esp_score esp)
    else table.
Proof.
  unfold esp_score_volume, survives, fu_volume_locker. run.
  destruct (volume_locker esp) as [e|]; simpl; [reflexivity|].
  destruct (match location with
            | Some l => negb (g_strcmp0_null (volume_mount_point esp) (Some l) =? 0)
            | None => false
            end) eqn:Hloc.
  - destruct location as [l|]; [|discriminate].
    apply negb_true_iff in Hloc. rewrite Hloc. reflexivity.
  - assert (match location with
            | Some l => g_strcmp0_null (volume_mount_point esp) (Some l) =? 0
            | None => true
            end = true) as ->.
    { destruct location; [by apply negb_false_iff in Hloc|reflexivity]. }
    simpl. destruct (fu_context_is_esp esp) eqn:Hesp; simpl; [|reflexivity].
    match goal with
    | |- context [fu_context_is_esp_linux esp ?s0] =>
        pose proof (is_esp_linux_result esp s0 Hesp) as Hlinux;
        destruct (fu_context_is_esp_linux esp s0) as [[[]|e] s1]
    end; simpl in *; unfold esp_score; rewrite <- Hlinux; reflexivity.
Qed.

(** The table after the loop. *)
Lemma esp_score_volumes_table location volumes table s esp :
  g_hash_table_lookup (fst (esp_score_volumes location volumes table s)) esp
  = if bool_decide (esp ∈ volumes) && survives location esp
    then Some (esp_score esp)
    else g_hash_table_lookup table esp.
Proof.
  revert table s. induction volumes as [|v volumes IH]; intros table s.
  - reflexivity.
  - cbn [esp_score_volumes]. rewrite bind_run. cbv beta. rewrite IH.
    rewrite esp_score_volume_table.
    destruct (bool_decide_reflect (esp ∈ volumes)) as [Hin|Hin]; simpl.
    + rewrite bool_decide_eq_true_2 by (by right). simpl.
      destruct (survives location esp) eqn:Hs; [reflexivity|].
      destruct (survives location v) eqn:Hv; [|reflexivity].
      rewrite g_hash_table_lookup_insert.
      destruct (bool_decide_reflect (v = esp)) as [->|Hne]; [|reflexivity].
      rewrite Hs in Hv. discriminate.
    + destruct (bool_decide_reflect (v = esp)) as [->|Hne].
      * rewrite bool_decide_eq_true_2 by (by left). simpl.
        destruct (survives location esp); [|reflexivity].
        rewrite g_hash_table_lookup_insert. by rewrite bool_decide_eq_true_2.
      * rewrite bool_decide_eq_false_2
          by (rewrite elem_of_cons; intros [->|?]; [by apply Hne|by apply Hin]).
        simpl. destruct (survives location v); [|reflexivity].
        rewrite g_hash_table_lookup_insert. by rewrite bool_decide_eq_false_2.
Qed.

Lemma sort_esp_score_cb_lt table a b :
  fu_context_sort_esp_score_cb table a b < 0 <-> table_score table b < table_score table a.
Proof.
  unfold fu_context_sort_esp_score_cb. fold (table_score table a) (table_score table b).
  destruct (Z.ltb_spec (table_score table a) (table_score table b));
    destruct (Z.ltb_spec (table_score table b) (table_score table a)); lia.
Qed.

Lemma sort_esp_score_cb_le table a b :
  fu_context_sort_esp_score_cb table a b <= 0 <-> table_score table b <= table_score table a.
Proof.
  unfold fu_context_sort_esp_score_cb. fold (table_score table a) (table_score table b).
  destruct (Z.ltb_spec (table_score table a) (table_score table b));
    destruct (Z.ltb_spec (table_score table b) (table_score table a)); lia.
Qed.

Lemma sort_esp_score_cb_swap table a b :
  0 < fu_context_sort_esp_score_cb table a b -> fu_context_sort_esp_score_cb table b a < 0.
Proof.
  rewrite sort_esp_score_cb_lt. pose proof (sort_esp_score_cb_le table a b). lia.
Qed.

Lemma sort_esp_score_cb_trans table a b c :
  fu_context_sort_esp_score_cb table a b <= 0 ->
  fu_context_sort_esp_score_cb table b c <= 0 ->
  fu_context_sort_esp_score_cb table a c <= 0.
Proof. rewrite !sort_esp_score_cb_le. lia. Qed.

(** The branch for more than one candidate, mounting not being inhibited:
    the volume returned is the head of the cached array sorted by the table
    of the scoring loop, if the table has an entry at all. *)
Lemma get_default_esp_multi w s :
  (1 < length (esp_volumes (st_priv s)))%nat ->
  Z.land (flags (st_priv s)) FU_CONTEXT_FLAG_INHIBIT_VOLUME_MOUNT = 0 ->
  exists table,
    (forall esp,
       g_hash_table_lookup table esp
       = if bool_decide (esp ∈ esp_volumes (st_priv s))
            && survives (esp_location (st_priv s)) esp
         then Some (esp_score esp) else None) /\
    fst (fu_context_get_default_esp w s)
    = match table with
      | [] => Err (not_supported_error "no EFI system partition found")
      | _ =>
          match g_ptr_array_sort (fu_context_sort_esp_score_cb table)
                  (esp_volumes (st_priv s)) with
          | best :: _ => Ok best
          | [] => Err (not_found_error "No ESP or BDP found")
          end
      end.
Proof.
  intros Hlen Hflag.
  unfold fu_context_get_default_esp, fu_context_get_esp_location.
  rewrite bind_run. simpl. rewrite bind_run.
  assert (esp_volumes (st_priv s) <> []) as Hne
    by (intros Heq; rewrite Heq in Hlen; simpl in Hlen; lia).
  rewrite (get_esp_volumes_cached w s Hne). simpl.
  rewrite bind_run. simpl.
  rewrite Hflag. simpl.
  apply Nat.ltb_lt in Hlen. rewrite Hlen.
  rewrite !bind_run.
  set (scored := esp_score_volumes (esp_location (st_priv s)) (esp_volumes (st_priv s)) [] s).
  exists (fst scored). split.
  - intros esp. subst scored. by rewrite esp_score_volumes_table.
  - destruct (fst scored) as [|entry table] eqn:Htable; [reflexivity|].
    simpl. rewrite !bind_run. simpl.
    pose proof (g_ptr_array_sort_perm (fu_context_sort_esp_score_cb (entry :: table))
                  (esp_volumes (st_priv s))) as Hperm.
    apply Permutation_length in Hperm. apply Nat.ltb_lt in Hlen.
    destruct (g_ptr_array_sort (fu_context_sort_esp_score_cb (entry :: table))
                (esp_volumes (st_priv s))) as [|best [|second sorted]];
      simpl in Hperm; try lia.
    reflexivity.
Qed.

Lemma table_score_spec table (volumes : list FuVolume) location :
  (forall esp,
     g_hash_table_lookup table esp
     = if bool_decide (esp ∈ volumes) && survives location esp
       then Some (esp_score esp) else None) ->
  forall esp,
    table_score table esp
    = if bool_decide (esp ∈ volumes) && survives location esp then esp_score esp else 0.
Proof.
  intros Htable esp. unfold table_score. rewrite Htable.
  by destruct (bool_decide (esp ∈ volumes) && survives location esp).
Qed.

(** If some candidate has got a score above zero, the volume returned is a
    candidate with a score, no candidate with a score has a higher one, and
    those met before it have a lower one. *)
Lemma get_default_esp_best w s :
  (1 < length (esp_volumes (st_priv s)))%nat ->
  Z.land (flags (st_priv s)) FU_CONTEXT_FLAG_INHIBIT_VOLUME_MOUNT = 0 ->
  (exists esp,
     esp ∈ esp_volumes (st_priv s) /\
     survives (esp_location (st_priv s)) esp = true /\ 0 < esp_score esp) ->
  exists best before after,
    fst (fu_context_get_default_esp w s) = Ok best /\
    esp_volumes (st_priv s) = (before ++ best :: after)%list /\
    survives (esp_location (st_priv s)) best = true /\
    (forall u, In u before -> survives (esp_location (st_priv s)) u = true ->
               esp_score u < esp_score best) /\
    (forall u, In u after -> survives (esp_location (st_priv s)) u = true ->
               esp_score u <= esp_score best).
Proof.
  intros Hlen Hflag (esp0 & Hin0 & Hs0 & Hpos).
  destruct (get_default_esp_multi w s Hlen Hflag) as (table & Htable & Hres).
  pose proof (table_score_spec _ _ _ Htable) as Hscore.
  set (volumes := esp_volumes (st_priv s)) in *.
  set (location := esp_location (st_priv s)) in *.
  assert (table <> []) as Hne.
  { intros ->. specialize (Htable esp0).
    rewrite bool_decide_eq_true_2, Hs0 in Htable by done. discriminate. }
  destruct table as [|entry table]; [done|].
  destruct (g_ptr_array_sort (fu_context_sort_esp_score_cb (entry :: table)) volumes)
    as [|best sorted] eqn:Hsort.
  { apply g_ptr_array_sort_nil in Hsort. rewrite Hsort in Hin0.
    by apply not_elem_of_nil in Hin0. }
  apply g_ptr_array_sort_head in Hsort
    as (before & after & Hsplit & Hbefore & Hafter);
    [|apply sort_esp_score_cb_swap|apply sort_esp_score_cb_trans].
  assert (forall u, u ∈ volumes -> survives location u = true ->
                    table_score (entry :: table) u = esp_score u) as Hsurv.
  { intros u Hu Hsu. rewrite Hscore, bool_decide_eq_true_2, Hsu by done. done. }
  assert (forall u, In u before -> u ∈ volumes) as Hin_before.
  { intros u Hu. rewrite Hsplit. apply list_elem_of_In, in_or_app. by left. }
  assert (forall u, In u after -> u ∈ volumes) as Hin_after.
  { intros u Hu. rewrite Hsplit. apply list_elem_of_In, in_or_app. right. by right. }
  assert (0 < table_score (entry :: table) best) as Hbest.
  { rewrite <- (Hsurv esp0 Hin0 Hs0) in Hpos.
    rewrite Hsplit in Hin0. apply list_elem_of_In, in_app_or in Hin0 as [Hb|[->|Ha]].
    - apply Hbefore, sort_esp_score_cb_lt in Hb. lia.
    - exact Hpos.
    - apply Hafter, sort_esp_score_cb_le in Ha. lia. }
  assert (best ∈ volumes /\ survives location best = true) as [Hbin Hbs].
  { rewrite Hscore in Hbest.
    destruct (bool_decide_reflect (best ∈ volumes)); simpl in Hbest; [|lia].
    destruct (survives location best); [done|lia]. }
  exists best, before, after. split_and!; try done.
  - intros u Hu Hsu. pose proof (Hbefore u Hu) as Hlt.
    apply sort_esp_score_cb_lt in Hlt.
    rewrite (Hsurv u (Hin_before u Hu) Hsu), (Hsurv best Hbin Hbs) in Hlt. exact Hlt.
  - intros u Hu Hsu. pose proof (Hafter u Hu) as Hle.
    apply sort_esp_score_cb_le in Hle.
    rewrite (Hsurv u (Hin_after u Hu) Hsu), (Hsurv best Hbin Hbs) in Hle. exact Hle.
Qed.

(** C2, as the code has it: with more than one candidate and mounting not
    inhibited, a candidate that mounts, is at the location the user asked
    for and has an [EFI] directory is entered in the table with its score;
    the score is the size in MiB plus 0x20000 for the ESP kind plus 0x10000
    for a Linux loader whenever that sum is below 2^32, the score being a
    [guint]; when some candidate has a score above zero the volume returned
    has the highest score and is the first met of those that have it; so of
    three such candidates of one partition kind and of 10, 20 and 15 MiB, the
    last one alone having a Linux loader, the one of 15 MiB is returned.  A
    Linux loader is a listed file whose name starts, case put aside, with
    one of the four loader names and ends with [.efi]. *)
Theorem default_esp_is_best_scored (w : World) (s : State)
    (Hseveral : (1 < length (esp_volumes (st_priv s)))%nat)
    (Hmount : Z.land (flags (st_priv s)) FU_CONTEXT_FLAG_INHIBIT_VOLUME_MOUNT = 0) :
  let volumes := esp_volumes (st_priv s) in
  let location := esp_location (st_priv s) in
  (forall esp s0,
     esp ∈ volumes -> survives location esp = true ->
     g_hash_table_lookup (fst (esp_score_volumes location volumes [] s0)) esp
     = Some (esp_score esp) /\
     (0 <= volume_size esp -> claimed_score esp < 2 ^ 32 ->
      esp_score esp = claimed_score esp)) /\
  ((exists esp, esp ∈ volumes /\ survives location esp = true /\ 0 < esp_score esp) ->
   exists best before after,
     fst (fu_context_get_default_esp w s) = Ok best /\
     volumes = (before ++ best :: after)%list /\
     survives location best = true /\
     (forall u, In u before -> survives location u = true ->
                esp_score u < esp_score best) /\
     (forall u, In u after -> survives location u = true ->
                esp_score u <= esp_score best)) /\
  (forall v10 v20 v15,
     Permutation volumes [v10; v20; v15] ->
     volume_size v10 = 10 * 2 ^ 20 ->
     volume_size v20 = 20 * 2 ^ 20 ->
     volume_size v15 = 15 * 2 ^ 20 ->
     survives location v10 = true ->
     survives location v20 = true ->
     survives location v15 = true ->
     volume_partition_kind v10 = volume_partition_kind v15 ->
     volume_partition_kind v20 = volume_partition_kind v15 ->
     has_linux_loader v10 = false ->
     has_linux_loader v20 = false ->
     has_linux_loader v15 = true ->
     fst (fu_context_get_default_esp w s) = Ok v15) /\
  (forall esp, has_linux_loader esp = true <-> looks_like_linux_esp esp).
Proof.
  cbv zeta. split_and!; [| | |apply has_linux_loader_spec].
  - intros esp s0 Hin Hs. split; [|apply esp_score_claimed].
    rewrite esp_score_volumes_table, bool_decide_eq_true_2, Hs by done. done.
  - by apply get_default_esp_best.
  - intros v10 v20 v15 Hperm Hs10 Hs20 Hs15 Hv10 Hv20 Hv15 Hk10 Hk20 Hl10 Hl20 Hl15.
    assert (esp_score v10 = 10 + esp_score v15 - 15 - 0x10000 /\
            esp_score v20 = 20 + esp_score v15 - 15 - 0x10000 /\
            0 < esp_score v15) as (H10 & H20 & H15).
    { assert (forall v n, volume_size v = n * 2 ^ 20 -> 0 <= n < 1000 ->
                          esp_score v
                          = n
                            + (if bool_decide (volume_partition_kind v = FU_VOLUME_KIND_ESP)
                               then 0x20000 else 0)
                            + (if has_linux_loader v then 0x10000 else 0)) as Hsc.
      { intros v n Hv Hn.
        assert (claimed_score v
                = n
                  + (if bool_decide (volume_partition_kind v = FU_VOLUME_KIND_ESP)
                     then 0x20000 else 0)
                  + (if has_linux_loader v then 0x10000 else 0)) as Hc.
        { unfold claimed_score. rewrite Hv, Z.div_mul by lia. reflexivity. }
        rewrite <- Hc. apply esp_score_claimed; [rewrite Hv; lia|].
        rewrite Hc. change (2 ^ 32) with 4294967296.
        destruct (bool_decide _); destruct (has_linux_loader v); lia. }
      rewrite (Hsc v10 10), (Hsc v20 20), (Hsc v15 15) by (assumption || lia).
      rewrite Hk10, Hk20, Hl10, Hl20, Hl15.
      destruct (bool_decide (volume_partition_kind v15 = FU_VOLUME_KIND_ESP)); lia. }
    destruct (get_default_esp_best w s Hseveral Hmount)
      as (best & before & after & Hres & Hsplit & Hbs & Hbefore & Hafter).
    { exists v15. split_and!; [|done|done].
      apply list_elem_of_In. eapply Permutation_in; [symmetry; exact Hperm|].
      right. right. by left. }
    rewrite Hres. f_equal.
    assert (In best [v10; v20; v15]) as Hbest.
    { eapply Permutation_in; [exact Hperm|]. rewrite Hsplit.
      apply in_or_app. right. by left. }
    assert (In v15 (before ++ best :: after)%list) as H15in.
    { rewrite <- Hsplit. eapply Permutation_in; [symmetry; exact Hperm|].
      right. right. by left. }
    apply in_app_or in H15in as [Hb|[Heq|Ha]]; [|exact Heq|].
    + specialize (Hbefore v15 Hb Hv15).
      simpl in Hbest. destruct Hbest as [<-|[<-|[<-|[]]]]; lia.
    + specialize (Hafter v15 Ha Hv15).
      simpl in Hbest. destruct Hbest as [<-|[<-|[<-|[]]]]; try lia. reflexivity.
Qed.

(** ** Flags: what adding and removing does *)

Lemma land_lnot_disjoint f flag other :
  Z.land flag other = 0 ->
  Z.land (Z.land f (Z.lnot flag)) other = Z.land f other.
Proof.
  intros Hdisjoint. apply Z.bits_inj'. intros n Hn.
  rewrite !Z.land_spec, Z.lnot_spec by exact Hn.
  assert (Z.testbit (Z.land flag other) n = false) as Hbit
    by (rewrite Hdisjoint; apply Z.bits_0).
  rewrite Z.land_spec in Hbit.
  destruct (Z.testbit f n), (Z.testbit flag n), (Z.testbit other n);
    simpl in *; congruence.
Qed.

(** X1: a flag that has been added is set and a flag that has been removed
    is not, whatever the flags were before; so removing undoes adding. *)
Theorem flag_added_is_set_removed_is_clear (flag : Z) (s : State)
    (Hflag : 0 < flag) :
  fst (fu_context_has_flag flag (snd (fu_context_add_flag flag s))) = true /\
  fst (fu_context_has_flag flag (snd (fu_context_remove_flag flag s))) = false /\
  fst (fu_context_has_flag flag
         (snd (fu_context_remove_flag flag (snd (fu_context_add_flag flag s)))))
  = false.
Proof.
  assert (forall s0,
            fst (fu_context_has_flag flag (snd (fu_context_remove_flag flag s0)))
            = false) as Hremove.
  { intros s0. unfold fu_context_has_flag, fu_context_remove_flag, has_flag. run.
    destruct (Z.eqb_spec (Z.land (flags (st_priv s0)) flag) 0) as [E|E]; simpl.
    - rewrite E. reflexivity.
    - rewrite <- Z.land_assoc, (Z.land_comm (Z.lnot flag)), Z.land_lnot_diag,
        Z.land_0_r.
      reflexivity. }
  split_and!; [|apply Hremove|apply Hremove].
  unfold fu_context_has_flag. run. by apply add_flag_sets.
Qed.

(** X2: the flags change, and the notification of the [flags] property is
    sent, only when there is something to do.  Adding a flag of which some
    bit is set already leaves the context and the trace as they are, also
    when other bits of the flag are not set; removing a flag of which no bit
    is set does the same.  Otherwise the flags are the old ones with the
    bits of the flag set or cleared, nothing else of the context changes and
    the one event is the notification.  A second call with the same flag
    finds nothing to do. *)
Theorem flag_changes_notify_once (flag : Z) (s : State) :
  let added := snd (fu_context_add_flag flag s) in
  let removed := snd (fu_context_remove_flag flag s) in
  (Z.land (flags (st_priv s)) flag <> 0 -> added = s) /\
  (Z.land (flags (st_priv s)) flag = 0 ->
     st_priv added = with_flags (st_priv s) (Z.lor (flags (st_priv s)) flag) /\
     events_since s added [EvNotify "flags"]) /\
  (Z.land (flags (st_priv s)) flag = 0 -> removed = s) /\
  (Z.land (flags (st_priv s)) flag <> 0 ->
     st_priv removed
     = with_flags (st_priv s) (Z.land (flags (st_priv s)) (Z.lnot flag)) /\
     events_since s removed [EvNotify "flags"]) /\
  (flag <> 0 -> snd (fu_context_add_flag flag added) = added) /\
  snd (fu_context_remove_flag flag removed) = removed.
Proof.
  cbv zeta. unfold fu_context_add_flag, fu_context_remove_flag, events_since.
  split_and!.
  - intros Hset. run. apply Z.eqb_neq in Hset. by rewrite Hset.
  - intros Hclear. run. by rewrite Hclear.
  - intros Hclear. run. by rewrite Hclear.
  - intros Hset. run. apply Z.eqb_neq in Hset. by rewrite Hset.
  - intros Hflag. run.
    destruct (Z.land (flags (st_priv s)) flag =? 0) eqn:E; simpl.
    + apply Z.eqb_eq in E. apply Z.eqb_neq in Hflag.
      by rewrite Z.land_lor_distr_l, E, Z.land_diag, Z.lor_0_l, Hflag.
    + by rewrite E.
  - run. destruct (Z.land (flags (st_priv s)) flag =? 0) eqn:E; simpl.
    + by rewrite E.
    + rewrite <- Z.land_assoc, (Z.land_comm (Z.lnot flag)), Z.land_lnot_diag,
        Z.land_0_r.
      reflexivity.
Qed.

(** X3: adding or removing a flag leaves every flag alone that shares no
    bit with it. *)
Theorem flag_changes_keep_other_flags (flag other : Z) (s : State)
    (Hdisjoint : Z.land flag other = 0) :
  has_flag (st_priv (snd (fu_context_add_flag flag s))) other
  = has_flag (st_priv s) other /\
  has_flag (st_priv (snd (fu_context_remove_flag flag s))) other
  = has_flag (st_priv s) other.
Proof.
  unfold fu_context_add_flag, fu_context_remove_flag, has_flag. run.
  destruct (Z.land (flags (st_priv s)) flag =? 0); simpl; split; try reflexivity.
  - by rewrite Z.land_lor_distr_l, Hdisjoint, Z.lor_0_r.
  - by rewrite land_lnot_disjoint.
Qed.

(** ** Power, lid and display state *)

(** X4: the three state setters take any value, there is no range that they
    refuse.  A value equal to the stored one leaves the context and the
    trace as they are; any other value is stored, with nothing else of the
    context changed, and is followed by one informational message and the
    notification of the property, in this order.  The getter then gives the
    value that was set. *)
Theorem state_setters_store_and_notify (s : State) (state : Z) :
  (power_state (st_priv s) = state -> fu_context_set_power_state state s = (tt, s)) /\
  (lid_state (st_priv s) = state -> fu_context_set_lid_state state s = (tt, s)) /\
  (display_state (st_priv s) = state ->
     fu_context_set_display_state state s = (tt, s)) /\
  (power_state (st_priv s) <> state ->
     let s' := snd (fu_context_set_power_state state s) in
     st_priv s' = with_power_state (st_priv s) state /\
     events_since s s'
       [EvLog LOG_INFO
          ("power state now " +:+ null_to_string (fu_power_state_to_string state));
        EvNotify "power-state"]) /\
  (lid_state (st_priv s) <> state ->
     let s' := snd (fu_context_set_lid_state state s) in
     st_priv s' = with_lid_state (st_priv s) state /\
     events_since s s'
       [EvLog LOG_INFO
          ("lid state now " +:+ null_to_string (fu_lid_state_to_string state));
        EvNotify "lid-state"]) /\
  (display_state (st_priv s) <> state ->
     let s' := snd (fu_context_set_display_state state s) in
     st_priv s' = with_display_state (st_priv s) state /\
     events_since s s'
       [EvLog LOG_INFO
          ("display-state now "
           +:+ null_to_string (fu_display_state_to_string state));
        EvNotify "display-state"]) /\
  fst (fu_context_get_power_state (snd (fu_context_set_power_state state s))) = state /\
  fst (fu_context_get_lid_state (snd (fu_context_set_lid_state state s))) = state /\
  fst (fu_context_get_display_state (snd (fu_context_set_display_state state s)))
  = state.
Proof.
  unfold fu_context_set_power_state, fu_context_set_lid_state,
    fu_context_set_display_state, fu_context_get_power_state,
    fu_context_get_lid_state, fu_context_get_display_state, events_since.
  split_and!.
  1-3: intros Hsame; run; apply Z.eqb_eq in Hsame; by rewrite Hsame.
  1-3: intros Hnew; run; apply Z.eqb_neq in Hnew; rewrite Hnew; simpl;
       by rewrite <- app_assoc.
  all: run.
  - destruct (Z.eqb_spec (power_state (st_priv s)) state); simpl; done.
  - destruct (Z.eqb_spec (lid_state (st_priv s)) state); simpl; done.
  - destruct (Z.eqb_spec (display_state (st_priv s)) state); simpl; done.
Qed.

(** ** The battery level stays in its range *)

(** X5: a new context has both percentages in their range, at the value for
    unknown, and whatever the two setters are called with afterwards they
    stay in the range: a value above it is refused. *)
Theorem battery_in_range_invariant
    (getenv_FWUPD_EFIVARS : option string) (s : State) (level threshold : Z) :
  battery_in_range (st_priv (fu_context_new getenv_FWUPD_EFIVARS)) /\
  fst (fu_context_get_battery_level (fu_context_new getenv_FWUPD_EFIVARS))
  = FWUPD_BATTERY_LEVEL_INVALID /\
  fst (fu_context_get_battery_threshold (fu_context_new getenv_FWUPD_EFIVARS))
  = FWUPD_BATTERY_LEVEL_INVALID /\
  (battery_in_range (st_priv s) ->
   battery_in_range (st_priv (snd (fu_context_set_battery_level level s))) /\
   battery_in_range (st_priv (snd (fu_context_set_battery_threshold threshold s))) /\
   battery_in_range
     (st_priv (snd (fu_context_set_battery_threshold threshold
                      (snd (fu_context_set_battery_level level s)))))).
Proof.
  assert (forall s0 v, battery_in_range (st_priv s0) ->
            battery_in_range (st_priv (snd (fu_context_set_battery_level v s0))))
    as Hlevel.
  { intros s0 v [Hl Ht]. unfold fu_context_set_battery_level, battery_in_range. run.
    destruct (Z.leb_spec v FWUPD_BATTERY_LEVEL_INVALID); simpl; [|done].
    destruct (Z.eqb_spec (battery_level (st_priv s0)) v); simpl; done. }
  assert (forall s0 v, battery_in_range (st_priv s0) ->
            battery_in_range (st_priv (snd (fu_context_set_battery_threshold v s0))))
    as Hthreshold.
  { intros s0 v [Hl Ht]. unfold fu_context_set_battery_threshold, battery_in_range.
    run.
    destruct (Z.leb_spec v FWUPD_BATTERY_LEVEL_INVALID); simpl; [|done].
    destruct (Z.eqb_spec (battery_threshold (st_priv s0)) v); simpl; done. }
  split_and!; try reflexivity.
  - unfold battery_in_range. simpl. lia.
  - intros Hrange. split_and!; auto.
Qed.

(** ** Versions of the dependencies *)

(** X6: a runtime version that has been added is the one that is looked up,
    the last one added for a component wins, the versions of all other
    components stay as they were, and the two tables are apart: adding to
    one leaves the other as it was.  A component that was never added is
    looked up as NULL on a new context. *)
Theorem runtime_version_added_is_found
    (s : State) (component_id other version newer : string) :
  let s1 := snd (fu_context_add_runtime_version component_id version s) in
  let s2 := snd (fu_context_add_runtime_version component_id newer s1) in
  fst (fu_context_get_runtime_version component_id s1) = Some version /\
  fst (fu_context_get_runtime_version component_id s2) = Some newer /\
  (other <> component_id ->
     fst (fu_context_get_runtime_version other s1)
     = fst (fu_context_get_runtime_version other s)) /\
  fst (fu_context_get_compile_versions s1) = fst (fu_context_get_compile_versions s) /\
  fst (fu_context_get_runtime_versions
         (snd (fu_context_add_compile_version component_id version s)))
  = fst (fu_context_get_runtime_versions s) /\
  fst (fu_context_get_compile_versions
         (snd (fu_context_add_compile_version component_id version s)))
  !! component_id = Some version /\
  (forall getenv_FWUPD_EFIVARS,
     fst (fu_context_get_runtime_version component_id
            (fu_context_new getenv_FWUPD_EFIVARS)) = None).
Proof.
  cbv zeta.
  unfold fu_context_add_runtime_version, fu_context_get_runtime_version,
    fu_context_get_compile_versions, fu_context_get_runtime_versions,
    fu_context_add_compile_version.
  run. split_and!; try reflexivity.
  - by rewrite lookup_insert_eq.
  - by rewrite lookup_insert_eq.
  - intros Hother. by rewrite lookup_insert_ne.
  - by rewrite lookup_insert_eq.
Qed.

(** ** Firmware types *)

(** The loop that copies a list into a new array, element by element. *)
Lemma fold_left_add {A B} (f : A -> B) (l : list A) (array : list B) :
  fold_left (fun array x => (array ++ [f x])%list) l array = (array ++ (f <$> l))%list.
Proof.
  revert array. induction l as [|x l IH]; intros array; simpl.
  - by rewrite app_nil_r.
  - by rewrite IH, <- app_assoc.
Qed.

Lemma g_hash_table_get_keys_spec {V} (table : gmap string V) key :
  key ∈ g_hash_table_get_keys table <-> is_Some (table !! key).
Proof.
  unfold g_hash_table_get_keys. rewrite list_elem_of_fmap. split.
  - intros ([k v] & -> & Hin). apply elem_of_map_to_list in Hin. by exists v.
  - intros [v Hv]. exists (key, v). split; [reflexivity|].
    by apply elem_of_map_to_list.
Qed.

(** X7: a firmware type that has been added under an id is the one found
    under that id, the types under all other ids stay as they were and
    nothing is logged.  The invalid type and a NULL id are refused: the
    table stays as it was.  An id that was never added is looked up as the
    invalid type. *)
Theorem firmware_gtype_added_is_found
    (s : State) (id other : string) (gtype : Z) (Hvalid : gtype <> G_TYPE_INVALID) :
  let s' := snd (fu_context_add_firmware_gtype (Some id) gtype s) in
  fst (fu_context_get_firmware_gtype_by_id id s') = gtype /\
  (other <> id ->
     fst (fu_context_get_firmware_gtype_by_id other s')
     = fst (fu_context_get_firmware_gtype_by_id other s)) /\
  st_trace s' = st_trace s /\
  st_priv (snd (fu_context_add_firmware_gtype (Some id) G_TYPE_INVALID s)) = st_priv s /\
  st_priv (snd (fu_context_add_firmware_gtype None gtype s)) = st_priv s /\
  (firmware_gtypes (st_priv s) !! id = None ->
     fst (fu_context_get_firmware_gtype_by_id id s) = G_TYPE_INVALID).
Proof.
  cbv zeta. unfold fu_context_add_firmware_gtype, fu_context_get_firmware_gtype_by_id.
  run. apply Z.eqb_neq in Hvalid. rewrite Hvalid. simpl.
  split_and!; try reflexivity.
  - by rewrite lookup_insert_eq.
  - intros Hother. by rewrite lookup_insert_ne.
  - by intros ->.
Qed.

(** X8: the ids of the firmware types are given in [strcmp] order, each id
    once, and they are the ids that have a type in the table, in whatever
    order the table holds them; the types are given one for each id.  The
    context is left as it is. *)
Theorem firmware_gtype_ids_sorted (s : State) :
  let ids := fst (fu_context_get_firmware_gtype_ids s) in
  let gtypes := fst (fu_context_get_firmware_gtypes s) in
  Sorted (sorted_before fu_context_gtypes_sort_cb) ids /\
  NoDup ids /\
  (forall id, id ∈ ids <-> is_Some (firmware_gtypes (st_priv s) !! id)) /\
  length gtypes = length ids /\
  (forall gtype,
     gtype ∈ gtypes <-> exists id, firmware_gtypes (st_priv s) !! id = Some gtype) /\
  snd (fu_context_get_firmware_gtype_ids s) = s /\
  snd (fu_context_get_firmware_gtypes s) = s.
Proof.
  cbv zeta. unfold fu_context_get_firmware_gtype_ids, fu_context_get_firmware_gtypes.
  run.
  rewrite (fold_left_add (fun id => id)), (fold_left_add (fun gtype => gtype)).
  rewrite !list_fmap_id. simpl.
  split_and!; try reflexivity.
  - apply g_ptr_array_sort_sorted, g_strcmp0_swap.
  - rewrite g_ptr_array_sort_perm. apply NoDup_fst_map_to_list.
  - intros id. rewrite g_ptr_array_sort_perm. apply g_hash_table_get_keys_spec.
  - rewrite g_ptr_array_sort_perm. unfold g_hash_table_get_values,
      g_hash_table_get_keys. by rewrite !length_fmap.
  - intros gtype. unfold g_hash_table_get_values. rewrite list_elem_of_fmap. split.
    + intros ([id v] & -> & Hin). apply elem_of_map_to_list in Hin. by exists id.
    + intros [id Hid]. exists (id, gtype). split; [reflexivity|].
      by apply elem_of_map_to_list.
Qed.

(** ** HWID flags *)

Lemma hwid_flags_added (l : list string) (s : State) :
  let s' := snd (for_each l (fun flag =>
                   priv ← GET_PRIVATE;
                   SET_PRIVATE (with_hwid_flags priv ({[flag]} ∪ hwid_flags priv))) s) in
  forall flag,
    flag ∈ hwid_flags (st_priv s') <-> flag ∈ l \/ flag ∈ hwid_flags (st_priv s).
Proof.
  cbv zeta. revert s. induction l as [|x l IH]; intros s flag.
  - simpl. split; [intros H; by right|].
    intros [H|H]; [by apply elem_of_nil in H|exact H].
  - cbn [for_each]. rewrite bind_run. rewrite IH. run.
    rewrite elem_of_cons, elem_of_union, elem_of_singleton. split.
    + intros [H|[H|H]]; [left; by right|left; by left|by right].
    + intros [[H|H]|H]; [right; by left|by left|right; by right].
Qed.

(** X9: the HWID flags of a quirk value are the pieces between its commas:
    after the callback has seen the value a flag is set when it was set
    before or is one of the pieces; a NULL value leaves the context as it
    is.  No flag is set on a new context. *)
Theorem hwid_quirk_value_sets_flags
    (key : string) (value : option string) (source : Z) (flag : string) (s : State) :
  let s' := snd (fu_context_hwid_quirk_cb key value source s) in
  fst (fu_context_has_hwid_flag flag s')
  = fst (fu_context_has_hwid_flag flag s)
    || match value with
       | Some value => bool_decide (flag ∈ g_strsplit value ",")
       | None => false
       end /\
  (value = None -> s' = s) /\
  (forall getenv_FWUPD_EFIVARS,
     fst (fu_context_has_hwid_flag flag (fu_context_new getenv_FWUPD_EFIVARS)) = false).
Proof.
  cbv zeta. split_and!.
  - unfold fu_context_has_hwid_flag, fu_context_hwid_quirk_cb. run.
    destruct value as [value|]; [|by rewrite orb_false_r].
    pose proof (hwid_flags_added (g_strsplit value ",") s flag) as Hadded.
    cbv zeta in Hadded.
    destruct (bool_decide_reflect (flag ∈ hwid_flags (st_priv s))) as [Hold|Hold];
      destruct (bool_decide_reflect (flag ∈ g_strsplit value ",")) as [Hnew|Hnew];
      simpl;
      [apply bool_decide_eq_true|apply bool_decide_eq_true
      |apply bool_decide_eq_true|apply bool_decide_eq_false];
      rewrite Hadded; [by right|by right|by left|].
    by intros [H|H].
  - by intros ->.
  - intros getenv. unfold fu_context_has_hwid_flag. run.
    apply bool_decide_eq_false. apply not_elem_of_empty.
Qed.

(** ** Backends *)

Lemma find_app_first {A} (f : A -> bool) (l1 l2 : list A) :
  List.find f (l1 ++ l2)
  = match List.find f l1 with Some x => Some x | None => List.find f l2 end.
Proof.
  induction l1 as [|x l1 IH]; simpl; [reflexivity|]. by destruct (f x).
Qed.

Lemma find_existsb {A} (f : A -> bool) (l : list A) :
  existsb f l = match List.find f l with Some _ => true | None => false end.
Proof.
  induction l as [|x l IH]; simpl; [reflexivity|]. by destruct (f x).
Qed.

Lemma g_strcmp0_null_eq a b : g_strcmp0_null a b = 0 <-> a = b.
Proof.
  destruct a as [a|], b as [b|]; simpl; split; try done.
  - intros H. apply g_strcmp0_eq in H. by subst.
  - intros [= ->]. by apply g_strcmp0_eq.
Qed.

(** X10: a backend is found by its name when one with that name has been
    added, and the one found is the first that was added with the name: a
    later backend of the same name is kept in the array and never found.
    [fu_context_has_backend] tells whether the lookup succeeds. *)
Theorem backend_found_by_name (s : State) (backend : FuBackend) (name : string) :
  let s' := snd (fu_context_add_backend backend s) in
  fst (fu_context_has_backend name s)
  = is_ok (fst (fu_context_get_backend_by_name name s)) /\
  (fu_backend_get_name backend = Some name ->
     fst (fu_context_has_backend name s') = true) /\
  (fst (fu_context_has_backend name s) = true ->
     fst (fu_context_get_backend_by_name name s')
     = fst (fu_context_get_backend_by_name name s)) /\
  (fst (fu_context_has_backend name s) = false ->
     fu_backend_get_name backend = Some name ->
     fst (fu_context_get_backend_by_name name s') = Ok backend) /\
  (fst (fu_context_has_backend name s) = false ->
     fst (fu_context_get_backend_by_name name s)
     = Err (not_found_error ("no backend with name " +:+ name))) /\
  (forall found,
     fst (fu_context_get_backend_by_name name s) = Ok found ->
     In found (backends (st_priv s)) /\ fu_backend_get_name found = Some name) /\
  fst (fu_context_get_backends s') = (fst (fu_context_get_backends s) ++ [backend])%list.
Proof.
  cbv zeta.
  unfold fu_context_has_backend, fu_context_get_backend_by_name,
    fu_context_add_backend, fu_context_get_backends.
  run. fold (backend_named name).
  rewrite existsb_app, find_app_first, !find_existsb. simpl.
  split_and!; try reflexivity.
  - by destruct (List.find _ _).
  - intros Hname. destruct (List.find _ _); [reflexivity|].
    unfold backend_named. rewrite Hname. simpl.
    by rewrite (proj2 (g_strcmp0_eq name name) eq_refl).
  - by destruct (List.find _ _).
  - intros Hnone Hname. destruct (List.find _ _); [discriminate|].
    unfold backend_named. rewrite Hname. simpl.
    by rewrite (proj2 (g_strcmp0_eq name name) eq_refl).
  - by destruct (List.find _ _).
  - intros found. destruct (List.find _ _) as [b|] eqn:Hfind; [|discriminate].
    simpl. intros [= ->]. apply find_some in Hfind as [Hin Hnamed].
    split; [exact Hin|]. unfold backend_named in Hnamed.
    by apply Z.eqb_eq, g_strcmp0_null_eq in Hnamed.
Qed.

(** ** The flat device tree *)

(** X11: the device tree is parsed once.  When the context holds a parsed
    tree, that tree is returned and the context is left as it is, whatever
    the files are; a tree that has been parsed with success is returned by
    every later call, also when the files have changed since; a failure
    leaves the context as it was, without a tree, so that the next call
    looks again.  When no tree is held, the override file is taken when it
    exists, and the system file is then not looked at; when neither exists
    the failure is not-supported. *)
Theorem fdt_parsed_once (fs fs' : FdtFiles) (s : State) :
  let fdtfn_local :=
    g_build_filename (fu_path_from_kind FU_PATH_KIND_LOCALSTATEDIR_PKG) "system.dtb" in
  let fdtfn_sys :=
    g_build_filename (fu_path_from_kind FU_PATH_KIND_SYSFSDIR_FW) "fdt" in
  (forall parsed,
     fdt (st_priv s) = Some parsed -> fu_context_get_fdt fs s = (Ok parsed, s)) /\
  (forall parsed s1,
     fu_context_get_fdt fs s = (Ok parsed, s1) ->
     fdt (st_priv s1) = Some parsed /\
     fu_context_get_fdt fs' s1 = (Ok parsed, s1)) /\
  (forall e s1,
     fu_context_get_fdt fs s = (Err e, s1) -> s1 = s /\ fdt (st_priv s) = None) /\
  st_trace (snd (fu_context_get_fdt fs s)) = st_trace s /\
  (fdt (st_priv s) = None ->
   g_file_test_exists fs fdtfn_local = true ->
   fst (fu_context_get_fdt fs s)
   = match fu_fdt_firmware_parse_file fs fdtfn_local with
     | Ok parsed => Ok parsed
     | Err e => Err (g_prefix_error "failed to parse FDT: " e)
     end) /\
  (fdt (st_priv s) = None ->
   g_file_test_exists fs fdtfn_local = false ->
   g_file_test_exists fs fdtfn_sys = false ->
   fst (fu_context_get_fdt fs s)
   = Err (not_supported_error
            ("cannot find " +:+ fdtfn_sys +:+ " or override " +:+ fdtfn_local))).
Proof.
  cbv zeta. unfold fu_context_get_fdt, fu_context_get_fdt_file. run.
  split_and!.
  - intros parsed ->. reflexivity.
  - intros parsed s1. destruct (fdt (st_priv s)) as [cached|] eqn:Hfdt.
    + intros [= <- <-]. by rewrite Hfdt.
    + repeat match goal with
             | |- context [if ?b then _ else _] => destruct b
             | |- context [match fu_fdt_firmware_parse_file ?f ?x with _ => _ end] =>
                 destruct (fu_fdt_firmware_parse_file f x)
             end; simpl; try discriminate; by intros [= <- <-].
  - intros e s1. destruct (fdt (st_priv s)) as [cached|] eqn:Hfdt; [discriminate|].
    repeat match goal with
           | |- context [if ?b then _ else _] => destruct b
           | |- context [match fu_fdt_firmware_parse_file ?f ?x with _ => _ end] =>
               destruct (fu_fdt_firmware_parse_file f x)
           end; simpl; try discriminate; by intros [= _ <-].
  - destruct (fdt (st_priv s)); [reflexivity|].
    repeat match goal with
           | |- context [if ?b then _ else _] => destruct b
           | |- context [match fu_fdt_firmware_parse_file ?f ?x with _ => _ end] =>
               destruct (fu_fdt_firmware_parse_file f x)
           end; reflexivity.
  - intros -> ->. by destruct (fu_fdt_firmware_parse_file _ _).
  - by intros -> -> ->.
Qed.

(** ** Free space of the EFI variable store *)

(** X12: the check of the free space leaves the context as it is.  With the
    flag that switches the check off it succeeds without asking the store;
    otherwise it succeeds exactly when the store knows its free space and
    that is no less than the bytes asked for, and when the space is known
    and too small the error is the broken-system one. *)
Theorem efivars_free_space_checked (s : State) (count : Z) :
  let res := fu_context_efivars_check_free_space count s in
  let total := fst (fu_efivars_space_free (efivars (st_priv s))) in
  snd res = s /\
  (has_flag (st_priv s) FU_CONTEXT_FLAG_IGNORE_EFIVARS_FREE_SPACE = true ->
     fst res = (true, None)) /\
  (has_flag (st_priv s) FU_CONTEXT_FLAG_IGNORE_EFIVARS_FREE_SPACE = false ->
     fst (fst res) = negb (total =? G_MAXUINT64) && (count <=? total)) /\
  (has_flag (st_priv s) FU_CONTEXT_FLAG_IGNORE_EFIVARS_FREE_SPACE = false ->
     total <> G_MAXUINT64 -> total < count ->
     exists message,
       fst res = (false, Some {| error_code := FWUPD_ERROR FWUPD_ERROR_BROKEN_SYSTEM;
                                 error_message := message |})) /\
  (has_flag (st_priv s) FU_CONTEXT_FLAG_IGNORE_EFIVARS_FREE_SPACE = false ->
     total = G_MAXUINT64 ->
     fst res = (false, snd (fu_efivars_space_free (efivars (st_priv s))))).
Proof.
  cbv zeta. unfold fu_context_efivars_check_free_space, fu_context_has_flag. run.
  destruct (fu_efivars_space_free (efivars (st_priv s))) as [total error]. simpl.
  destruct (has_flag (st_priv s) FU_CONTEXT_FLAG_IGNORE_EFIVARS_FREE_SPACE); simpl.
  - split_and!; try done.
  - destruct (Z.eqb_spec total G_MAXUINT64) as [Hmax|Hmax]; simpl;
      [split_and!; try done|].
    destruct (Z.ltb_spec total count) as [Hlt|Hge]; simpl; split_and!; try done.
    + intros _. symmetry. apply Z.leb_gt. exact Hlt.
    + intros _ _ _. eexists. reflexivity.
    + intros _. symmetry. by apply Z.leb_le.
    + intros _ _ Hlt. lia.
Qed.

(** ** Full-disk encryption *)

Lemma with_flags_same p : with_flags p (flags p) = p.
Proof. by destruct p. Qed.

Lemma with_flags_twice p a b : with_flags (with_flags p a) b = with_flags p b.
Proof. reflexivity. Qed.

Lemma fde_flags_cons f proxy devices :
  Z.lor (Z.lor (Z.lor f (if is_bitlocker proxy then FU_CONTEXT_FLAG_FDE_BITLOCKER
                         else 0))
               (if is_snapd_fde proxy then FU_CONTEXT_FLAG_FDE_SNAPD else 0))
        (fde_flags devices)
  = Z.lor f (fde_flags (proxy :: devices)).
Proof.
  unfold fde_flags. cbn [existsb].
  apply Z.bits_inj'. intros n _.
  destruct (is_bitlocker proxy), (is_snapd_fde proxy),
    (existsb is_bitlocker devices), (existsb is_snapd_fde devices);
    cbn [orb]; rewrite ?Z.lor_spec, ?Z.bits_0;
    destruct (Z.testbit f n), (Z.testbit FU_CONTEXT_FLAG_FDE_BITLOCKER n),
      (Z.testbit FU_CONTEXT_FLAG_FDE_SNAPD n); reflexivity.
Qed.

(** X13: the detection of full-disk encryption only sets flags: the flags
    afterwards are the flags before with the BitLocker flag set when some
    block device is a BitLocker volume with a device node, and the snapd
    flag set when some block device is the LUKS partition labelled
    [ubuntu-data-enc].  No flag is cleared, nothing else of the context
    changes, and the [flags] property is not notified, also when a flag has
    been set.  When the block devices cannot be listed the context stays as
    it is and the failure is logged. *)
Theorem fde_detection_only_sets_flags (w : World) (s : State) :
  let s' := snd (fu_context_detect_full_disk_encryption w s) in
  st_priv s'
  = with_flags (st_priv s)
      (Z.lor (flags (st_priv s))
         (match fu_common_get_block_devices w with
          | Ok devices => fde_flags devices
          | Err _ => 0
          end)) /\
  Z.land (flags (st_priv s)) (flags (st_priv s')) = flags (st_priv s) /\
  events_since s s'
    (EvGetBlockDevices ::
     match fu_common_get_block_devices w with
     | Ok _ => []
     | Err e => [EvLog LOG_INFO ("Failed to get block devices: " +:+ error_message e)]
     end) /\
  (forall e, fu_common_get_block_devices w = Err e -> st_priv s' = st_priv s).
Proof.
  cbv zeta.
  assert (forall f x, Z.land f (Z.lor f x) = f) as Habsorb.
  { intros f x. apply Z.bits_inj'. intros n _.
    rewrite Z.land_spec, Z.lor_spec. by destruct (Z.testbit f n), (Z.testbit x n). }
  unfold fu_context_detect_full_disk_encryption, events_since. rewrite bind_run.
  destruct (fu_common_get_block_devices w) as [devices|e].
  - match goal with
    | |- context [for_each devices ?body] =>
        assert (forall devs s0,
                  st_priv (snd (for_each devs body s0))
                  = with_flags (st_priv s0)
                      (Z.lor (flags (st_priv s0)) (fde_flags devs)) /\
                  st_trace (snd (for_each devs body s0)) = st_trace s0) as Hloop
    end.
    { induction devs as [|proxy devs IH]; intros s0.
      - simpl. unfold fde_flags. simpl. by rewrite Z.lor_0_r, with_flags_same.
      - cbn [for_each]. rewrite bind_run.
        match goal with
        | |- context [for_each devs _ ?s1] => destruct (IH s1) as [-> ->]
        end.
        rewrite <- fde_flags_cons. fold (is_bitlocker proxy) (is_snapd_fde proxy).
        run.
        destruct (is_bitlocker proxy), (is_snapd_fde proxy); simpl;
          rewrite ?Z.lor_0_r; done. }
    match goal with
    | |- context [for_each devices _ ?s1] => destruct (Hloop devices s1) as [-> ->]
    end.
    run. split_and!; try done; apply Habsorb.
  - run. rewrite Z.lor_0_r, with_flags_same, Z.land_diag. split_and!; try done.
    by rewrite <- app_assoc.
Qed.

(** ** udev subsystems: writing twice, and the list of what is watched *)

Lemma written_plugin_names_has_name stored name :
  name ∈ written_plugin_names stored (Some name).
Proof.
  unfold written_plugin_names. destruct stored as [plugin_names|]; [|by left].
  destruct (bool_decide_reflect (name ∈ plugin_names)) as [Hin|Hnew]; [exact Hin|].
  rewrite g_ptr_array_sort_perm. apply elem_of_app. right. by left.
Qed.

Lemma add_udev_subsystem_exact_nothing_to_do subsystem plugin_name s plugin_names :
  udev_subsystems (st_priv s) !! subsystem = Some plugin_names ->
  (forall name, plugin_name = Some name -> name ∈ plugin_names) ->
  add_udev_subsystem_exact subsystem plugin_name s = (tt, s).
Proof.
  intros Hstored Hname. unfold add_udev_subsystem_exact. run. rewrite Hstored.
  destruct plugin_name as [name|]; [|reflexivity].
  rewrite existsb_strcmp_elem_of, bool_decide_eq_true_2; [reflexivity|].
  by apply Hname.
Qed.

(** The registry after a write, as a map. *)
Lemma add_udev_subsystem_map subsystem plugin_name s :
  udev_subsystems (st_priv (snd (fu_context_add_udev_subsystem subsystem plugin_name s)))
  = <[subsystem := written_plugin_names (udev_subsystems (st_priv s) !! subsystem)
                     plugin_name]>
      match g_strsplit_2 subsystem ":" with
      | base :: _ :: _ =>
          <[base := written_plugin_names (udev_subsystems (st_priv s) !! base) None]>
            (udev_subsystems (st_priv s))
      | _ => udev_subsystems (st_priv s)
      end.
Proof.
  rewrite add_udev_subsystem_unfold.
  destruct (g_strsplit_2 subsystem ":") as [|base [|devtype rest]] eqn:Hsplit;
    try apply add_udev_subsystem_exact_written.
  rewrite bind_run, add_udev_subsystem_exact_written.
  rewrite (add_udev_subsystem_base _ _ _ _ None Hsplit).
  rewrite add_udev_subsystem_exact_written.
  pose proof (g_strsplit_2_base_differs _ _ _ _ Hsplit) as Hbase.
  by rewrite lookup_insert_ne.
Qed.

(** X14: registering the same plugin for the same subsystem a second time
    does nothing: the registry and the trace stay as the first call has left
    them, with no second message about a watch that was added. *)
Theorem add_udev_subsystem_twice
    (s : State) (subsystem : string) (plugin_name : option string) :
  let s' := snd (fu_context_add_udev_subsystem subsystem plugin_name s) in
  fu_context_add_udev_subsystem subsystem plugin_name s' = (tt, s').
Proof.
  cbv zeta.
  pose proof (add_udev_subsystem_map subsystem plugin_name s) as Hmap.
  set (s' := snd (fu_context_add_udev_subsystem subsystem plugin_name s)) in *.
  assert (add_udev_subsystem_exact subsystem plugin_name s' = (tt, s')) as Hexact.
  { eapply add_udev_subsystem_exact_nothing_to_do.
    - rewrite Hmap. apply lookup_insert_eq.
    - intros name ->. apply written_plugin_names_has_name. }
  rewrite add_udev_subsystem_unfold.
  destruct (g_strsplit_2 subsystem ":") as [|base [|devtype rest]] eqn:Hsplit;
    try exact Hexact.
  rewrite (add_udev_subsystem_base _ _ _ _ None Hsplit), bind_run.
  pose proof (g_strsplit_2_base_differs _ _ _ _ Hsplit) as Hbase.
  erewrite (add_udev_subsystem_exact_nothing_to_do base None s'); [exact Hexact| |done].
  rewrite Hmap, lookup_insert_ne by done. apply lookup_insert_eq.
Qed.

(** X15: the subsystems that are watched are the keys of the registry, each
    once.  After a write the subsystem is among them, and so is the base
    subsystem of a [subsystem:devtype]; all that were watched before still
    are, and no other subsystem has come in. *)
Theorem udev_subsystems_are_listed
    (s : State) (subsystem : string) (plugin_name : option string) :
  let s' := snd (fu_context_add_udev_subsystem subsystem plugin_name s) in
  let watched := fst (fu_context_get_udev_subsystems s') in
  subsystem ∈ watched /\
  (forall base devtype rest,
     g_strsplit_2 subsystem ":" = base :: devtype :: rest -> base ∈ watched) /\
  (forall other, other ∈ fst (fu_context_get_udev_subsystems s) -> other ∈ watched) /\
  NoDup watched /\
  (forall other,
     other ∈ watched ->
     other ∈ fst (fu_context_get_udev_subsystems s) \/ other = subsystem \/
     exists devtype rest, g_strsplit_2 subsystem ":" = other :: devtype :: rest) /\
  snd (fu_context_get_udev_subsystems s') = s'.
Proof.
  cbv zeta.
  pose proof (add_udev_subsystem_map subsystem plugin_name s) as Hmap.
  set (s' := snd (fu_context_add_udev_subsystem subsystem plugin_name s)) in *.
  assert (forall s0 key,
            key ∈ fst (fu_context_get_udev_subsystems s0)
            <-> is_Some (udev_subsystems (st_priv s0) !! key)) as Hlisted.
  { intros s0 key. unfold fu_context_get_udev_subsystems. run.
    rewrite (fold_left_add (fun key => key)), list_fmap_id. simpl.
    apply g_hash_table_get_keys_spec. }
  split_and!.
  - apply Hlisted. rewrite Hmap, lookup_insert_eq. by eexists.
  - intros base devtype rest Hsplit. apply Hlisted. rewrite Hmap, Hsplit.
    pose proof (g_strsplit_2_base_differs _ _ _ _ Hsplit) as Hbase.
    rewrite lookup_insert_ne by done. rewrite lookup_insert_eq. by eexists.
  - intros other Hother. apply Hlisted in Hother as [l Hl]. apply Hlisted.
    rewrite Hmap. destruct (decide (subsystem = other)) as [->|Hne];
      [rewrite lookup_insert_eq; by eexists|].
    rewrite lookup_insert_ne by done.
    destruct (g_strsplit_2 subsystem ":") as [|base [|devtype rest]];
      try by (rewrite Hl; eexists).
    destruct (decide (base = other)) as [->|Hne'];
      [rewrite lookup_insert_eq; by eexists|].
    rewrite lookup_insert_ne by done. rewrite Hl. by eexists.
  - unfold fu_context_get_udev_subsystems. run.
    rewrite (fold_left_add (fun key => key)), list_fmap_id. simpl.
    apply NoDup_fst_map_to_list.
  - intros other Hother. apply Hlisted in Hother. rewrite Hmap in Hother.
    destruct (decide (subsystem = other)) as [->|Hne]; [right; by left|].
    rewrite lookup_insert_ne in Hother by done.
    destruct (g_strsplit_2 subsystem ":") as [|base [|devtype rest]];
      try (left; by apply Hlisted).
    destruct (decide (base = other)) as [->|Hne'];
      [right; right; by exists devtype, rest|].
    rewrite lookup_insert_ne in Hother by done. left. by apply Hlisted.
  - reflexivity.
Qed.

(** ** ESP volumes: what the cache holds *)

Lemma existsb_volume_id volume (volumes : list FuVolume) :
  existsb (fun volume_tmp =>
             g_strcmp0_null (volume_id volume_tmp) (volume_id volume) =? 0) volumes
  = bool_decide (volume_id volume ∈ volume_id <$> volumes).
Proof.
  induction volumes as [|v volumes IH]; simpl; [reflexivity|].
  rewrite IH. clear IH.
  destruct (Z.eqb_spec (g_strcmp0_null (volume_id v) (volume_id volume)) 0) as [E|E];
    simpl.
  - apply g_strcmp0_null_eq in E. symmetry. apply bool_decide_eq_true.
    rewrite E. by left.
  - destruct (bool_decide_reflect (volume_id volume ∈ volume_id <$> volumes))
      as [Hin|Hnot]; symmetry.
    + apply bool_decide_eq_true. by right.
    + apply bool_decide_eq_false. intros Hin. apply elem_of_cons in Hin as [Heq|Hin].
      * apply E. apply g_strcmp0_null_eq. by symmetry.
      * by apply Hnot.
Qed.

Lemma add_esp_volume_cases (volume : FuVolume) (s : State) :
  let s' := snd (fu_context_add_esp_volume volume s) in
  let volumes := esp_volumes (st_priv s) in
  (volume_id volume ∈ volume_id <$> volumes ->
     st_priv s' = st_priv s /\
     events_since s s'
       [EvLog LOG_DEBUG
          ("not adding duplicate volume " +:+ null_to_string (volume_id volume))]) /\
  (volume_id volume ∉ volume_id <$> volumes ->
     st_priv s' = with_esp_volumes (st_priv s) (volumes ++ [volume])%list /\
     st_trace s' = st_trace s).
Proof.
  cbv zeta. split.
  - intros Hin. unfold fu_context_add_esp_volume, events_since. run.
    rewrite existsb_volume_id, bool_decide_eq_true_2 by exact Hin. done.
  - intros Hnot. unfold fu_context_add_esp_volume. run.
    rewrite existsb_volume_id, bool_decide_eq_false_2 by exact Hnot. done.
Qed.

Lemma add_esp_volume_distinct (volume : FuVolume) (s : State) :
  volume_ids_distinct (esp_volumes (st_priv s)) ->
  volume_ids_distinct (esp_volumes (st_priv (snd (fu_context_add_esp_volume volume s)))).
Proof.
  intros Hdistinct.
  pose proof (add_esp_volume_cases volume s) as [Hdup Hnew]. cbv zeta in *.
  destruct (decide (volume_id volume ∈ volume_id <$> esp_volumes (st_priv s)))
    as [Hin|Hnot].
  - destruct (Hdup Hin) as [-> _]. exact Hdistinct.
  - destruct (Hnew Hnot) as [-> _]. simpl. unfold volume_ids_distinct.
    rewrite fmap_app. apply NoDup_app. split_and!; [exact Hdistinct| |].
    + intros x Hx Hx'. apply list_elem_of_singleton in Hx' as ->. by apply Hnot.
    + apply NoDup_singleton.
Qed.

(** X16: a volume is added to the ESP volumes only when no volume of the
    array has its id, a NULL id being an id like any other.  A volume with
    a new id is put at the end and nothing is logged; a volume with an id
    that is there leaves the array as it is and is mentioned in a debug
    message.  So ids that are apart stay apart, and adding the same volume
    again changes nothing. *)
Theorem add_esp_volume_keeps_ids_apart (volume : FuVolume) (s : State) :
  let s' := snd (fu_context_add_esp_volume volume s) in
  let volumes := esp_volumes (st_priv s) in
  (volume_id volume ∈ volume_id <$> volumes ->
     st_priv s' = st_priv s /\
     events_since s s'
       [EvLog LOG_DEBUG
          ("not adding duplicate volume " +:+ null_to_string (volume_id volume))]) /\
  (volume_id volume ∉ volume_id <$> volumes ->
     st_priv s' = with_esp_volumes (st_priv s) (volumes ++ [volume])%list /\
     st_trace s' = st_trace s) /\
  (volume_ids_distinct volumes -> volume_ids_distinct (esp_volumes (st_priv s'))) /\
  esp_volumes (st_priv (snd (fu_context_add_esp_volume volume s')))
  = esp_volumes (st_priv s').
Proof.
  cbv zeta.
  pose proof (add_esp_volume_cases volume s) as [Hdup Hnew]. cbv zeta in *.
  split_and!; [exact Hdup|exact Hnew|apply add_esp_volume_distinct|].
  assert (volume_id volume
          ∈ volume_id <$> esp_volumes
                            (st_priv (snd (fu_context_add_esp_volume volume s))))
    as Hthere.
  { destruct (decide (volume_id volume ∈ volume_id <$> esp_volumes (st_priv s)))
      as [Hin|Hnot].
    - destruct (Hdup Hin) as [-> _]. exact Hin.
    - destruct (Hnew Hnot) as [-> _]. simpl. rewrite fmap_app.
      apply elem_of_app. right. by left. }
  pose proof (add_esp_volume_cases volume
                (snd (fu_context_add_esp_volume volume s))) as [Hagain _].
  cbv zeta in Hagain. by destruct (Hagain Hthere) as [-> _].
Qed.

Lemma cache_grows_refl P s : cache_grows P s s.
Proof. split; [done|]. exists []. split; [by rewrite app_nil_r|constructor]. Qed.

Lemma cache_grows_trans P s1 s2 s3 :
  cache_grows P s1 s2 -> cache_grows P s2 s3 -> cache_grows P s1 s3.
Proof.
  intros [Hd1 (a1 & E1 & H1)] [Hd2 (a2 & E2 & H2)]. split; [auto|].
  exists (a1 ++ a2)%list. split; [by rewrite E2, E1, app_assoc|by apply Forall_app].
Qed.

Lemma cache_grows_emit P e s : cache_grows P s (snd (emit e s)).
Proof. split; [done|]. exists []. split; [by rewrite app_nil_r|constructor]. Qed.

Lemma cache_grows_bind {A B} P (m : M A) (k : A -> M B) s :
  cache_grows P s (snd (m s)) ->
  (forall a s', cache_grows P s' (snd (k a s'))) ->
  cache_grows P s (snd ((m ≫= k) s)).
Proof.
  intros Hm Hk. rewrite bind_run. eapply cache_grows_trans; [exact Hm|apply Hk].
Qed.

Lemma cache_grows_for_each {A} P (l : list A) (body : A -> M unit) s :
  (forall x s', In x l -> cache_grows P s' (snd (body x s'))) ->
  cache_grows P s (snd (for_each l body s)).
Proof.
  revert s. induction l as [|x l IH]; intros s Hbody; [apply cache_grows_refl|].
  cbn [for_each]. apply cache_grows_bind.
  - apply Hbody. by left.
  - intros _ s'. apply IH. intros y s0 Hin. apply Hbody. by right.
Qed.

Lemma cache_grows_add_esp_volume (P : FuVolume -> Prop) volume s :
  P volume -> cache_grows P s (snd (fu_context_add_esp_volume volume s)).
Proof.
  intros HP.
  pose proof (add_esp_volume_cases volume s) as [Hdup Hnew].
  cbv zeta in *. split; [apply add_esp_volume_distinct|].
  destruct (decide (volume_id volume ∈ volume_id <$> esp_volumes (st_priv s)))
    as [Hin|Hnot].
  - destruct (Hdup Hin) as [-> _]. exists []. split; [by rewrite app_nil_r|constructor].
  - destruct (Hnew Hnot) as [-> _]. exists [volume]. split; [reflexivity|].
    by repeat constructor.
Qed.

Lemma cache_grows_get_esp_volumes w s :
  cache_grows (discovered w) s (snd (fu_context_get_esp_volumes w s)).
Proof.
  unfold fu_context_get_esp_volumes. rewrite bind_run.
  change (GET_PRIVATE s) with (st_priv s, s). cbn [fst snd].
  destruct (0 <? length (esp_volumes (st_priv s)))%nat; [apply cache_grows_refl|].
  apply cache_grows_bind; [apply cache_grows_emit|]. intros _ s1.
  unfold discovered.
  destruct (getenv_FWUPD_UEFI_ESP_PATH w) as [path_tmp|].
  - apply cache_grows_bind; [by apply cache_grows_add_esp_volume|]. intros _ s2.
    apply cache_grows_refl.
  - apply cache_grows_bind; [apply cache_grows_emit|]. intros _ s2.
    apply cache_grows_bind.
    { destruct (fu_volume_new_by_kind w FU_VOLUME_KIND_ESP) as [volumes|e] eqn:Hesp.
      - apply cache_grows_for_each. intros vol s3 Hin.
        destruct (Z.eqb_spec (g_strcmp0 (volume_id_type vol) "vfat") 0) as [E|E];
          simpl; [|apply cache_grows_refl].
        apply cache_grows_add_esp_volume. split; [by apply g_strcmp0_eq|].
        left. by exists volumes.
      - apply cache_grows_emit. }
    intros _ s3. apply cache_grows_bind; [apply cache_grows_emit|]. intros _ s4.
    apply cache_grows_bind.
    { destruct (fu_volume_new_by_kind w FU_VOLUME_KIND_BDP) as [volumes|e] eqn:Hbdp.
      - apply cache_grows_for_each. intros vol s5 Hin.
        destruct (Z.eqb_spec (g_strcmp0 (volume_id_type vol) "vfat") 0) as [E|E];
          simpl; [|apply cache_grows_refl].
        destruct (volume_is_internal vol) eqn:Hinternal; simpl;
          [|apply cache_grows_refl].
        apply cache_grows_add_esp_volume. split; [by apply g_strcmp0_eq|].
        right. by exists volumes.
      - apply cache_grows_emit. }
    intros _ s5. rewrite bind_run.
    change (GET_PRIVATE s5) with (st_priv s5, s5). cbn [fst snd].
    destruct (length (esp_volumes (st_priv s5)) =? 0)%nat; [|apply cache_grows_refl].
    apply cache_grows_bind; [apply cache_grows_emit|]. intros _ s6.
    destruct (fu_common_get_block_devices w); apply cache_grows_refl.
Qed.

(** X17: the discovery of the ESP volumes never removes a volume from the
    cache and never changes the order of those that are there: what the
    cache holds afterwards is what it held followed by what was discovered.
    Every volume that is discovered is, with the override of the test suite
    in the environment, the volume of that path made an ESP with the zero
    UUID, and otherwise a [vfat] volume that UDisks gave for the ESP kind or
    an internal [vfat] volume that it gave for the BDP kind.  Ids that were
    apart in the cache stay apart, and the volumes that a successful call
    returns are those of the cache. *)
Theorem esp_volumes_discovery (w : World) (s : State) :
  let s' := snd (fu_context_get_esp_volumes w s) in
  (exists added,
     esp_volumes (st_priv s') = (esp_volumes (st_priv s) ++ added)%list /\
     Forall (discovered w) added /\
     (esp_volumes (st_priv s) <> [] -> added = [])) /\
  (volume_ids_distinct (esp_volumes (st_priv s)) ->
   volume_ids_distinct (esp_volumes (st_priv s'))) /\
  (forall volumes,
     fst (fu_context_get_esp_volumes w s) = Ok volumes ->
     volumes = esp_volumes (st_priv s') /\ volumes <> []).
Proof.
  cbv zeta.
  pose proof (cache_grows_get_esp_volumes w s) as [Hdistinct (added & Hadded & Hwhat)].
  split_and!; [|exact Hdistinct|].
  - exists added. split_and!; [exact Hadded|exact Hwhat|].
    intros Hcached. rewrite (get_esp_volumes_cached w s Hcached) in Hadded.
    simpl in Hadded. symmetry in Hadded.
    rewrite <- (app_nil_r (esp_volumes (st_priv s))) in Hadded at 2.
    by apply app_inv_head in Hadded.
  - intros volumes Hok.
    destruct (fu_context_get_esp_volumes w s) as [found s1] eqn:Hcall.
    simpl in Hok. subst found.
    apply get_esp_volumes_ok in Hcall as [Hne Hcache]. by split.
Qed.

(** X18: a discovery that fails is not remembered.  It fails only when the
    cache was empty, the override of the test suite is not set and nothing
    was found; the cache is still empty afterwards, so that the next call
    asks UDisks again.  The error is the one of listing the block devices
    when that fails too, which tells that UDisks is not working, and
    not-found otherwise. *)
Theorem esp_volumes_failure_not_cached (w : World) (s : State) (e : GError) (s1 : State)
    (Hfailed : fu_context_get_esp_volumes w s = (Err e, s1)) :
  esp_volumes (st_priv s) = [] /\
  esp_volumes (st_priv s1) = [] /\
  getenv_FWUPD_UEFI_ESP_PATH w = None /\
  e = match fu_common_get_block_devices w with
      | Err error_udisks => error_udisks
      | Ok _ => not_found_error "No ESP or BDP found"
      end.
Proof.
  revert Hfailed. unfold fu_context_get_esp_volumes. run.
  destruct (esp_volumes (st_priv s)) as [|v vs] eqn:Hcache; simpl; [|discriminate].
  destruct (getenv_FWUPD_UEFI_ESP_PATH w) as [path_tmp|].
  - unfold fu_context_add_esp_volume. run. rewrite Hcache. simpl. discriminate.
  - repeat match goal with
           | |- (let '(_, s') := ?m in _) = _ -> _ => destruct m as [[] ?] eqn:?
           end.
    match goal with
    | |- context [length (esp_volumes (st_priv ?s2))] =>
        destruct (esp_volumes (st_priv s2)) as [|v vs] eqn:Hs2; simpl
    end; [|discriminate].
    destruct (fu_common_get_block_devices w) as [devices|e'];
      intros H; inversion H; subst; clear H; simpl; split_and!; done.
Qed.

(** ** The default ESP: one candidate, no candidate, and the cache *)

Lemma esp_score_volume_priv location table esp s :
  st_priv (snd (esp_score_volume location table esp s)) = st_priv s.
Proof.
  unfold esp_score_volume, fu_volume_locker, fu_context_is_esp_linux. run.
  destruct (volume_locker esp); simpl; [reflexivity|].
  destruct (match location with Some _ => _ | None => _ end); simpl; [reflexivity|].
  destruct (fu_context_is_esp esp); simpl; [|reflexivity].
  destruct (volume_mount_point esp); simpl; [|reflexivity].
  destruct (volume_files esp) as [files|e]; simpl; [|reflexivity].
  by destruct (List.find is_linux_loader files).
Qed.

Lemma esp_score_volumes_priv location volumes table s :
  st_priv (snd (esp_score_volumes location volumes table s)) = st_priv s.
Proof.
  revert table s. induction volumes as [|esp volumes IH]; intros table s;
    [reflexivity|].
  cbn [esp_score_volumes]. rewrite bind_run, IH. apply esp_score_volume_priv.
Qed.

Lemma g_hash_table_lookup_head key value (table : GHashTable) :
  g_hash_table_lookup ((key, value) :: table) key = Some value.
Proof.
  unfold g_hash_table_lookup. simpl. by rewrite bool_decide_eq_true_2.
Qed.

(** X19: with one candidate in the cache there is no scoring: the candidate
    is mounted, and it is returned when the mount succeeds and, if the user
    has configured a location, its mount point is that location.  A failure
    of the mount is the failure of the call, and a mount point that is not
    the configured location is not-supported.  Whether the volume has an
    [EFI] directory is not looked at.  The context is left as it is and the
    one event is the mount. *)
Theorem default_esp_single_candidate (w : World) (s : State) (esp : FuVolume)
    (Hsingle : esp_volumes (st_priv s) = [esp])
    (Hmount : Z.land (flags (st_priv s)) FU_CONTEXT_FLAG_INHIBIT_VOLUME_MOUNT = 0) :
  fst (fu_context_get_default_esp w s)
  = match volume_locker esp with
    | Some e => Err e
    | None =>
        match esp_location (st_priv s) with
        | Some location =>
            if g_strcmp0_null (volume_mount_point esp) (Some location) =? 0
            then Ok esp
            else Err (not_supported_error
                        ("user specified ESP " +:+ location +:+ " not found"))
        | None => Ok esp
        end
    end /\
  st_priv (snd (fu_context_get_default_esp w s)) = st_priv s /\
  events_since s (snd (fu_context_get_default_esp w s)) [EvVolumeLocker (volume_id esp)].
Proof.
  unfold fu_context_get_default_esp, fu_context_get_esp_location, events_since.
  rewrite bind_run. simpl. rewrite bind_run.
  assert (esp_volumes (st_priv s) <> []) as Hne by (by rewrite Hsingle).
  rewrite (get_esp_volumes_cached w s Hne). simpl.
  rewrite bind_run. simpl. rewrite Hmount, Hsingle. simpl.
  unfold fu_volume_locker. run.
  destruct (volume_locker esp) as [e|]; simpl; [done|].
  destruct (esp_location (st_priv s)) as [location|]; simpl; [|done].
  by destruct (g_strcmp0_null (volume_mount_point esp) (Some location) =? 0).
Qed.

(** X20: with several candidates of which none survives the scoring loop,
    because it cannot be mounted, is not at the configured location or has
    no [EFI] directory, the call fails with not-supported. *)
Theorem default_esp_no_candidate_survives (w : World) (s : State)
    (Hseveral : (1 < length (esp_volumes (st_priv s)))%nat)
    (Hmount : Z.land (flags (st_priv s)) FU_CONTEXT_FLAG_INHIBIT_VOLUME_MOUNT = 0)
    (Hnone : forall esp,
               esp ∈ esp_volumes (st_priv s) ->
               survives (esp_location (st_priv s)) esp = false) :
  fst (fu_context_get_default_esp w s)
  = Err (not_supported_error "no EFI system partition found").
Proof.
  destruct (get_default_esp_multi w s Hseveral Hmount) as (table & Htable & ->).
  destruct table as [|[key value] table]; [reflexivity|].
  specialize (Htable key). rewrite g_hash_table_lookup_head in Htable.
  destruct (bool_decide_reflect (key ∈ esp_volumes (st_priv s))) as [Hin|Hnot];
    simpl in Htable; [|discriminate].
  rewrite (Hnone key Hin) in Htable. discriminate.
Qed.

(** X21: the volume that is returned as the default ESP is the first of the
    cached array when the call returns, and the array then holds the
    volumes that the discovery has left in it, each as often as before: the
    sort by score is done on the cached array itself and only changes the
    order. *)
Theorem default_esp_is_first_cached
    (w : World) (s : State) (esp : FuVolume) (s' : State)
    (Hok : fu_context_get_default_esp w s = (Ok esp, s')) :
  exists rest,
    esp_volumes (st_priv s') = esp :: rest /\
    Permutation (esp :: rest)
      (esp_volumes (st_priv (snd (fu_context_get_esp_volumes w s)))).
Proof.
  revert Hok.
  unfold fu_context_get_default_esp, fu_context_get_esp_location.
  rewrite bind_run. simpl. rewrite bind_run.
  destruct (fu_context_get_esp_volumes w s) as [[volumes|e] s1] eqn:Hfound;
    simpl; [|discriminate].
  apply get_esp_volumes_ok in Hfound as [Hne Hcache].
  rewrite bind_run. simpl.
  destruct (negb _); simpl; [discriminate|].
  rewrite bind_run.
  destruct (1 <? length volumes)%nat.
  - rewrite bind_run.
    pose proof (esp_score_volumes_priv (esp_location (st_priv s)) volumes [] s1)
      as Hpriv.
    destruct (esp_score_volumes (esp_location (st_priv s)) volumes [] s1)
      as [table s2]. simpl in Hpriv. simpl.
    destruct (g_hash_table_size table =? 0)%nat; simpl; [discriminate|].
    pose proof (g_ptr_array_sort_perm (fu_context_sort_esp_score_cb table) volumes)
      as Hperm.
    destruct (g_ptr_array_sort (fu_context_sort_esp_score_cb table) volumes)
      as [|best [|second sorted]] eqn:Hsorted.
    + run. discriminate.
    + unfold fu_volume_locker. run.
      destruct (volume_locker best); simpl; [discriminate|].
      destruct (esp_location (st_priv s)) as [location|]; simpl;
        [destruct (negb _); simpl; [discriminate|]|];
        intros H; inversion H; subst esp s'; clear H; simpl;
        exists []; rewrite Hcache; by split.
    + run. intros H; inversion H; subst esp s'; clear H. simpl.
      exists (second :: sorted). rewrite Hcache. by split.
  - simpl. destruct volumes as [|only [|second volumes]]; [done| |].
    + unfold fu_volume_locker. run.
      destruct (volume_locker only); simpl; [discriminate|].
      destruct (esp_location (st_priv s)) as [location|]; simpl;
        [destruct (negb _); simpl; [discriminate|]|];
        intros H; inversion H; subst esp s'; clear H; simpl;
        exists []; rewrite Hcache; by split.
    + run. intros H; inversion H; subst esp s'; clear H. simpl.
      exists (second :: volumes). rewrite Hcache. by split.
Qed.

(** ** The volume of a boot entry *)

Lemma esp_volume_matching_find dp volumes s :
  fst (esp_volume_matching dp volumes s)
  = match List.find (matches_device_path dp) volumes with
    | Some volume => Ok volume
    | None => Err (not_found_error "could not find EFI DP")
    end /\
  st_priv (snd (esp_volume_matching dp volumes s)) = st_priv s.
Proof.
  revert s. induction volumes as [|volume volumes IH]; intros s; [done|].
  cbn [esp_volume_matching List.find]. unfold matches_device_path at 1.
  destruct (fu_efi_hard_drive_device_path_new_from_volume volume) as [dp_tmp|e].
  - destruct (fu_efi_hard_drive_device_path_compare dp dp_tmp); simpl; [done|].
    apply IH.
  - rewrite bind_run. destruct (IH (snd (g_debug (error_message e) s))) as [-> ->].
    done.
Qed.

(** X22: the volume of a hard-drive device path is the first of the ESP
    volumes whose own device path can be built and compares equal to it; a
    volume whose device path cannot be built is passed over.  When there is
    no such volume the failure is not-found, and a failure of the discovery
    of the volumes is returned as it is.  The lookup changes nothing of the
    context beyond what the discovery does. *)
Theorem esp_volume_of_device_path_is_first_match
    (w : World) (dp : FuEfiHardDriveDevicePath) (s : State) :
  let found := fu_context_get_esp_volume_by_hard_drive_device_path w dp s in
  fst found
  = match fst (fu_context_get_esp_volumes w s) with
    | Err e => Err e
    | Ok volumes =>
        match List.find (matches_device_path dp) volumes with
        | Some volume => Ok volume
        | None => Err (not_found_error "could not find EFI DP")
        end
    end /\
  st_priv (snd found) = st_priv (snd (fu_context_get_esp_volumes w s)) /\
  (forall volume,
     fst found = Ok volume ->
     In volume (esp_volumes (st_priv (snd found))) /\
     matches_device_path dp volume = true).
Proof.
  cbv zeta. unfold fu_context_get_esp_volume_by_hard_drive_device_path.
  rewrite bind_run.
  destruct (fu_context_get_esp_volumes w s) as [[volumes|e] s1] eqn:Hfound; simpl;
    [|split_and!; done].
  apply get_esp_volumes_ok in Hfound as [_ Hcache].
  destruct (esp_volume_matching_find dp volumes s1) as [-> ->].
  split_and!; try done.
  intros volume. destruct (List.find _ volumes) as [v|] eqn:Hfind; [|discriminate].
  intros [= ->]. apply find_some in Hfind as [Hin Hmatch]. by rewrite Hcache.
Qed.

(** ** Plugins that have registered are found *)

(** X23: a plugin that has registered for a subsystem is among the names
    that are read for that subsystem, and the read leaves the context as it
    is.  For a [subsystem:devtype] the names of the base subsystem come
    first in the answer. *)
Theorem registered_plugin_is_read (s : State) (subsystem name : string) :
  let s' := snd (fu_context_add_udev_subsystem subsystem (Some name) s) in
  exists names,
    fu_context_get_plugin_names_for_udev_subsystem subsystem s' = (Ok names, s') /\
    name ∈ names /\
    forall base devtype rest plugin_names,
      g_strsplit_2 subsystem ":" = base :: devtype :: rest ->
      udev_subsystems (st_priv s') !! base = Some plugin_names ->
      exists exact, names = (plugin_names ++ exact)%list /\ name ∈ exact.
Proof.
  cbv zeta.
  pose proof (add_udev_subsystem_map subsystem (Some name) s) as Hmap.
  set (s' := snd (fu_context_add_udev_subsystem subsystem (Some name) s)) in *.
  pose proof (written_plugin_names_has_name
                (udev_subsystems (st_priv s) !! subsystem) name) as Hname.
  assert (udev_subsystems (st_priv s') !! subsystem
          = Some (written_plugin_names (udev_subsystems (st_priv s) !! subsystem)
                    (Some name))) as Hexact
    by (rewrite Hmap; apply lookup_insert_eq).
  unfold fu_context_get_plugin_names_for_udev_subsystem. run. rewrite Hexact.
  set (exact := written_plugin_names _ _) in *.
  destruct (g_strsplit_2 subsystem ":") as [|base [|devtype rest]]; simpl.
  - destruct exact as [|x exact]; [by apply elem_of_nil in Hname|].
    eexists. split_and!; [reflexivity|exact Hname|discriminate].
  - destruct exact as [|x exact]; [by apply elem_of_nil in Hname|].
    eexists. split_and!; [reflexivity|exact Hname|discriminate].
  - destruct (udev_subsystems (st_priv s') !! base) as [plugin_names|] eqn:Hbase.
    + destruct (plugin_names ++ exact)%list as [|x l] eqn:Happ.
      { apply app_eq_nil in Happ as [_ ->]. by apply elem_of_nil in Hname. }
      simpl. rewrite <- Happ. eexists. split_and!; [reflexivity| |].
      * apply elem_of_app. by right.
      * intros b d r stored [= <- <- <-] Hstored. rewrite Hbase in Hstored.
        injection Hstored as <-. by exists exact.
    + destruct exact as [|x exact]; [by apply elem_of_nil in Hname|].
      eexists. split_and!; [reflexivity|exact Hname|].
      intros b d r stored [= <- <- <-] Hstored. rewrite Hbase in Hstored.
      discriminate.
Qed.

(** ** Loading the hardware information: the watch that is added *)

(** What follows the watch in [fu_context_load_hwinfo] leaves the registry
    as it is. *)
Lemma load_hwinfo_tail_keeps_watch s :
  let tail : M (result unit) :=
    fu_context_add_udev_subsystem "firmware-attributes" None;;
    reloaded ← fu_context_reload_bios_settings;
    match reloaded with
    | Err error_bios_settings => g_debug (error_message error_bios_settings)
    | Ok _ => mret tt
    end;;
    mret (Ok tt) in
  is_Some (udev_subsystems (st_priv (snd (tail s))) !! "firmware-attributes").
Proof.
  cbv zeta. rewrite bind_run. cbv beta.
  pose proof (add_udev_subsystem_map "firmware-attributes" None s) as Hmap.
  destruct (fu_context_add_udev_subsystem "firmware-attributes" None s) as [[] s1].
  cbn [fst snd] in *.
  unfold fu_context_reload_bios_settings. run.
  destruct (fu_bios_settings_setup (host_bios_settings (st_priv s1)))
    as [settings [e|]]; simpl; rewrite Hmap, lookup_insert_eq; by eexists.
Qed.

(** X24: a load of the hardware information that succeeds has put the
    [firmware-attributes] subsystem under watch, whatever the setup
    functions have done to the context: it is a key of the registry and is
    listed among the subsystems. *)
Theorem load_hwinfo_watches_firmware_attributes
    (w : World) (load_flags : Z) (s : State)
    (Hloaded : fst (fu_context_load_hwinfo w load_flags s) = Ok tt) :
  let s' := snd (fu_context_load_hwinfo w load_flags s) in
  is_Some (udev_subsystems (st_priv s') !! "firmware-attributes") /\
  "firmware-attributes" ∈ fst (fu_context_get_udev_subsystems s').
Proof.
  cbv zeta.
  assert (is_Some (udev_subsystems
                     (st_priv (snd (fu_context_load_hwinfo w load_flags s)))
                   !! "firmware-attributes")) as Hkey.
  { revert Hloaded. unfold fu_context_load_hwinfo. rewrite bind_run.
    change (GET_PRIVATE s) with (st_priv s, s). cbn [fst snd].
    destruct (fu_config_load (config (st_priv s))) as [config_ error].
    rewrite bind_run. destruct error as [e|]; [discriminate|]. intros _.
    generalize (snd (SET_PRIVATE (with_config (st_priv s) config_) s)). intros s1.
    rewrite bind_run. cbv beta.
    generalize (snd (for_each hwids_setup_map (run_hwids_setup_func load_flags) s1)).
    intros s2. rewrite bind_run. cbv beta.
    generalize (snd (fu_context_add_flag FU_CONTEXT_FLAG_LOADED_HWINFO s2)).
    intros s3. rewrite bind_run.
    change (GET_PRIVATE s3) with (st_priv s3, s3). cbn [fst snd].
    destruct (fu_hwids_setup (hwids (st_priv s3))) as [hwids_ error_hwids].
    rewrite bind_run. cbv beta.
    generalize (snd (SET_PRIVATE (with_hwids (st_priv s3) hwids_) s3)). intros s4.
    rewrite bind_run. cbv beta.
    match goal with |- context [snd (?m s4)] => generalize (snd (m s4)) end.
    intros s5. rewrite bind_run. cbv beta.
    destruct (fu_context_get_hwid_guids s5) as [guids s6]. cbn [fst snd].
    rewrite bind_run. cbv beta.
    match goal with |- context [snd (?m s6)] => generalize (snd (m s6)) end.
    intros s7. rewrite bind_run. cbv beta.
    generalize (snd (fu_context_detect_full_disk_encryption w s7)). intros s8.
    apply load_hwinfo_tail_keeps_watch. }
  split; [exact Hkey|].
  unfold fu_context_get_udev_subsystems. run.
  rewrite (fold_left_add (fun key => key)), list_fmap_id. simpl.
  by apply g_hash_table_get_keys_spec.
Qed.

(** ** Boot assets: where the files come from *)

(** X25: every file that the collection of the boot assets returns carries
    the index of one of the boot entries of the EFI variable store; without
    boot entries nothing is returned.  When the boot entries cannot be read
    the failure is returned and the context is left as it is; any other
    failure of the collection is the failure of one of the entries and is
    neither not-found nor invalid-file. *)
Theorem esp_files_come_from_boot_entries (w : World) (flags_ : Z) (s : State) :
  let collected := fu_context_get_esp_files w flags_ s in
  (forall e,
     fu_efivars_get_boot_entries (efivars (st_priv s)) = Err e ->
     collected = (Err e, s)) /\
  (fu_efivars_get_boot_entries (efivars (st_priv s)) = Ok [] ->
     collected = (Ok [], s)) /\
  (forall entries files,
     fu_efivars_get_boot_entries (efivars (st_priv s)) = Ok entries ->
     fst collected = Ok files ->
     Forall (fun firmware =>
               exists entry, In entry entries /\
                             pefile_idx firmware = load_option_idx entry) files) /\
  (forall entries e,
     fu_efivars_get_boot_entries (efivars (st_priv s)) = Ok entries ->
     fst collected = Err e ->
     entry_failure_ignored e = false /\
     exists entry files0 s0,
       In entry entries /\
       snd (fst (fu_context_get_esp_files_for_entry w entry files0 flags_ s0)) = Err e).
Proof.
  cbv zeta. unfold fu_context_get_esp_files. run. split_and!.
  - by intros e ->.
  - by intros ->.
  - intros entries files -> Hok.
    apply esp_files_for_entries_added in Hok as (added & -> & Hadded). exact Hadded.
  - intros entries e ->. apply esp_files_for_entries_error.
Qed.

(** ** The name of an EFI binary *)






(** ** What is set without a notification *)

(** X27: the chassis kind is a plain field: setting it stores the value,
    which the getter then gives, changes nothing else of the context and
    sends no notification and no message, unlike the setters of the power,
    lid and display state.  A new context has the unknown chassis kind.
    The two signals of the context are emitted without a change of the
    context. *)
Theorem chassis_kind_and_signals_are_silent
    (s : State) (kind : Z) (getenv_FWUPD_EFIVARS : option string) :
  fu_context_set_chassis_kind kind s
  = (tt, {| st_priv := with_chassis_kind (st_priv s) kind; st_trace := st_trace s |}) /\
  fst (fu_context_get_chassis_kind (snd (fu_context_set_chassis_kind kind s))) = kind /\
  fst (fu_context_get_chassis_kind (fu_context_new getenv_FWUPD_EFIVARS))
  = FU_SMBIOS_CHASSIS_KIND_UNKNOWN /\
  fu_context_security_changed s = (tt, log_event s (EvSignal "security-changed")) /\
  fu_context_housekeeping s = (tt, log_event s (EvSignal "housekeeping")) /\
  fst (fu_context_get_efivars (fu_context_new getenv_FWUPD_EFIVARS))
  = (if bool_decide (getenv_FWUPD_EFIVARS = Some "dummy")
     then fu_dummy_efivars_new else fu_efivars_new).
Proof.
  split_and!; try reflexivity.
  unfold fu_context_get_efivars, fu_context_new, fu_context_init. run.
  destruct (bool_decide_reflect (getenv_FWUPD_EFIVARS = Some "dummy")) as [->|Hne].
  - reflexivity.
  - destruct (Z.eqb_spec (g_strcmp0_null getenv_FWUPD_EFIVARS (Some "dummy")) 0)
      as [E|E]; [|reflexivity].
    by apply g_strcmp0_null_eq in E.
Qed.

End FuContext.

(** The types of the helper objects are found from the state. *)
Arguments st_priv {_ _ _ _ _ _ _ _}.
Arguments st_trace {_ _ _ _ _ _ _ _}.
Arguments log_event {_ _ _ _ _ _ _ _}.
Arguments events_since {_ _ _ _ _ _ _ _}.
Arguments mount_free {_ _ _ _ _ _ _ _}.
Arguments inhibited {_ _ _ _ _ _ _ _}.
Arguments has_flag {_ _ _ _ _ _ _ _}.
Arguments fu_context_set_battery_level {_ _ _ _ _ _ _ _}.
Arguments fu_context_set_battery_threshold {_ _ _ _ _ _ _ _}.
Arguments fu_context_has_hwid_guid {_ _ _ _ _ _ _ _}.
Arguments fu_context_get_smbios_integer {_ _ _ _ _ _ _ _}.
Arguments fu_context_add_udev_subsystem {_ _ _ _ _ _ _ _}.
Arguments fu_context_get_plugin_names_for_udev_subsystem {_ _ _ _ _ _ _ _}.
Arguments fu_context_get_esp_volumes {_ _ _ _ _ _ _ _}.
Arguments fu_context_get_default_esp {_ _ _ _ _ _ _ _}.
Arguments fu_context_load_hwinfo {_ _ _ _ _ _ _ _}.
Arguments fu_context_get_esp_files_for_entry {_ _ _ _ _ _ _ _} _ _ _ {_}.
Arguments esp_files_for_entries {_ _ _ _ _ _ _ _} _ _ _ {_}.

(** * Concrete contexts

    The constants below are those of the public headers of fwupd; the
    theorems above hold for any values of them. *)

Definition FWUPD_BATTERY_LEVEL_INVALID : Z := 101.
Definition FU_CONTEXT_FLAG_LOADED_HWINFO : Z := Z.shiftl 1 2.
Definition FU_CONTEXT_FLAG_INHIBIT_VOLUME_MOUNT : Z := Z.shiftl 1 3.
Definition FU_VOLUME_KIND_ESP : string := "c12a7328-f81f-11d2-ba4b-00a0c93ec93b".
Definition FU_VOLUME_KIND_BDP : string := "ebd0a0a2-b9e5-4433-87c0-68b6b72699c7".

(** A context as [fu_context_init] leaves it, with helper objects that carry
    no data. *)
Definition example_priv : FuContextPrivate unit unit unit unit unit unit unit unit :=
  {| flags := 0; hwids := tt; config := tt; smbios := tt; chassis_kind := 0;
     quirks := tt; efivars := tt; backends := []; runtime_versions := ∅;
     compile_versions := ∅; udev_subsystems := ∅; esp_volumes := [];
     firmware_gtypes := ∅; hwid_flags := ∅; power_state := 0; lid_state := 0;
     display_state := 0; battery_level := FWUPD_BATTERY_LEVEL_INVALID;
     battery_threshold := FWUPD_BATTERY_LEVEL_INVALID;
     host_bios_settings := tt; fdt := None; esp_location := None |}.

Definition example_state : State unit unit unit unit unit unit unit unit :=
  {| st_priv := example_priv; st_trace := [] |}.

(** The context with the given volumes in its cache and the given flags. *)
Definition state_with_volumes (volumes : list FuVolume) (context_flags : Z)
  : State unit unit unit unit unit unit unit unit :=
  {| st_priv := with_flags _ _ _ _ _ _ _ _
                  (with_esp_volumes _ _ _ _ _ _ _ _ example_priv volumes) context_flags;
     st_trace := [] |}.

(** A volume that mounts at [/boot/efi] or the like and shows an [EFI]
    directory with the given files. *)
Definition mounted_volume (id kind : string) (size : Z) (mount_point : string)
    (files : list string) : FuVolume :=
  {| volume_id := Some id; volume_partition_kind := kind;
     volume_partition_uuid := "00000000-0000-0000-0000-000000000000";
     volume_id_type := "vfat"; volume_is_internal := true; volume_size := size;
     volume_locker := None; volume_mount_point := Some mount_point;
     volume_dirs := ["EFI"]; volume_files := Ok files |}.

(** A volume that cannot be mounted. *)
Definition unmountable_volume (id kind : string) (size : Z) : FuVolume :=
  {| volume_id := Some id; volume_partition_kind := kind;
     volume_partition_uuid := "00000000-0000-0000-0000-000000000000";
     volume_id_type := "vfat"; volume_is_internal := true; volume_size := size;
     volume_locker := Some {| error_code := FWUPD_ERROR FWUPD_ERROR_NOT_SUPPORTED;
                              error_message := "failed to mount" |};
     volume_mount_point := None; volume_dirs := []; volume_files := Ok [] |}.

(** A platform without an ESP override in the environment, where UDisks
    answers with no volume and no file is a PE image. *)
Definition example_world : World :=
  {| getenv_FWUPD_UEFI_ESP_PATH := None;
     fu_volume_new_from_mount_path := fun path =>
       mounted_volume path FU_VOLUME_KIND_ESP 0 path [];
     fu_volume_new_by_kind := fun _ => Ok [];
     fu_common_get_block_devices := Ok [];
     fu_firmware_parse_file := fun _ => Some (not_found_error "No such file") |}.

Definition MiB : Z := 2 ^ 20.

(** ** The default ESP among several candidates *)

Definition get_default_esp (s : State unit unit unit unit unit unit unit unit)
  : result FuVolume :=
  fst (fu_context_get_default_esp FU_VOLUME_KIND_ESP FU_VOLUME_KIND_BDP
         FU_CONTEXT_FLAG_INHIBIT_VOLUME_MOUNT example_world s).

(** An ESP that does not mount, met first, and a small internal data
    partition that mounts, has an [EFI] directory and no Linux loader. *)
Definition broken_esp : FuVolume :=
  unmountable_volume "/org/freedesktop/UDisks2/block_devices/sda1" FU_VOLUME_KIND_ESP
    (512 * MiB).

Definition small_bdp : FuVolume :=
  mounted_volume "/org/freedesktop/UDisks2/block_devices/sdb1" FU_VOLUME_KIND_BDP
    (512 * 1024) "/run/media/sdb1" ["/run/media/sdb1/startup.nsh"].

(** C1, where the code departs from it: the candidate that cannot be
    mounted gets no score, the one candidate with a score has the score 0,
    and the volume returned is the one that cannot be mounted: in the sort
    a volume without a score counts as 0 and stays in front. *)
Theorem default_esp_returns_unmountable_candidate :
  survives None broken_esp = false /\
  survives None small_bdp = true /\
  esp_score FU_VOLUME_KIND_ESP small_bdp = 0 /\
  get_default_esp (state_with_volumes [broken_esp; small_bdp] 0) = Ok broken_esp.
Proof. vm_compute. repeat split. Qed.

(** Three candidates that all mount and have an [EFI] directory: of 10 and
    20 MiB with the ESP kind and no Linux loader, of 15 MiB with a loader. *)
Definition esp_10 : FuVolume :=
  mounted_volume "/org/freedesktop/UDisks2/block_devices/sda1" FU_VOLUME_KIND_ESP
    (10 * MiB) "/boot/efi" ["/boot/efi/startup.nsh"].

Definition esp_20 : FuVolume :=
  mounted_volume "/org/freedesktop/UDisks2/block_devices/sdb1" FU_VOLUME_KIND_ESP
    (20 * MiB) "/run/media/sdb1" ["/run/media/sdb1/bootx64.efi"].

Definition esp_15_linux : FuVolume :=
  mounted_volume "/org/freedesktop/UDisks2/block_devices/sdc1" FU_VOLUME_KIND_ESP
    (15 * MiB) "/run/media/sdc1" ["/run/media/sdc1/ShimX64.EFI"].

Definition bdp_15_linux : FuVolume :=
  mounted_volume "/org/freedesktop/UDisks2/block_devices/sdc1" FU_VOLUME_KIND_BDP
    (15 * MiB) "/run/media/sdc1" ["/run/media/sdc1/ShimX64.EFI"].

(** A data partition of 4 PiB. *)
Definition huge_bdp : FuVolume :=
  mounted_volume "/org/freedesktop/UDisks2/block_devices/md0" FU_VOLUME_KIND_BDP
    (2 ^ 52) "/run/media/md0" [].

(** C2 fails as stated.  Sizes of 10, 20 and 15 MiB with only the 15 MiB
    candidate having a Linux loader do not decide the result: when that
    candidate is a data partition and the one of 20 MiB has the ESP kind,
    the one of 20 MiB is returned.  And the score is a [guint]: a volume of
    4 PiB without bonus has the score 0, not 2^32. *)
Lemma default_esp_sizes_alone_counterexample :
  (volume_size esp_10 = 10 * MiB /\ volume_size esp_20 = 20 * MiB /\
   volume_size bdp_15_linux = 15 * MiB) /\
  (has_linux_loader esp_10 = false /\ has_linux_loader esp_20 = false /\
   has_linux_loader bdp_15_linux = true) /\
  (survives None esp_10 = true /\ survives None esp_20 = true /\
   survives None bdp_15_linux = true) /\
  get_default_esp (state_with_volumes [esp_10; esp_20; bdp_15_linux] 0) = Ok esp_20 /\
  get_default_esp (state_with_volumes [esp_10; esp_20; bdp_15_linux] 0)
  <> Ok bdp_15_linux /\
  survives None huge_bdp = true /\
  esp_score FU_VOLUME_KIND_ESP huge_bdp = 0 /\
  claimed_score FU_VOLUME_KIND_ESP huge_bdp = 2 ^ 32.
Proof. vm_compute. repeat split; discriminate. Qed.

Lemma default_esp_is_best_scored_witness :
  (1 < length [esp_10; esp_20; esp_15_linux])%nat /\
  Z.land 0 FU_CONTEXT_FLAG_INHIBIT_VOLUME_MOUNT = 0 /\
  get_default_esp (state_with_volumes [esp_10; esp_20; esp_15_linux] 0)
  = Ok esp_15_linux.
Proof.
  split; [simpl; lia|]. split; [reflexivity|].
  refine (proj1 (proj2 (proj2 (default_esp_is_best_scored _ _ _ _ _ _ _ _
                                 FU_VOLUME_KIND_ESP FU_VOLUME_KIND_BDP
                                 FU_CONTEXT_FLAG_INHIBIT_VOLUME_MOUNT example_world
                                 (state_with_volumes [esp_10; esp_20; esp_15_linux] 0)
                                 _ _)))
            esp_10 esp_20 esp_15_linux _ _ _ _ _ _ _ _ _ _ _ _);
    try reflexivity.
  simpl. lia.
Defined.

(** ** The cached volumes *)

(** A platform on which UDisks has stopped answering. *)
Definition silent_world : World :=
  {| getenv_FWUPD_UEFI_ESP_PATH := None;
     fu_volume_new_from_mount_path := fun path =>
       mounted_volume path FU_VOLUME_KIND_ESP 0 path [];
     fu_volume_new_by_kind := fun _ => Err (not_supported_error "no UDisks2");
     fu_common_get_block_devices := Err (not_supported_error "no UDisks2");
     fu_firmware_parse_file := fun _ => Some (not_found_error "No such file") |}.

Lemma esp_volumes_cached_witness :
  [esp_10] <> [] /\
  fu_context_get_esp_volumes FU_VOLUME_KIND_ESP FU_VOLUME_KIND_BDP silent_world
    (state_with_volumes [esp_10] 0)
  = (Ok [esp_10], state_with_volumes [esp_10] 0).
Proof.
  split; [discriminate|].
  refine (proj2 (proj1 (esp_volumes_cached_for_lifetime _ _ _ _ _ _ _ _
                          FU_VOLUME_KIND_ESP FU_VOLUME_KIND_BDP
                          example_world silent_world
                          (state_with_volumes [esp_10] 0)) _)).
  discriminate.
Defined.

(** ** Accessors before the hardware information is loaded *)

Lemma hwid_smbios_accessors_guard_witness :
  has_flag example_priv FU_CONTEXT_FLAG_LOADED_HWINFO = false /\
  fu_context_has_hwid_guid FU_CONTEXT_FLAG_LOADED_HWINFO (fun _ _ => true)
    "059eb22d-6dc7-59af-abd3-94bbe017f67c" example_state
  = (false, log_event example_state hwids_misuse).
Proof.
  split; [reflexivity|].
  refine (proj1 (proj1 (hwid_smbios_accessors_guard _ _ _ _ _ _ _ _
                          FU_CONTEXT_FLAG_LOADED_HWINFO unit
                          (fun _ _ => true) (fun _ => []) (fun _ _ => None)
                          (fun _ _ => Ok "") (fun _ _ _ _ => (None, None))
                          (fun _ _ _ => Ok []) (fun _ _ _ _ => (0, None))
                          example_state "059eb22d-6dc7-59af-abd3-94bbe017f67c"
                          "" "" 0 0 0) _)).
  reflexivity.
Defined.

(** ** Loading the hardware information with a failing setup function *)

Definition setup_ok : FuContextHwidsSetupFunc unit unit unit unit unit unit unit unit :=
  fun priv => (priv, None).

Definition setup_fails : FuContextHwidsSetupFunc unit unit unit unit unit unit unit unit :=
  fun priv => (priv, Some (not_supported_error "no SMBIOS table")).

(** The six load flags are the bits 0 to 5; the SMBIOS function fails. *)
Definition load_hwinfo (load_flags : Z) (s : State unit unit unit unit unit unit unit unit)
  : result unit * State unit unit unit unit unit unit unit unit :=
  fu_context_load_hwinfo FU_CONTEXT_FLAG_LOADED_HWINFO (fun _ => [])
    (fun config => (config, None))
    setup_ok setup_fails setup_ok setup_ok setup_ok setup_ok
    1 2 4 8 16 32
    (fun hwids => (hwids, None)) (fun _ _ _ => ([], false)) "Flags"
    (Z.shiftl 1 4) (Z.shiftl 1 5) (fun settings => (settings, None))
    example_world load_flags s.


Example load_hwinfo_trace :
  st_trace (snd (load_hwinfo 3 example_state))
  = [EvHwidsSetupFunc "config"; EvHwidsSetupFunc "smbios";
     EvLog LOG_INFO "failed to load smbios: no SMBIOS table";
     EvNotify "flags"; EvHwidsRegistry; EvGetBlockDevices;
     EvLog LOG_INFO "added udev subsystem watch of firmware-attributes"].
Proof. vm_compute. reflexivity. Qed.

(** ** udev subsystems *)

Definition add_udev_subsystem (subsystem plugin_name : string)
    (s : State unit unit unit unit unit unit unit unit)
  : State unit unit unit unit unit unit unit unit :=
  snd (fu_context_add_udev_subsystem subsystem (Some plugin_name) s).

Definition plugin_names_for (subsystem : string)
    (s : State unit unit unit unit unit unit unit unit) : result (list string) :=
  fst (fu_context_get_plugin_names_for_udev_subsystem subsystem s).

(** C9 fails as stated.  The write sorts: after [nvme] and then [ata] have
    registered for [block], the stored list is [ata; nvme], not the order of
    arrival.  The read does not sort: with [scsi] registered for [block] and
    [ata] for [block:partition], the names for [block:partition] come out as
    [scsi; ata]. *)
Lemma udev_sort_on_read_counterexample :
  udev_subsystems _ _ _ _ _ _ _ _
    (st_priv (add_udev_subsystem "block" "ata"
                (add_udev_subsystem "block" "nvme" example_state)))
  !! "block" = Some ["ata"; "nvme"] /\
  plugin_names_for "block:partition"
    (add_udev_subsystem "block:partition" "ata"
       (add_udev_subsystem "block" "scsi" example_state))
  = Ok ["scsi"; "ata"] /\
  ~ Sorted (sorted_before g_strcmp0) ["scsi"; "ata"].
Proof.
  split; [vm_compute; reflexivity|]. split; [vm_compute; reflexivity|].
  intros Hsorted. apply Sorted_inv in Hsorted as [_ Hhd].
  apply HdRel_inv in Hhd. vm_compute in Hhd. by apply Hhd.
Qed.

(** The registry in which [nvme] has registered for [block], and the one in
    which [ata] has registered after it. *)
Definition block_nvme : State unit unit unit unit unit unit unit unit :=
  add_udev_subsystem "block" "nvme" example_state.

Definition block_nvme_ata : State unit unit unit unit unit unit unit unit :=
  add_udev_subsystem "block" "ata" block_nvme.

Definition stored_plugin_names (subsystem : string)
    (s : State unit unit unit unit unit unit unit unit) : option (list string) :=
  udev_subsystems _ _ _ _ _ _ _ _ (st_priv s) !! subsystem.

(** The second write finds the list [nvme], to which [ata] is new: it
    appends the name and sorts, the stored list is [ata; nvme], the registry
    is sorted as it was before, and the read gives the stored list. *)
Lemma udev_plugin_names_sorted_witness :
  udev_subsystems_sorted (udev_subsystems _ _ _ _ _ _ _ _ (st_priv block_nvme)) /\
  stored_plugin_names "block" block_nvme = Some ["nvme"] /\
  ("ata" ∉ ["nvme"]) /\
  stored_plugin_names "block" block_nvme_ata = Some ["ata"; "nvme"] /\
  Permutation ["ata"; "nvme"] ["nvme"; "ata"] /\
  udev_subsystems_sorted (udev_subsystems _ _ _ _ _ _ _ _ (st_priv block_nvme_ata)) /\
  plugin_names_for "block" block_nvme_ata = Ok ["ata"; "nvme"] /\
  plugin_names_sorted ["ata"; "nvme"].
Proof.
  assert (udev_subsystems_sorted (udev_subsystems _ _ _ _ _ _ _ _ example_priv)) as Hempty.
  { intros subsystem l Hl. simpl in Hl. by rewrite lookup_empty in Hl. }
  pose proof (udev_plugin_names_sorted_on_write _ _ _ _ _ _ _ _
                example_state "block" (Some "nvme")) as Hfirst.
  pose proof (udev_plugin_names_sorted_on_write _ _ _ _ _ _ _ _
                block_nvme "block" (Some "ata")) as Hsecond.
  pose proof (udev_plugin_names_sorted_on_write _ _ _ _ _ _ _ _
                block_nvme_ata "block" None) as Hread.
  cbv zeta in Hfirst, Hsecond, Hread.
  destruct Hfirst as (Hsorted1 & _).
  destruct Hsecond as (Hsorted2 & _ & _ & _ & _ & Happend & _).
  destruct Hread as (_ & _ & Hnames & Hsorted3 & _).
  assert (stored_plugin_names "block" block_nvme = Some ["nvme"]) as Hstored
    by (vm_compute; reflexivity).
  assert ("ata" ∉ ["nvme"]) as Hnew.
  { apply (bool_decide_unpack _). vm_compute. exact I. }
  specialize (Happend "ata" ["nvme"] eq_refl Hstored Hnew) as (Hwritten & Hperm).
  specialize (Hsorted1 Hempty). specialize (Hsorted2 Hsorted1).
  assert (plugin_names_for "block" block_nvme_ata = Ok ["ata"; "nvme"]) as Hgot.
  { unfold plugin_names_for. rewrite Hnames. vm_compute. reflexivity. }
  split_and!; try assumption.
  apply (Hsorted3 Hsorted2); [vm_compute; lia|exact Hgot].
Defined.

(** ** Boot entries *)

Definition build_filename (dir : option string) (name : string) : string :=
  default "" dir +:+ "/" +:+ name.

(** The first occurrence of [find] replaced. *)
Definition string_replace (s find replace : string) : string :=
  match index 0 find s with
  | Some i =>
      substring 0 i s +:+ replace
      +:+ substring (i + String.length find) (String.length s) s
  | None => s
  end.

(** A boot entry for the shim of Fedora on the first hard drive, and an entry
    that carries no device path. *)
Definition shim_entry : FuEfiLoadOption unit :=
  {| load_option_id := Some "Boot0001"; load_option_idx := 1;
     load_option_device_path_list :=
       Some {| device_path_list_hard_drive := Some tt;
               device_path_list_file_path :=
                 Some {| fu_efi_file_path_device_path_get_name :=
                           Ok "EFI/fedora/shimx64.efi" |} |};
     load_option_metadata_path := None |}.

Definition bare_entry : FuEfiLoadOption unit :=
  {| load_option_id := Some "Boot0002"; load_option_idx := 2;
     load_option_device_path_list := None; load_option_metadata_path := None |}.

(** The three file flags are the bits 0 to 2, the machine is x86-64 and every
    volume matches the hard-drive path of the entry. *)
Definition get_esp_files_for_entry (w : World) (entry : FuEfiLoadOption unit)
    (files : list FuPefileFirmware) (flags_ : Z)
    (s : State unit unit unit unit unit unit unit unit) :=
  fu_context_get_esp_files_for_entry FU_VOLUME_KIND_ESP FU_VOLUME_KIND_BDP
    FU_CONTEXT_FLAG_INHIBIT_VOLUME_MOUNT (fun _ => Ok tt) (fun _ _ => true)
    build_filename string_replace 1 2 4 X86_64 w entry files flags_ s.

Definition get_esp_files_for_entries (w : World) (entries : list (FuEfiLoadOption unit))
    (files : list FuPefileFirmware) (flags_ : Z)
    (s : State unit unit unit unit unit unit unit unit) :=
  esp_files_for_entries FU_VOLUME_KIND_ESP FU_VOLUME_KIND_BDP
    FU_CONTEXT_FLAG_INHIBIT_VOLUME_MOUNT (fun _ => Ok tt) (fun _ _ => true)
    build_filename string_replace 1 2 4 X86_64 w entries files flags_ s.









(** On a platform where reading the file fails, the collection ends with
    that error. *)
Definition unreadable_world : World :=
  {| getenv_FWUPD_UEFI_ESP_PATH := None;
     fu_volume_new_from_mount_path := fun path =>
       mounted_volume path FU_VOLUME_KIND_ESP 0 path [];
     fu_volume_new_by_kind := fun _ => Ok [];
     fu_common_get_block_devices := Ok [];
     fu_firmware_parse_file := fun _ =>
       Some {| error_code := FWUPD_ERROR FWUPD_ERROR_READ;
               error_message := "Input/output error" |} |}.

Example esp_files_read_error_aborts :
  fst (get_esp_files_for_entries unreadable_world [shim_entry; bare_entry] [] 1
         (state_with_volumes [esp_10] 0))
  = Err {| error_code := FWUPD_ERROR FWUPD_ERROR_READ;
           error_message :=
             "failed to load /boot/efi/EFI/fedora/shimx64.efi: Input/output error" |}.
Proof. vm_compute. reflexivity. Qed.

(** ** Mounting inhibited *)

Definition inhibited_state : State unit unit unit unit unit unit unit unit :=
  state_with_volumes [esp_10; esp_20] FU_CONTEXT_FLAG_INHIBIT_VOLUME_MOUNT.

(** C10 fails as stated for the boot entries: with the inhibit flag set and
    the volumes found, the lookup of the files of an entry without device
    paths succeeds, and finds nothing. *)
Lemma inhibit_volume_mount_entry_counterexample :
  inhibited FU_CONTEXT_FLAG_INHIBIT_VOLUME_MOUNT inhibited_state /\
  fst (fu_context_get_esp_volumes FU_VOLUME_KIND_ESP FU_VOLUME_KIND_BDP example_world
         inhibited_state)
  = Ok [esp_10; esp_20] /\
  fst (get_esp_files_for_entry example_world bare_entry [] 7 inhibited_state)
  = ([], Ok tt) /\
  snd (fst (get_esp_files_for_entry example_world bare_entry [] 7 inhibited_state))
  <> Err cannot_mount_by_policy.
Proof.
  split; [by vm_compute|]. split; [vm_compute; reflexivity|].
  split; [vm_compute; reflexivity|]. vm_compute. discriminate.
Qed.

Lemma inhibit_volume_mount_by_policy_witness :
  inhibited FU_CONTEXT_FLAG_INHIBIT_VOLUME_MOUNT inhibited_state /\
  fu_context_get_default_esp FU_VOLUME_KIND_ESP FU_VOLUME_KIND_BDP
    FU_CONTEXT_FLAG_INHIBIT_VOLUME_MOUNT example_world inhibited_state
  = (Err cannot_mount_by_policy, inhibited_state) /\
  fst (get_esp_files_for_entry example_world shim_entry [] 7 inhibited_state)
  = ([], Err cannot_mount_by_policy).
Proof.
  assert (inhibited FU_CONTEXT_FLAG_INHIBIT_VOLUME_MOUNT inhibited_state) as Hinhibit
    by (by vm_compute).
  split; [exact Hinhibit|].
  pose proof (inhibit_volume_mount_by_policy _ _ _ _ _ _ _ _
                FU_VOLUME_KIND_ESP FU_VOLUME_KIND_BDP
                FU_CONTEXT_FLAG_INHIBIT_VOLUME_MOUNT unit
                (fun _ => Ok tt) (fun _ _ => true) build_filename string_replace
                1 2 4 X86_64 example_world inhibited_state shim_entry [] 7 Hinhibit)
    as (Hdefault & _ & Hentry).
  split.
  - apply (Hdefault [esp_10; esp_20] inhibited_state). reflexivity.
  - eapply Hentry; reflexivity.
Defined.

(** ** Battery *)

Lemma battery_setters_reject_witness :
  FWUPD_BATTERY_LEVEL_INVALID < 150 /\
  st_priv (snd (fu_context_set_battery_level FWUPD_BATTERY_LEVEL_INVALID 150
                  example_state))
  = example_priv /\
  snd (fu_context_set_battery_threshold FWUPD_BATTERY_LEVEL_INVALID
         FWUPD_BATTERY_LEVEL_INVALID example_state)
  = example_state.
Proof.
  pose proof (battery_setters_reject_idempotent_frame _ _ _ _ _ _ _ _
                FWUPD_BATTERY_LEVEL_INVALID example_state 150)
    as (Hreject & _).
  pose proof (battery_setters_reject_idempotent_frame _ _ _ _ _ _ _ _
                FWUPD_BATTERY_LEVEL_INVALID example_state FWUPD_BATTERY_LEVEL_INVALID)
    as (_ & _ & _ & _ & Hsame & _).
  split; [reflexivity|]. split.
  - apply Hreject. reflexivity.
  - apply Hsame; [discriminate|reflexivity].
Defined.

Example battery_level_accepted :
  fu_context_set_battery_level FWUPD_BATTERY_LEVEL_INVALID 42 example_state
  = (tt, {| st_priv := with_battery_level _ _ _ _ _ _ _ _ example_priv 42;
            st_trace := [EvLog LOG_INFO "battery level now 42";
                         EvNotify "battery-level"] |}).
Proof. vm_compute. reflexivity. Qed.

(** ** Flags *)

Arguments fu_context_add_flag {_ _ _ _ _ _ _ _}.
Arguments fu_context_remove_flag {_ _ _ _ _ _ _ _}.
Arguments fu_context_has_flag {_ _ _ _ _ _ _ _}.
Arguments fu_context_add_firmware_gtype {_ _ _ _ _ _ _ _}.
Arguments fu_context_get_firmware_gtype_by_id {_ _ _ _ _ _ _ _}.
Arguments fu_context_get_udev_subsystems {_ _ _ _ _ _ _ _}.
Arguments esp_volumes {_ _ _ _ _ _ _ _}.
Arguments udev_subsystems {_ _ _ _ _ _ _ _}.

(** The loaded flag on a context that has no flag, and taken away again. *)
Lemma flag_added_is_set_witness :
  0 < FU_CONTEXT_FLAG_LOADED_HWINFO /\
  fst (fu_context_has_flag FU_CONTEXT_FLAG_LOADED_HWINFO
         (snd (fu_context_add_flag FU_CONTEXT_FLAG_LOADED_HWINFO example_state)))
  = true /\
  fst (fu_context_has_flag FU_CONTEXT_FLAG_LOADED_HWINFO
         (snd (fu_context_remove_flag FU_CONTEXT_FLAG_LOADED_HWINFO
                 (snd (fu_context_add_flag FU_CONTEXT_FLAG_LOADED_HWINFO
                         example_state)))))
  = false.
Proof.
  assert (0 < FU_CONTEXT_FLAG_LOADED_HWINFO) as Hflag by reflexivity.
  split; [exact Hflag|].
  pose proof (flag_added_is_set_removed_is_clear _ _ _ _ _ _ _ _
                FU_CONTEXT_FLAG_LOADED_HWINFO example_state Hflag)
    as (Hadded & _ & Hremoved).
  split; [exact Hadded|exact Hremoved].
Defined.

(** The loaded flag is added to, and removed from, a context on which the
    mounting of volumes is inhibited: it still is. *)
Lemma flag_changes_keep_other_flags_witness :
  Z.land FU_CONTEXT_FLAG_LOADED_HWINFO FU_CONTEXT_FLAG_INHIBIT_VOLUME_MOUNT = 0 /\
  has_flag
    (st_priv (snd (fu_context_add_flag FU_CONTEXT_FLAG_LOADED_HWINFO
                     (state_with_volumes [] FU_CONTEXT_FLAG_INHIBIT_VOLUME_MOUNT))))
    FU_CONTEXT_FLAG_INHIBIT_VOLUME_MOUNT
  = true /\
  has_flag
    (st_priv (snd (fu_context_remove_flag FU_CONTEXT_FLAG_LOADED_HWINFO
                     (state_with_volumes []
                        (Z.lor FU_CONTEXT_FLAG_LOADED_HWINFO
                           FU_CONTEXT_FLAG_INHIBIT_VOLUME_MOUNT)))))
    FU_CONTEXT_FLAG_INHIBIT_VOLUME_MOUNT
  = true.
Proof.
  assert (Z.land FU_CONTEXT_FLAG_LOADED_HWINFO FU_CONTEXT_FLAG_INHIBIT_VOLUME_MOUNT = 0)
    as Hdisjoint by reflexivity.
  split; [exact Hdisjoint|]. split.
  - rewrite (proj1 (flag_changes_keep_other_flags _ _ _ _ _ _ _ _
                      FU_CONTEXT_FLAG_LOADED_HWINFO
                      FU_CONTEXT_FLAG_INHIBIT_VOLUME_MOUNT
                      (state_with_volumes [] FU_CONTEXT_FLAG_INHIBIT_VOLUME_MOUNT)
                      Hdisjoint)).
    reflexivity.
  - rewrite (proj2 (flag_changes_keep_other_flags _ _ _ _ _ _ _ _
                      FU_CONTEXT_FLAG_LOADED_HWINFO
                      FU_CONTEXT_FLAG_INHIBIT_VOLUME_MOUNT
                      (state_with_volumes []
                         (Z.lor FU_CONTEXT_FLAG_LOADED_HWINFO
                            FU_CONTEXT_FLAG_INHIBIT_VOLUME_MOUNT))
                      Hdisjoint)).
    reflexivity.
Defined.

(** ** Firmware types *)

(** A type registered as [ihex] on a context that knows no type. *)
Lemma firmware_gtype_added_is_found_witness :
  80 <> G_TYPE_INVALID /\
  fst (fu_context_get_firmware_gtype_by_id "ihex"
         (snd (fu_context_add_firmware_gtype (Some "ihex") 80 example_state)))
  = 80 /\
  fst (fu_context_get_firmware_gtype_by_id "srec"
         (snd (fu_context_add_firmware_gtype (Some "ihex") 80 example_state)))
  = G_TYPE_INVALID.
Proof.
  assert (80 <> G_TYPE_INVALID) as Hvalid by (unfold G_TYPE_INVALID; lia).
  split; [exact Hvalid|].
  pose proof (firmware_gtype_added_is_found _ _ _ _ _ _ _ _
                example_state "ihex" "srec" 80 Hvalid) as (Hfound & Hother & _).
  split; [exact Hfound|].
  cbv zeta in Hother. rewrite Hother by discriminate. reflexivity.
Defined.

(** ** ESP volumes *)

(** UDisks answers and knows no ESP and no BDP: the discovery fails with
    not-found and the cache stays empty. *)
Lemma esp_volumes_failure_not_cached_witness :
  fst (fu_context_get_esp_volumes FU_VOLUME_KIND_ESP FU_VOLUME_KIND_BDP example_world
         example_state)
  = Err (not_found_error "No ESP or BDP found") /\
  esp_volumes
    (st_priv (snd (fu_context_get_esp_volumes FU_VOLUME_KIND_ESP FU_VOLUME_KIND_BDP
                     example_world example_state)))
  = [].
Proof.
  assert (fu_context_get_esp_volumes FU_VOLUME_KIND_ESP FU_VOLUME_KIND_BDP
            example_world example_state
          = (Err (not_found_error "No ESP or BDP found"),
             snd (fu_context_get_esp_volumes FU_VOLUME_KIND_ESP FU_VOLUME_KIND_BDP
                    example_world example_state))) as Hfailed
    by (vm_compute; reflexivity).
  split; [by rewrite Hfailed|].
  exact (proj1 (proj2 (esp_volumes_failure_not_cached _ _ _ _ _ _ _ _
                         FU_VOLUME_KIND_ESP FU_VOLUME_KIND_BDP example_world
                         example_state _ _ Hfailed))).
Defined.

(** One candidate that mounts, with no location configured: it is the
    default ESP. *)
Lemma default_esp_single_candidate_witness :
  esp_volumes (st_priv (state_with_volumes [esp_10] 0)) = [esp_10] /\
  Z.land 0 FU_CONTEXT_FLAG_INHIBIT_VOLUME_MOUNT = 0 /\
  get_default_esp (state_with_volumes [esp_10] 0) = Ok esp_10.
Proof.
  split; [reflexivity|]. split; [reflexivity|].
  unfold get_default_esp.
  rewrite (proj1 (default_esp_single_candidate _ _ _ _ _ _ _ _
                    FU_VOLUME_KIND_ESP FU_VOLUME_KIND_BDP
                    FU_CONTEXT_FLAG_INHIBIT_VOLUME_MOUNT example_world
                    (state_with_volumes [esp_10] 0) esp_10 eq_refl eq_refl)).
  reflexivity.
Defined.

(** Two candidates that cannot be mounted. *)
Definition broken_bdp : FuVolume :=
  unmountable_volume "/org/freedesktop/UDisks2/block_devices/sdb2" FU_VOLUME_KIND_BDP
    (64 * MiB).

Lemma default_esp_no_candidate_survives_witness :
  (1 < length [broken_esp; broken_bdp])%nat /\
  survives None broken_esp = false /\
  survives None broken_bdp = false /\
  get_default_esp (state_with_volumes [broken_esp; broken_bdp] 0)
  = Err (not_supported_error "no EFI system partition found").
Proof.
  split; [simpl; lia|]. split; [reflexivity|]. split; [reflexivity|].
  unfold get_default_esp.
  apply (default_esp_no_candidate_survives _ _ _ _ _ _ _ _
           FU_VOLUME_KIND_ESP FU_VOLUME_KIND_BDP FU_CONTEXT_FLAG_INHIBIT_VOLUME_MOUNT
           example_world (state_with_volumes [broken_esp; broken_bdp] 0)).
  - simpl. lia.
  - reflexivity.
  - intros esp Hin. simpl in Hin.
    apply elem_of_cons in Hin as [->|Hin]; [reflexivity|].
    apply elem_of_cons in Hin as [->|Hin]; [reflexivity|].
    by apply elem_of_nil in Hin.
Defined.

(** Of the three candidates of 10, 20 and 15 MiB the last has a Linux
    loader: it is returned, and afterwards it is the first of the cache. *)
Lemma default_esp_is_first_cached_witness :
  exists rest,
    esp_volumes
      (st_priv (snd (fu_context_get_default_esp FU_VOLUME_KIND_ESP FU_VOLUME_KIND_BDP
                       FU_CONTEXT_FLAG_INHIBIT_VOLUME_MOUNT example_world
                       (state_with_volumes [esp_10; esp_20; esp_15_linux] 0))))
    = esp_15_linux :: rest /\
    Permutation (esp_15_linux :: rest) [esp_10; esp_20; esp_15_linux].
Proof.
  assert (fu_context_get_default_esp FU_VOLUME_KIND_ESP FU_VOLUME_KIND_BDP
            FU_CONTEXT_FLAG_INHIBIT_VOLUME_MOUNT example_world
            (state_with_volumes [esp_10; esp_20; esp_15_linux] 0)
          = (Ok esp_15_linux,
             snd (fu_context_get_default_esp FU_VOLUME_KIND_ESP FU_VOLUME_KIND_BDP
                    FU_CONTEXT_FLAG_INHIBIT_VOLUME_MOUNT example_world
                    (state_with_volumes [esp_10; esp_20; esp_15_linux] 0))))
    as Hok by (vm_compute; reflexivity).
  exact (default_esp_is_first_cached _ _ _ _ _ _ _ _
           FU_VOLUME_KIND_ESP FU_VOLUME_KIND_BDP FU_CONTEXT_FLAG_INHIBIT_VOLUME_MOUNT
           example_world _ _ _ Hok).
Defined.

(** ** The watch of the firmware attributes *)

Lemma load_hwinfo_watches_firmware_attributes_witness :
  fst (load_hwinfo 3 example_state) = Ok tt /\
  is_Some (udev_subsystems (st_priv (snd (load_hwinfo 3 example_state)))
           !! "firmware-attributes") /\
  "firmware-attributes" ∈ fst (fu_context_get_udev_subsystems
                                 (snd (load_hwinfo 3 example_state))).
Proof.
  assert (fst (load_hwinfo 3 example_state) = Ok tt) as Hloaded
    by (vm_compute; reflexivity).
  split; [exact Hloaded|].
  unfold load_hwinfo in *.
  exact (load_hwinfo_watches_firmware_attributes _ _ _ _ _ _ _ _ _ _ _ _ _ _ _ _ _
           _ _ _ _ _ _ _ _ _ _ _ _ _ _ _ Hloaded).
Defined.
